(** * Train-network chatbot actions: a shallow embedding of [actions/actions.py]

    The development follows the layout of the Python module:
    - Python strings, the Unicode character database they rely on, and the
      string methods the module calls ([strip], [lower], [upper], [title],
      [replace], [split], [join]);
    - the fragment of [re] used by the two regular expressions of the module;
    - [difflib.get_close_matches] (the [SequenceMatcher] ratio);
    - the reference tables ([SCHEDULES], [DELAYS_CITY], ...);
    - the normalisation functions and [find_next_train];
    - the seven Rasa actions, written in a small writer/error monad that
      collects the messages handed to the dispatcher.

    Theorems come last, one block per property of the specification. *)

From Stdlib Require Import List ZArith NArith QArith Lia Bool.
From Stdlib.Strings Require Import String Ascii Byte.
From Stdlib Require Import Sorting.Permutation Sorting.Sorted.
Import ListNotations.
Close Scope Q_scope.

Set Implicit Arguments.

(* ================================================================= *)
(** ** Python strings *)

(** A Python [str] is a sequence of Unicode code points. *)
Definition pystr := list N.

Fixpoint str_eqb (s t : pystr) : bool :=
  match s, t with
  | [], [] => true
  | c :: s', d :: t' => (c =? d)%N && str_eqb s' t'
  | _, _ => false
  end.

(** [s < t] on [str]: lexicographic by code point. *)
Fixpoint str_ltb (s t : pystr) : bool :=
  match s, t with
  | _, [] => false
  | [], _ :: _ => true
  | c :: s', d :: t' => (c <? d)%N || ((c =? d)%N && str_ltb s' t')
  end.

(** String literals of the source are written as in the source and decoded
    from the UTF-8 bytes of the Rocq literal. *)
Fixpoint utf8_decode (bs : list N) : pystr :=
  match bs with
  | [] => []
  | b0 :: r0 =>
    if (b0 <? 128)%N then b0 :: utf8_decode r0
    else match r0 with
    | [] => [b0]
    | b1 :: r1 =>
      if (b0 <? 224)%N then ((b0 - 192) * 64 + (b1 - 128))%N :: utf8_decode r1
      else match r1 with
      | [] => [b0; b1]
      | b2 :: r2 =>
        if (b0 <? 240)%N
        then ((b0 - 224) * 4096 + (b1 - 128) * 64 + (b2 - 128))%N :: utf8_decode r2
        else match r2 with
        | [] => [b0; b1; b2]
        | b3 :: r3 =>
          ((b0 - 240) * 262144 + (b1 - 128) * 4096 + (b2 - 128) * 64 + (b3 - 128))%N
            :: utf8_decode r3
        end
      end
    end
  end.

Definition u (s : string) : pystr :=
  utf8_decode (map Byte.to_N (list_byte_of_string s)).

(** Truthiness of an [Optional[str]]: [None] and the empty string are falsy. *)
Definition truthy (o : option pystr) : bool :=
  match o with
  | None => false
  | Some [] => false
  | Some (_ :: _) => true
  end.

(** [sep.join(parts)] *)
Fixpoint join (sep : pystr) (parts : list pystr) : pystr :=
  match parts with
  | [] => []
  | [p] => p
  | p :: rest => p ++ sep ++ join sep rest
  end.

(** [s.replace(old, new)] for a one-character [old] and [new]. *)
Definition replace_char (old new : N) (s : pystr) : pystr :=
  map (fun c => if (c =? old)%N then new else c) s.

(** [s.split(sep)] for a one-character separator: never returns an empty
    list. *)
Fixpoint split_char (sep : N) (s : pystr) : list pystr :=
  match s with
  | [] => [[]]
  | c :: r =>
    if (c =? sep)%N then [] :: split_char sep r
    else match split_char sep r with
         | [] => [[c]]
         | p :: ps => (c :: p) :: ps
         end
  end.

(* ================================================================= *)
(** ** The Unicode character database

    [str.strip], [str.lower], [str.upper], [str.title], [int] and the
    classes [\w], [\s], [\d] of [re] are table lookups in the Unicode
    character database compiled into the interpreter.  The database is a
    parameter of the embedding; the only facts used about it are those
    recorded as laws below.  [Latin.ucd] further down is the instance used
    to evaluate the functions on concrete inputs. *)

(** Whitespace and decimal digits of U+0000..U+017F. *)
Definition latin_isspace (c : N) : bool :=
  ((9 <=? c) && (c <=? 13) || (28 <=? c) && (c <=? 32) || (c =? 133) || (c =? 160))%N.

Definition latin_todecimal (c : N) : option Z :=
  if ((48 <=? c) && (c <=? 57))%N then Some (Z.of_N c - 48)%Z else None.

Class UCD : Type := {
  (** [Py_UNICODE_ISSPACE]: [str.strip], [\s] *)
  isspace : N -> bool;
  (** [Py_UNICODE_ISALNUM]: [\w] is [isalnum] or the underscore *)
  isalnum : N -> bool;
  (** [Py_UNICODE_TODECIMAL]: [\d], [int] *)
  todecimal : N -> option Z;
  (** [str.lower], [str.upper], [str.title]; on whole strings, because the
      mappings are not one-to-one on characters and [lower] is contextual *)
  str_lower : pystr -> pystr;
  str_upper : pystr -> pystr;
  str_title : pystr -> pystr;
  (** the database agrees with Unicode on Basic Latin, Latin-1 and Latin
      Extended-A; no whitespace character is a decimal digit *)
  isspace_latin : forall c, (c < 384)%N -> isspace c = latin_isspace c;
  todecimal_latin : forall c, (c < 384)%N -> todecimal c = latin_todecimal c;
  isspace_not_decimal : forall c, isspace c = true -> todecimal c = None
}.

Section Strings.
Context {U : UCD}.

Definition isdecimal (c : N) : bool :=
  match todecimal c with Some _ => true | None => false end.

Fixpoint lstrip (s : pystr) : pystr :=
  match s with
  | [] => []
  | c :: r => if isspace c then lstrip r else s
  end.

Definition rstrip (s : pystr) : pystr := rev (lstrip (rev s)).

(** [s.strip()] *)
Definition strip (s : pystr) : pystr := rstrip (lstrip s).

End Strings.

(* ================================================================= *)
(** ** The fragment of [re] used by the module *)

Section Regex.
Context {U : UCD}.

(** [\w] *)
Definition re_word (c : N) : bool := isalnum c || (c =? 95)%N.

(** [re.sub(cls, "", s)] for a pattern that is a single character class:
    every character of the class is deleted. *)
Definition re_sub_delete (cls : N -> bool) (s : pystr) : pystr :=
  filter (fun c => negb (cls c)) s.

(** A greedy repetition [cls{lo,hi}] of a character class; [hi = None] is
    unbounded ([*] is [{0,}], [?] is [{0,1}]). *)
Record rep : Type := Rep { rep_cls : N -> bool; rep_lo : nat; rep_hi : option nat }.

(** Length of the longest prefix of [s] in [cls], capped at [hi]. *)
Fixpoint run_length (cls : N -> bool) (hi : option nat) (s : pystr) : nat :=
  match hi with
  | Some O => O
  | _ =>
    match s with
    | c :: r =>
      if cls c then S (run_length cls (option_map pred hi) r) else O
    | [] => O
    end
  end.

(** Try the repetition counts [k, k-1, ..., lo] in that order: the matcher
    backs off one repetition at a time. *)
Fixpoint backoff {A} (try : nat -> option A) (lo k : nat) : option A :=
  if (k <? lo)%nat then None
  else match try k with
       | Some r => Some r
       | None => match k with
                 | O => None
                 | S k' => backoff try lo k'
                 end
       end.

(** [re.match] of a sequence of repetitions at the start of [s]: the text
    matched by each item of the first successful alternative. *)
Fixpoint re_match (p : list rep) (s : pystr) : option (list pystr) :=
  match p with
  | [] => Some []
  | r :: p' =>
    backoff
      (fun k => option_map (cons (firstn k s)) (re_match p' (skipn k s)))
      (rep_lo r) (run_length (rep_cls r) (rep_hi r) s)
  end.

End Regex.

(* ================================================================= *)
(** ** [difflib.get_close_matches]

    The module calls [get_close_matches(raw, KNOWN_CITIES, n=1, cutoff=0.6)].
    [SequenceMatcher] is embedded with [isjunk=None] and [autojunk=True], as
    [get_close_matches] builds it; the second sequence [b] is the word and
    the first sequence [a] the candidate.  Ratios are kept as exact
    rationals: the floating-point quotient [2.0*matches/length] compares
    with the cutoff and with another quotient as the rational does for all
    strings of fewer than 2^26 characters. *)

Module Difflib.

Definition count (x : N) (s : pystr) : nat :=
  List.length (filter (N.eqb x) s).

(** [__chain_b]: with [autojunk], an element of a sequence [b] of 200 or
    more elements that occurs more than [len(b) // 100 + 1] times is
    "popular" and is dropped from the index [b2j]. *)
Definition popular (b : pystr) (x : N) : bool :=
  (200 <=? List.length b)%nat && (List.length b / 100 + 1 <? count x b)%nat.

(** One pass of the inner loop of [find_longest_match]: from the row
    [j2len] of the previous element of [a] (shifted by one position, so
    that its head is [j2len.get(j-1, 0)]) to [newj2len]; an absent entry of
    the dictionary is a zero. *)
Fixpoint next_row (pop : N -> bool) (ai : N) (b : pystr) (shifted : list nat)
  : list nat :=
  match b with
  | [] => []
  | bj :: b' =>
    let k := if (ai =? bj)%N && negb (pop bj) then S (hd O shifted) else O in
    k :: next_row pop ai b' (tl shifted)
  end.

(** [if k > bestsize: besti, bestj, bestsize = i-k+1, j-k+1, k], for [j]
    ascending. *)
Fixpoint scan_row (i j : nat) (row : list nat) (best : nat * nat * nat)
  : nat * nat * nat :=
  match row with
  | [] => best
  | k :: row' =>
    let '(_, _, bestsize) := best in
    scan_row i (S j) row'
      (if (bestsize <? k)%nat then (i + 1 - k, j + 1 - k, k)%nat else best)
  end.

Fixpoint longest_loop (pop : N -> bool) (a b : pystr) (i : nat)
  (j2len : list nat) (best : nat * nat * nat) : nat * nat * nat :=
  match a with
  | [] => best
  | ai :: a' =>
    let newj2len := next_row pop ai b (O :: j2len) in
    longest_loop pop a' b (S i) newj2len (scan_row i O newj2len best)
  end.

(** The first extension loop: grow the block to the left while the
    elements before it agree (no element is junk). *)
Fixpoint extend_left (a b : pystr) (besti bestj bestsize : nat)
  : nat * nat * nat :=
  match besti, bestj with
  | S i', S j' =>
    match nth_error a i', nth_error b j' with
    | Some x, Some y =>
      if (x =? y)%N then extend_left a b i' j' (S bestsize)
      else (besti, bestj, bestsize)
    | _, _ => (besti, bestj, bestsize)
    end
  | _, _ => (besti, bestj, bestsize)
  end.

Fixpoint common_prefix (s t : pystr) : nat :=
  match s, t with
  | x :: s', y :: t' => if (x =? y)%N then S (common_prefix s' t') else O
  | _, _ => O
  end.

(** The second extension loop: grow the block to the right. *)
Definition extend_right (a b : pystr) (best : nat * nat * nat)
  : nat * nat * nat :=
  let '(besti, bestj, bestsize) := best in
  (besti, bestj,
   (bestsize + common_prefix (skipn (besti + bestsize) a)
                             (skipn (bestj + bestsize) b))%nat).

(** [find_longest_match(alo, ahi, blo, bhi)] on the slices [a = a[alo:ahi]]
    and [b = b[blo:bhi]], with indices relative to the slices.  The two
    loops over junk elements never run: the junk set is empty. *)
Definition find_longest_match (pop : N -> bool) (a b : pystr)
  : nat * nat * nat :=
  let '(besti, bestj, bestsize) := longest_loop pop a b O [] (O, O, O) in
  extend_right a b (extend_left a b besti bestj bestsize).

(** Sum of the sizes of the blocks of [get_matching_blocks]: the longest
    block, then the blocks of the slices to its left and to its right.
    Each round removes at least one element of [a], so [fuel] of
    [len(a) + 1] is never exhausted. *)
Fixpoint matching_size (fuel : nat) (pop : N -> bool) (a b : pystr) : nat :=
  match fuel with
  | O => O
  | S fuel' =>
    let '(i, j, k) := find_longest_match pop a b in
    if (k =? 0)%nat then O
    else
      (k
       + (if (0 <? i) && (0 <? j)
          then matching_size fuel' pop (firstn i a) (firstn j b) else O)
       + (if (i + k <? List.length a) && (j + k <? List.length b)
          then matching_size fuel' pop (skipn (i + k) a) (skipn (j + k) b)
          else O))%nat
  end.

(** [_calculate_ratio(matches, length)] *)
Definition calculate_ratio (matches length : nat) : Q :=
  match length with
  | O => 1%Q
  | S _ => ((2 * Z.of_nat matches) # (Pos.of_nat length))%Q
  end.

Definition ratio (a b : pystr) : Q :=
  calculate_ratio (matching_size (S (List.length a)) (popular b) a b)
                  (List.length a + List.length b).

(** [quick_ratio]: [avail] maps an element to the number of its
    occurrences in [b] not yet used up. *)
Fixpoint avail_get (avail : list (N * Z)) (x : N) : option Z :=
  match avail with
  | [] => None
  | (y, n) :: r => if (x =? y)%N then Some n else avail_get r x
  end.

Fixpoint quick_matches (b : pystr) (a : pystr) (avail : list (N * Z)) : nat :=
  match a with
  | [] => O
  | elt :: a' =>
    let numb := match avail_get avail elt with
                | Some n => n
                | None => Z.of_nat (count elt b)
                end in
    ((if (0 <? numb)%Z then 1 else 0)
     + quick_matches b a' ((elt, (numb - 1)%Z) :: avail))%nat
  end.

Definition quick_ratio (a b : pystr) : Q :=
  calculate_ratio (quick_matches b a []) (List.length a + List.length b).

Definition real_quick_ratio (a b : pystr) : Q :=
  calculate_ratio (Nat.min (List.length a) (List.length b))
                  (List.length a + List.length b).

(** [(score, x) > (score', x')] on tuples *)
Definition scored_gtb (p q : Q * pystr) : bool :=
  negb (Qle_bool (fst p) (fst q))
  || (Qeq_bool (fst p) (fst q) && str_ltb (snd q) (snd p)).

(** [max(it, default=sentinel)]: the first of the greatest elements. *)
Fixpoint max_from (best : Q * pystr) (l : list (Q * pystr)) : Q * pystr :=
  match l with
  | [] => best
  | item :: l' => max_from (if scored_gtb item best then item else best) l'
  end.

(** [heapq.nlargest(1, result)] *)
Definition nlargest_1 (result : list (Q * pystr)) : list (Q * pystr) :=
  match result with
  | [] => []
  | x :: l => [max_from x l]
  end.

Definition passes (cutoff : Q) (word x : pystr) : bool :=
  Qle_bool cutoff (real_quick_ratio x word)
  && Qle_bool cutoff (quick_ratio x word)
  && Qle_bool cutoff (ratio x word).

(** [get_close_matches(word, possibilities, n=1, cutoff)] *)
Definition get_close_matches (word : pystr) (possibilities : list pystr)
  (cutoff : Q) : list pystr :=
  let result :=
    flat_map (fun x => if passes cutoff word x then [(ratio x word, x)] else [])
             possibilities in
  map snd (nlargest_1 result).

End Difflib.

(* ================================================================= *)
(** ** The character database on U+0000..U+017F

    The tables of CPython for Basic Latin, Latin-1 Supplement and Latin
    Extended-A, which hold every character of the reference tables and of
    the messages' parameters.  Above U+017F the instance knows the
    remaining whitespace characters and treats every other character as an
    uncased non-alphanumeric one. *)

Module Latin.

Definition between (lo hi c : N) : bool := ((lo <=? c) && (c <=? hi))%N.

Definition is_space (c : N) : bool :=
  latin_isspace c
  || (c =? 5760)%N || between 8192 8202 c || between 8232 8233 c
  || (c =? 8239)%N || (c =? 8287)%N || (c =? 12288)%N.

Definition is_alnum (c : N) : bool :=
  between 48 57 c || between 65 90 c || between 97 122 c
  || (c =? 170)%N || between 178 179 c || (c =? 181)%N || between 185 186 c
  || between 188 190 c || between 192 214 c || between 216 246 c
  || between 248 383 c.

Definition is_cased (c : N) : bool :=
  between 65 90 c || between 97 122 c || (c =? 170)%N || (c =? 181)%N
  || (c =? 186)%N || between 192 214 c || between 216 246 c
  || between 248 383 c.

Definition lower_cp (c : N) : list N :=
  if between 65 90 c || between 192 214 c || between 216 222 c then [c + 32]%N
  else if (c =? 304)%N then [105; 775]%N
  else if (c =? 376)%N then [255]%N
  else if (between 256 302 c || between 306 310 c || between 330 374 c)
          && N.even c then [c + 1]%N
  else if (between 313 327 c || between 377 381 c) && N.odd c then [c + 1]%N
  else [c].

Definition upper_cp (c : N) : list N :=
  if between 97 122 c || between 224 246 c || between 248 254 c then [c - 32]%N
  else if (c =? 181)%N then [924]%N
  else if (c =? 223)%N then [83; 83]%N
  else if (c =? 255)%N then [376]%N
  else if (c =? 305)%N then [73]%N
  else if (c =? 329)%N then [700; 78]%N
  else if (c =? 383)%N then [83]%N
  else if (between 257 303 c || between 307 311 c || between 331 375 c)
          && N.odd c then [c - 1]%N
  else if (between 314 328 c || between 378 382 c) && N.even c then [c - 1]%N
  else [c].

Definition title_cp (c : N) : list N :=
  if (c =? 223)%N then [83; 115]%N else upper_cp c.

Definition lower (s : pystr) : pystr := flat_map lower_cp s.
Definition upper (s : pystr) : pystr := flat_map upper_cp s.

(** [str.title]: a character that follows a cased character is lowered,
    any other character is title-cased. *)
Fixpoint title_from (previous_is_cased : bool) (s : pystr) : pystr :=
  match s with
  | [] => []
  | c :: r =>
    (if previous_is_cased then lower_cp c else title_cp c)
      ++ title_from (is_cased c) r
  end.

Definition title (s : pystr) : pystr := title_from false s.

Lemma is_space_latin c : (c < 384)%N -> is_space c = latin_isspace c.
Proof.
  intros Hc. unfold is_space, between.
  destruct (latin_isspace c); [reflexivity|]. cbn [orb].
  repeat match goal with
         | |- context [(?a =? ?b)%N] =>
           destruct (N.eqb_spec a b); [lia|]
         | |- context [(?a <=? ?b)%N] =>
           destruct (N.leb_spec a b); [|]; try lia
         end; reflexivity.
Qed.

Lemma is_space_not_decimal c : is_space c = true -> latin_todecimal c = None.
Proof.
  unfold latin_todecimal, between.
  destruct (N.leb_spec 48 c); [|reflexivity].
  destruct (N.leb_spec c 57); [|reflexivity].
  intros Hs. exfalso. revert Hs. unfold is_space, latin_isspace, between.
  repeat match goal with
         | |- context [(?a =? ?b)%N] =>
           destruct (N.eqb_spec a b); [lia|]
         | |- context [(?a <=? ?b)%N] =>
           destruct (N.leb_spec a b); [|]; try lia
         end; cbn; discriminate.
Qed.

#[global] Instance ucd : UCD := {|
  isspace := is_space;
  isalnum := is_alnum;
  todecimal := latin_todecimal;
  str_lower := lower;
  str_upper := upper;
  str_title := title;
  isspace_latin := is_space_latin;
  todecimal_latin := fun c _ => eq_refl;
  isspace_not_decimal := is_space_not_decimal
|}.

End Latin.

(* ================================================================= *)
(** ** Dictionaries and exceptions *)

(** A [dict] literal, in insertion order: iteration follows the list,
    lookup returns the entry of the key. *)
Section Dict.
Variables (K V : Type) (eqb : K -> K -> bool).

Fixpoint dict_get (d : list (K * V)) (k : K) : option V :=
  match d with
  | [] => None
  | (k', v) :: d' => if eqb k k' then Some v else dict_get d' k
  end.

Definition dict_in (d : list (K * V)) (k : K) : bool :=
  match dict_get d k with Some _ => true | None => false end.

Definition dict_keys (d : list (K * V)) : list K := map fst d.

End Dict.

Definition pair_eqb (p q : pystr * pystr) : bool :=
  str_eqb (fst p) (fst q) && str_eqb (snd p) (snd q).

(** [ZoneInfoNotFoundError] is the [KeyError] subclass that
    [ZoneInfo(key)] raises when it finds no data for the key. *)
Inductive exn : Type :=
  ValueError | IndexError | KeyError | ZoneInfoNotFoundError.

(** The outcome of a Python call: a value or a raised exception. *)
Inductive py (A : Type) : Type :=
| Ret (a : A)
| Raise (e : exn).
Arguments Ret {A} a.
Arguments Raise {A} e.

Definition py_bind {A B} (m : py A) (k : A -> py B) : py B :=
  match m with
  | Ret a => k a
  | Raise e => Raise e
  end.

(** A list comprehension whose element expression may raise. *)
Fixpoint py_map {A B} (f : A -> py B) (l : list A) : py (list B) :=
  match l with
  | [] => Ret []
  | x :: l' => py_bind (f x) (fun y => py_bind (py_map f l') (fun ys => Ret (y :: ys)))
  end.

(* ================================================================= *)
(** ** Reference tables *)

Definition SCHEDULES : list ((pystr * pystr) * list pystr) :=
  [ ((u "Kraków", u "Łódź"), map u ["04:45"; "08:30"; "12:20"; "16:00"; "20:15"]);
    ((u "Łódź", u "Kraków"), map u ["05:10"; "09:00"; "13:45"; "18:20"]);
    ((u "Warszawa", u "Poznań"), map u ["06:00"; "07:30"; "09:00"; "11:45"; "14:30"]);
    ((u "Poznań", u "Warszawa"), map u ["05:50"; "10:10"; "13:00"; "17:25"]);
    ((u "Warszawa", u "Kraków"), map u ["05:30"; "09:40"; "15:10"; "19:00"]) ]%string.

Definition DELAYS_CITY : list (pystr * pystr) :=
  [ (u "Kraków", u "utrudnienia: w kierunku Warszawa; na odcinku Kraków - Wadowice występują objazdy.");
    (u "Łódź", u "komunikacja zastępcza na odcinku Koluszki - Skierniewice (do odwołania).");
    (u "Warszawa", u "utrudnienia w ruchu w stronę Radomia, możliwe krótkie opóźnienia.");
    (u "Poznań", u "brak ogłoszonych utrudnień.") ].

Definition DELAYS_TRAIN : list (pystr * pystr) :=
  [ (u "IC 1234", u "opóźniony o 20 minut");
    (u "TLK 4567", u "odwołany na odcinku Warszawa - Łódź");
    (u "EIP 123", u "kursuje zgodnie z rozkładem") ].

Definition TICKET_PRICES : list ((pystr * pystr) * pystr) :=
  [ ((u "Łódź", u "Kraków"), u "50 zł (standardowy)");
    ((u "Warszawa", u "Poznań"), u "80 zł (standardowy)");
    ((u "Warszawa", u "Kraków"), u "90 zł (standardowy)") ].

Definition PLATFORMS : list (pystr * pystr) :=
  [ (u "IC 1234", u "peron 5");
    (u "TLK 4567", u "peron 2");
    (u "EIP 123", u "peron 7") ].

Definition TRAIN_TYPES : list ((pystr * pystr) * pystr) :=
  [ ((u "Łódź", u "Kraków"), u "IC");
    ((u "Warszawa", u "Poznań"), u "EIP");
    ((u "Warszawa", u "Kraków"), u "EIP/IC (w zależności od kursu)") ].

Definition TRAIN_SERVICES : list (pystr * list pystr) :=
  [ (u "IC 1234", map u ["Wi-Fi"; "restauracja"; "klimatyzacja";
                         "wagon sypialny (na wybranych kursach)"]);
    (u "TLK 4567", map u ["klimatyzacja"]);
    (u "EIP 123", map u ["Wi-Fi"; "restauracja"; "przedziały 1 klasy"]) ]%string.

(** A [set] built from a list: the elements without repetition. *)
Fixpoint set_of (l : list pystr) : list pystr :=
  match l with
  | [] => []
  | x :: l' => if existsb (str_eqb x) l' then set_of l' else x :: set_of l'
  end.

(** [sorted] on strings and on integers; the order is total, so the
    result does not depend on the sorting algorithm. *)
Section Sorted.
Variables (A : Type) (ltb : A -> A -> bool).

Fixpoint insert_sorted (x : A) (l : list A) : list A :=
  match l with
  | [] => [x]
  | y :: l' => if ltb y x then y :: insert_sorted x l' else x :: l
  end.

Definition sorted (l : list A) : list A := fold_right insert_sorted [] l.

End Sorted.

(** [sorted({c for pair in list(SCHEDULES.keys()) for c in pair}
            | set(DELAYS_CITY.keys()))] *)
Definition KNOWN_CITIES : list pystr :=
  sorted str_ltb
    (set_of (flat_map (fun pair => [fst pair; snd pair]) (dict_keys SCHEDULES)
             ++ dict_keys DELAYS_CITY)).

Definition CITY_ALIASES : list (pystr * pystr) :=
  [ (u "Krakowa", u "Kraków");
    (u "Krakowie", u "Kraków");
    (u "Kraków", u "Kraków");
    (u "Krakow", u "Kraków");
    (u "Łodzi", u "Łódź");
    (u "Łódź", u "Łódź");
    (u "Lodz", u "Łódź");
    (u "Warszawy", u "Warszawa");
    (u "Warszawie", u "Warszawa");
    (u "Warszawa", u "Warszawa");
    (u "Poznania", u "Poznań");
    (u "Poznań", u "Poznań") ].

(* ================================================================= *)
(** ** Normalisation *)

Section Normalisation.
Context {U : UCD}.

(** The class [[^\w\s\-\u0100-\u017F]] *)
Definition text_junk (c : N) : bool :=
  negb (re_word c || isspace c || (c =? 45)%N || ((256 <=? c) && (c <=? 383))%N).

Definition normalize_text (text : option pystr) : option pystr :=
  match text with
  | None => None
  | Some [] => None
  | Some text =>
    let text := strip text in
    let text := re_sub_delete text_junk text in
    Some text
  end.

Definition normalize_city (raw : option pystr) : option pystr :=
  match raw with
  | None => None
  | Some [] => None
  | Some raw =>
    let raw := strip raw in
    match dict_get str_eqb CITY_ALIASES raw with
    | Some v => Some v
    | None =>
      match find (fun kv => str_eqb (str_lower (fst kv)) (str_lower raw))
                 CITY_ALIASES with
      | Some (_, v) => Some v
      | None =>
        let candidates := Difflib.get_close_matches raw KNOWN_CITIES (6 # 10) in
        match candidates with
        | c :: _ => Some c
        | [] =>
          let low := replace_char 322 108 (str_lower raw) in
          match find (fun k => str_eqb (replace_char 322 108 (str_lower k)) low)
                     KNOWN_CITIES with
          | Some k => Some k
          | None => Some (str_title raw)
          end
        end
      end
    end
  end.

(** The class [[A-ZĄĆĘŁŃÓŚŻŹ]] *)
Definition train_letter (c : N) : bool :=
  ((65 <=? c) && (c <=? 90))%N
  || existsb (N.eqb c) (u "ĄĆĘŁŃÓŚŻŹ").

Definition is_hyphen (c : N) : bool := (c =? 45)%N.

(** [([A-ZĄĆĘŁŃÓŚŻŹ]{1,4})\s*-?\s*(\d{1,5})] *)
Definition TRAIN_NUMBER_RE : list rep :=
  [ Rep train_letter 1 (Some 4);
    Rep isspace 0 None;
    Rep is_hyphen 0 (Some 1);
    Rep isspace 0 None;
    Rep isdecimal 1 (Some 5) ].

Definition normalize_train_number (raw : option pystr) : option pystr :=
  match raw with
  | None => None
  | Some [] => None
  | Some raw =>
    let raw := str_upper (strip raw) in
    match re_match TRAIN_NUMBER_RE raw with
    | Some m => Some (nth 0 m [] ++ u " " ++ nth 4 m [])
    | None => Some raw
    end
  end.

(* ================================================================= *)
(** ** Times *)

(** A reading of the clock; the fields the module uses. *)
Record datetime : Type := Datetime { hour : Z; minute : Z }.

(** What the process sees of time: [ZoneInfo] is whether
    [from zoneinfo import ZoneInfo] succeeded (lines 8-11; the name is
    [None] otherwise), [warsaw] is the outcome of
    [datetime.now(ZoneInfo("Europe/Warsaw"))], which raises
    [ZoneInfoNotFoundError] on a host without data for that zone, and
    [localtime] is what [datetime.now()] returns. *)
Record Clock : Type := {
  ZoneInfo : bool;
  warsaw : py datetime;
  localtime : datetime
}.

Definition now_warsaw (clock : Clock) : py datetime :=
  if ZoneInfo clock then warsaw clock
  else Ret (localtime clock).

(** [int(s)] in base 10, as CPython computes it.  First
    [_PyUnicode_TransformDecimalAndSpaceToASCII]: a character below 127 is
    kept, another whitespace character becomes a space, another decimal
    digit becomes its ASCII digit, and anything else becomes ['?'] and ends
    the buffer. *)
Fixpoint transform_decimal_and_space (s : pystr) : pystr :=
  match s with
  | [] => []
  | c :: r =>
    if (c <? 127)%N then c :: transform_decimal_and_space r
    else if isspace c then 32%N :: transform_decimal_and_space r
    else
      match todecimal c with
      | Some d => (48 + Z.to_N d)%N :: transform_decimal_and_space r
      | None => [63%N]
      end
  end.

(** [Py_ISSPACE]: the six ASCII whitespace characters; U+001C..U+001F are
    not among them. *)
Definition Py_ISSPACE (c : N) : bool :=
  ((c =? 32) || ((9 <=? c) && (c <=? 13)))%N.

Fixpoint skip_spaces (s : pystr) : pystr :=
  match s with
  | c :: r => if Py_ISSPACE c then skip_spaces r else s
  | [] => []
  end.

Definition ascii_digit (c : N) : option Z :=
  if ((48 <=? c) && (c <=? 57))%N then Some (Z.of_N c - 48)%Z else None.

(** The scan of [long_from_string_base]: digits, single underscores between
    them; the value, the number of digits and the rest of the buffer, or
    [None] on a doubled or trailing underscore. *)
Fixpoint scan_digits (acc : Z) (digits : N) (prev_underscore : bool) (s : pystr)
  : option (Z * N * pystr) :=
  match s with
  | [] => if prev_underscore then None else Some (acc, digits, [])
  | c :: r =>
    if (c =? 95)%N then
      if prev_underscore then None else scan_digits acc digits true r
    else
      match ascii_digit c with
      | Some v => scan_digits (acc * 10 + v) (N.succ digits) false r
      | None => if prev_underscore then None else Some (acc, digits, s)
      end
  end.

(** [sys.int_info.default_max_str_digits] *)
Definition int_max_str_digits : N := 4300.

(** [PyLong_FromString] in base 10: ASCII whitespace, an optional sign, no
    leading underscore, at least one and at most [int_max_str_digits]
    digits, ASCII whitespace, the end.  A NUL character ends the C buffer
    early, which [PyLong_FromUnicodeObject] rejects: here it is a character
    that is neither digit nor space. *)
Definition PyLong_FromString (s : pystr) : py Z :=
  let s := skip_spaces s in
  let '(sign, s) :=
    match s with
    | c :: r =>
      if (c =? 43)%N then (1%Z, r)
      else if (c =? 45)%N then ((-1)%Z, r)
      else (1%Z, s)
    | [] => (1%Z, s)
    end in
  match s with
  | [] => Raise ValueError
  | c :: _ =>
    if (c =? 95)%N then Raise ValueError
    else
      match scan_digits 0 0 false s with
      | None => Raise ValueError
      | Some (n, digits, rest) =>
        if (digits =? 0)%N then Raise ValueError
        else if (int_max_str_digits <? digits)%N then Raise ValueError
        else
          match skip_spaces rest with
          | [] => Ret (sign * n)%Z
          | _ :: _ => Raise ValueError
          end
      end
  end.

Definition int_of_str (s : pystr) : py Z :=
  PyLong_FromString (transform_decimal_and_space s).

Definition time_str_to_minutes (t : pystr) : py Z :=
  match split_char 58 t with
  | [hs; ms] =>
    py_bind (int_of_str hs) (fun h =>
    py_bind (int_of_str ms) (fun m =>
    Ret (h * 60 + m)%Z))
  | _ => Raise ValueError
  end.

End Normalisation.

Fixpoint uint_digits (d : Decimal.uint) : pystr :=
  match d with
  | Decimal.Nil => []
  | Decimal.D0 d' => 48%N :: uint_digits d'
  | Decimal.D1 d' => 49%N :: uint_digits d'
  | Decimal.D2 d' => 50%N :: uint_digits d'
  | Decimal.D3 d' => 51%N :: uint_digits d'
  | Decimal.D4 d' => 52%N :: uint_digits d'
  | Decimal.D5 d' => 53%N :: uint_digits d'
  | Decimal.D6 d' => 54%N :: uint_digits d'
  | Decimal.D7 d' => 55%N :: uint_digits d'
  | Decimal.D8 d' => 56%N :: uint_digits d'
  | Decimal.D9 d' => 57%N :: uint_digits d'
  end.

(** [f"{n:02d}"] *)
Definition format_02d (n : Z) : pystr :=
  let digits := uint_digits (N.to_uint (Z.abs_N n)) in
  if (n <? 0)%Z then 45%N :: digits
  else if (List.length digits <? 2)%nat then 48%N :: digits
  else digits.

Definition minutes_to_time_str (m : Z) : pystr :=
  let h := ((m / 60) mod 24)%Z in
  let mm := (m mod 60)%Z in
  format_02d h ++ u ":" ++ format_02d mm.

Section NextTrain.
Context {U : UCD}.

(** Line 130 reads the clock before line 132 reads the entries. *)
Definition find_next_train (clock : Clock) (trains : option (list pystr))
  : py (option pystr) :=
  match trains with
  | None => Ret None
  | Some [] => Ret None
  | Some trains =>
    py_bind (now_warsaw clock) (fun now =>
    let current_min := (hour now * 60 + minute now)%Z in
    py_bind (py_map time_str_to_minutes trains) (fun mins =>
    let mins := sorted Z.ltb mins in
    match find (fun m => (current_min <=? m)%Z) mins with
    | Some m => Ret (Some (minutes_to_time_str m))
    | None =>
      match mins with
      | m0 :: _ => Ret (Some (minutes_to_time_str m0))
      | [] => Raise IndexError
      end
    end))
  end.

End NextTrain.

(* ================================================================= *)
(** ** The tracker and the dispatcher *)

(** An entry of [latest_message["entities"]]: [ent.get("entity")] and
    [ent.get("value")]. *)
Record Entity : Type := { ent_entity : option pystr; ent_value : option pystr }.

(** The view of the conversation an action receives: the slots, and the
    intent name and the entities of the latest message.  Slot and entity
    values are text. *)
Record Tracker : Type := {
  slots : list (pystr * option pystr);
  intent_name : option pystr;
  entities : list Entity
}.

(** [tracker.get_slot(key)]: [None] for an unknown slot. *)
Definition get_slot (tr : Tracker) (key : pystr) : option pystr :=
  match dict_get str_eqb (slots tr) key with
  | Some v => v
  | None => None
  end.

(** [next(tracker.get_latest_entity_values(entity_type), None)] *)
Definition is_entity (name : pystr) (ent : Entity) : bool :=
  match ent_entity ent with
  | Some e => str_eqb e name
  | None => false
  end.

Definition first_entity_value (tr : Tracker) (entity_type : pystr)
  : option pystr :=
  match filter (is_entity entity_type) (entities tr) with
  | ent :: _ => ent_value ent
  | [] => None
  end.

(** The events an action may return to change the conversation state. *)
Inductive Event : Type := SlotSet (key : pystr) (value : option pystr).

(** An action runs against the dispatcher: it appends messages to the
    ones collected so far and ends with a value or an exception. *)
Definition Run (A : Type) : Type := list pystr -> py A * list pystr.

Definition ret {A} (a : A) : Run A := fun out => (Ret a, out).

Definition bind {A B} (m : Run A) (k : A -> Run B) : Run B :=
  fun out =>
    match m out with
    | (Ret a, out') => k a out'
    | (Raise e, out') => (Raise e, out')
    end.

Definition lift {A} (m : py A) : Run A := fun out => (m, out).

(** [dispatcher.utter_message(text=...)] *)
Definition utter_message (text : pystr) : Run unit :=
  fun out => (Ret tt, out ++ [text]).

Declare Scope run_scope.
Delimit Scope run_scope with run.
Notation "x <- m ;; k" := (bind m (fun x => k))
  (at level 61, m at next level, right associativity) : run_scope.
Notation "m ;; k" := (bind m (fun _ => k))
  (at level 61, right associativity) : run_scope.

(** [ent.get("entity") == name and not cur], then [cur = ent.get("value")] *)
Definition fill (name : pystr) (ent : Entity) (cur : option pystr)
  : option pystr :=
  if is_entity name ent && negb (truthy cur) then ent_value ent else cur.

(** [a or b] *)
Definition py_or (a b : option pystr) : option pystr :=
  if truthy a then a else b.

(** [intent in (n1, n2, ...)] *)
Definition intent_in (intent : option pystr) (names : list pystr) : bool :=
  match intent with
  | Some i => existsb (str_eqb i) names
  | None => false
  end.

(** A value inside an f-string. *)
Definition fmt (o : option pystr) : pystr :=
  match o with
  | Some s => s
  | None => u "None"
  end.

(* ================================================================= *)
(** ** The actions *)

Section Actions.
Context {U : UCD}.
Local Open Scope run_scope.

(** [normalize_city(normalize_text(x)) if x else None] *)
Definition city_of (x : option pystr) : option pystr :=
  if truthy x then normalize_city (normalize_text x) else None.

(** [normalize_train_number(x) if x else None] *)
Definition train_of (x : option pystr) : option pystr :=
  if truthy x then normalize_train_number x else None.

(** Lines 143-156: the slots, else the entities of the latest message,
    normalised. *)
Definition schedule_cities (tr : Tracker) : option pystr * option pystr :=
  let departure := get_slot tr (u "departure_city") in
  let arrival := get_slot tr (u "arrival_city") in
  let '(departure, arrival) :=
    fold_left
      (fun '(departure, arrival) ent =>
         let departure := fill (u "departure_city") ent departure in
         let arrival := fill (u "arrival_city") ent arrival in
         let departure := fill (u "from_city") ent departure in
         let arrival := fill (u "to_city") ent arrival in
         (departure, arrival))
      (entities tr) (departure, arrival) in
  (city_of departure, city_of arrival).

Definition ActionShowSchedule_run (clock : Clock) (tr : Tracker)
  : Run (list Event) :=
  match schedule_cities tr with
  | (Some ((_ :: _) as departure), Some ((_ :: _) as arrival)) =>
    let key := (departure, arrival) in
    match dict_get pair_eqb SCHEDULES key with
    | None =>
      let reverse := (arrival, departure) in
      if dict_in pair_eqb SCHEDULES reverse then
        utter_message
          (u "Rozkład jest dostępny w odwrotną stronę (" ++ arrival ++ u " → "
             ++ departure ++ u "). Czy o to chodziło?") ;;
        ret []
      else
        let alternatives :=
          filter (fun k => str_eqb (str_lower (fst k)) (str_lower departure)
                           || str_eqb (str_lower (snd k)) (str_lower arrival))
                 (dict_keys SCHEDULES) in
        match alternatives with
        | sample :: _ =>
          times <- lift (match dict_get pair_eqb SCHEDULES sample with
                         | Some times => Ret times
                         | None => Raise KeyError
                         end) ;;
          utter_message
            (u "Nie mam rozkładu dla trasy " ++ departure ++ u " → " ++ arrival
               ++ u ", ale mam informacje dla trasy " ++ fst sample ++ u " → "
               ++ snd sample ++ u ": " ++ join (u ", ") times ++ u ".") ;;
          ret []
        | [] =>
          utter_message
            (u "Niestety nie mam rozkładu dla trasy " ++ departure ++ u " → "
               ++ arrival ++ u ".") ;;
          ret []
        end
    | Some trains =>
      let intent := intent_name tr in
      if intent_in intent [u "ask_schedule_next"; u "ask_schedule"] then
        next_train <- lift (find_next_train clock (Some trains)) ;;
        utter_message
          (u "Najbliższy pociąg z " ++ departure ++ u " do " ++ arrival
             ++ u " odjeżdża o " ++ fmt next_train ++ u ".") ;;
        ret []
      else if intent_in intent [u "ask_schedule_all"]
              || intent_in intent [u "ask_schedule_connection"] then
        utter_message
          (u "Wszystkie dostępne odjazdy z " ++ departure ++ u " do " ++ arrival
             ++ u ": " ++ join (u ", ") trains ++ u ".") ;;
        ret []
      else
        next_train <- lift (find_next_train clock (Some trains)) ;;
        utter_message
          (u "Połączenia z " ++ departure ++ u " do " ++ arrival ++ u ": "
             ++ join (u ", ") trains ++ u ". Najbliższy: " ++ fmt next_train
             ++ u ".") ;;
        ret []
    end
  | _ =>
    utter_message
      (u "Podaj proszę miasto początkowe i docelowe (np. 'z Łodzi do Krakowa').") ;;
    ret []
  end.

(** Lines 195-204. *)
Definition delay_inputs (tr : Tracker) : option pystr * option pystr :=
  let delay_city := get_slot tr (u "delay_city") in
  let train_number := get_slot tr (u "train_number") in
  let '(delay_city, train_number) :=
    fold_left
      (fun '(delay_city, train_number) ent =>
         let delay_city := fill (u "delay_city") ent delay_city in
         let train_number := fill (u "train_number") ent train_number in
         (delay_city, train_number))
      (entities tr) (delay_city, train_number) in
  (city_of delay_city, train_of train_number).

Definition ActionShowDelay_run (clock : Clock) (tr : Tracker)
  : Run (list Event) :=
  let intent := intent_name tr in
  let '(delay_city, train_number) := delay_inputs tr in
  if intent_in intent [u "ask_delay_city"; u "ask_delay"] then
    if negb (truthy delay_city) then
      utter_message
        (u "Podaj proszę miasto, z którego chcesz sprawdzić opóźnienia (np. 'opóźnienia z Krakowa').") ;;
      ret []
    else
      let info := dict_get str_eqb DELAYS_CITY (fmt delay_city) in
      (if truthy info then
         utter_message
           (u "Aktualne informacje dla " ++ fmt delay_city ++ u ": " ++ fmt info
              ++ u ".")
       else
         utter_message
           (u "Brak informacji o opóźnieniach w " ++ fmt delay_city ++ u ".")) ;;
      ret []
  else if intent_in intent [u "ask_delay_train"] then
    if negb (truthy train_number) then
      utter_message (u "Podaj proszę numer pociągu (np. 'IC 1234').") ;;
      ret []
    else
      let info := dict_get str_eqb DELAYS_TRAIN (fmt train_number) in
      (if truthy info then
         utter_message
           (u "Pociąg " ++ fmt train_number ++ u ": " ++ fmt info ++ u ".")
       else
         utter_message
           (u "Brak informacji o opóźnieniach dla pociągu " ++ fmt train_number
              ++ u ".")) ;;
      ret []
  else
    let by_city :=
      if truthy delay_city
      then dict_get str_eqb DELAYS_CITY (fmt delay_city) else None in
    if truthy by_city then
      utter_message
        (u "Aktualnie dla " ++ fmt delay_city ++ u ": " ++ fmt by_city ++ u ".") ;;
      ret []
    else
      let by_train :=
        if truthy train_number
        then dict_get str_eqb DELAYS_TRAIN (fmt train_number) else None in
      if truthy by_train then
        utter_message
          (u "Pociąg " ++ fmt train_number ++ u ": " ++ fmt by_train ++ u ".") ;;
        ret []
      else
        utter_message
          (u "Nie rozumiem — podaj proszę miasto lub numer pociągu, którego dotyczy zapytanie o opóźnienia.") ;;
        ret [].

Definition ActionCheckSchedule_run (clock : Clock) (tr : Tracker)
  : Run (list Event) :=
  let from_city :=
    py_or (first_entity_value tr (u "from_city"))
          (get_slot tr (u "departure_city")) in
  let to_city :=
    py_or (first_entity_value tr (u "to_city"))
          (get_slot tr (u "arrival_city")) in
  if negb (truthy from_city) || negb (truthy to_city) then
    utter_message (u "Podaj proszę miasto początkowe i docelowe.") ;;
    ret []
  else
    utter_message
      (u "Sprawdzam rozkład jazdy z " ++ fmt from_city ++ u " do " ++ fmt to_city
         ++ u "...") ;;
    utter_message
      (u "Najbliższy pociąg z " ++ fmt from_city ++ u " do " ++ fmt to_city
         ++ u " odjeżdża o 12:45 🚆") ;;
    ret [].

(** Lines 261-270 and 308-316: as for the schedule, without the
    [from_city] and [to_city] entities. *)
Definition route_cities (tr : Tracker) : option pystr * option pystr :=
  let departure := get_slot tr (u "departure_city") in
  let arrival := get_slot tr (u "arrival_city") in
  let '(departure, arrival) :=
    fold_left
      (fun '(departure, arrival) ent =>
         let departure := fill (u "departure_city") ent departure in
         let arrival := fill (u "arrival_city") ent arrival in
         (departure, arrival))
      (entities tr) (departure, arrival) in
  (city_of departure, city_of arrival).

Definition ActionShowTicketPrice_run (clock : Clock) (tr : Tracker)
  : Run (list Event) :=
  match route_cities tr with
  | (Some ((_ :: _) as departure), Some ((_ :: _) as arrival)) =>
    let price :=
      py_or (dict_get pair_eqb TICKET_PRICES (departure, arrival))
            (dict_get pair_eqb TICKET_PRICES (arrival, departure)) in
    (if truthy price then
       utter_message
         (u "Cena biletu z " ++ departure ++ u " do " ++ arrival ++ u ": "
            ++ fmt price ++ u ".")
     else
       utter_message
         (u "Brak danych o cenie biletu dla trasy " ++ departure ++ u " → "
            ++ arrival
            ++ u ". Możesz spróbować innych wariantów (np. różni przewoźnicy).")) ;;
    ret []
  | _ =>
    utter_message
      (u "Podaj miasta początkowe i docelowe, np. 'ile kosztuje bilet z Łodzi do Krakowa'.") ;;
    ret []
  end.

(** Lines 288-292 and 332-336. *)
Definition train_input (tr : Tracker) : option pystr :=
  let train_number := get_slot tr (u "train_number") in
  let train_number :=
    fold_left (fun train_number ent => fill (u "train_number") ent train_number)
              (entities tr) train_number in
  train_of train_number.

Definition ActionShowPlatform_run (clock : Clock) (tr : Tracker)
  : Run (list Event) :=
  let train_number := train_input tr in
  if negb (truthy train_number) then
    utter_message (u "Podaj numer pociągu, np. 'IC 1234'.") ;;
    ret []
  else
    let platform := dict_get str_eqb PLATFORMS (fmt train_number) in
    (if truthy platform then
       utter_message
         (u "Pociąg " ++ fmt train_number ++ u " odjeżdża z " ++ fmt platform
            ++ u ".")
     else
       utter_message
         (u "Brak danych o peronie dla pociągu " ++ fmt train_number ++ u ".")) ;;
    ret [].

Definition ActionShowTrainType_run (clock : Clock) (tr : Tracker)
  : Run (list Event) :=
  match route_cities tr with
  | (Some ((_ :: _) as departure), Some ((_ :: _) as arrival)) =>
    let train_type := dict_get pair_eqb TRAIN_TYPES (departure, arrival) in
    (if truthy train_type then
       utter_message
         (u "Na trasie " ++ departure ++ u " → " ++ arrival
            ++ u " kursuje pociąg typu: " ++ fmt train_type ++ u ".")
     else
       utter_message
         (u "Brak danych o typie pociągu na trasie " ++ departure ++ u " → "
            ++ arrival ++ u ".")) ;;
    ret []
  | _ =>
    utter_message
      (u "Podaj miasta początkowe i docelowe, np. 'jaki typ pociągu z Łodzi do Krakowa'.") ;;
    ret []
  end.

Definition ActionShowServices_run (clock : Clock) (tr : Tracker)
  : Run (list Event) :=
  let train_number := train_input tr in
  if negb (truthy train_number) then
    utter_message
      (u "Podaj numer pociągu, np. 'IC 1234', abym mógł sprawdzić usługi.") ;;
    ret []
  else
    let services :=
      match dict_get str_eqb TRAIN_SERVICES (fmt train_number) with
      | Some l => l
      | None => []
      end in
    (match services with
     | _ :: _ =>
       utter_message
         (u "Pociąg " ++ fmt train_number ++ u " oferuje: "
            ++ join (u ", ") services ++ u ".")
     | [] =>
       utter_message
         (u "Brak informacji o usługach w pociągu " ++ fmt train_number ++ u ".")
     end) ;;
    ret [].

(** The actions by their [name()]. *)
Inductive ActionName : Type :=
| action_show_schedule
| action_show_delay
| action_check_schedule
| action_show_ticket_price
| action_show_platform
| action_show_train_type
| action_show_services.

Definition run (a : ActionName) : Clock -> Tracker -> Run (list Event) :=
  match a with
  | action_show_schedule => ActionShowSchedule_run
  | action_show_delay => ActionShowDelay_run
  | action_check_schedule => ActionCheckSchedule_run
  | action_show_ticket_price => ActionShowTicketPrice_run
  | action_show_platform => ActionShowPlatform_run
  | action_show_train_type => ActionShowTrainType_run
  | action_show_services => ActionShowServices_run
  end.

(** A call of an action by the action server: a fresh dispatcher. *)
Definition call (a : ActionName) (clock : Clock) (tr : Tracker)
  : py (list Event) * list pystr :=
  run a clock tr [].

End Actions.

(* ================================================================= *)
(** * Properties *)

(** ** Strings and dictionaries *)

Lemma str_eqb_spec (s t : pystr) : reflect (s = t) (str_eqb s t).
Proof.
  revert t. induction s as [|c s IH]; intros [|d t]; cbn;
    try (constructor; congruence).
  destruct (N.eqb_spec c d) as [->|Hcd]; cbn.
  - destruct (IH t) as [->|Hst]; constructor; congruence.
  - constructor; congruence.
Qed.

Lemma str_eqb_eq (s t : pystr) : str_eqb s t = true <-> s = t.
Proof. destruct (str_eqb_spec s t); split; congruence. Qed.

Lemma str_eqb_refl (s : pystr) : str_eqb s s = true.
Proof. now apply str_eqb_eq. Qed.

Lemma pair_eqb_eq (p q : pystr * pystr) : pair_eqb p q = true <-> p = q.
Proof.
  destruct p as [a b], q as [c d]. unfold pair_eqb. cbn.
  rewrite andb_true_iff, !str_eqb_eq. split; [intros [-> ->]|intros [= -> ->]]; auto.
Qed.

Lemma truthy_cons (s : pystr) : s <> [] -> truthy (Some s) = true.
Proof. destruct s; [congruence | reflexivity]. Qed.

Lemma truthy_some (o : option pystr) :
  truthy o = true -> exists c s, o = Some (c :: s).
Proof. destruct o as [[|c s]|]; try discriminate. eauto. Qed.

Section DictFacts.
Variables (K V : Type) (eqb : K -> K -> bool).
Hypothesis eqb_eq : forall a b, eqb a b = true <-> a = b.

Lemma dict_get_in (d : list (K * V)) k v :
  dict_get eqb d k = Some v -> In (k, v) d.
Proof.
  induction d as [|[k' v'] d IH]; cbn; [discriminate|].
  destruct (eqb k k') eqn:E.
  - apply eqb_eq in E. intros [= ->]. subst. now left.
  - intros H. right. now apply IH.
Qed.

Lemma dict_get_key (d : list (K * V)) k :
  In k (dict_keys d) -> exists v, dict_get eqb d k = Some v.
Proof.
  induction d as [|[k' v'] d IH]; cbn; [tauto|].
  intros [->|H].
  - assert (eqb k k = true) as -> by now apply eqb_eq. eauto.
  - destruct (eqb k k'); eauto.
Qed.

Lemma dict_get_none (d : list (K * V)) k :
  dict_get eqb d k = None -> forall v, ~ In (k, v) d.
Proof.
  induction d as [|[k' v'] d IH]; cbn; [tauto|].
  destruct (eqb k k') eqn:E; [discriminate|].
  intros H v [[= -> ->]|Hin].
  - assert (eqb k k = true) by now apply eqb_eq. congruence.
  - now apply (IH H v).
Qed.

End DictFacts.

(** ** Stripping *)

Section StripFacts.
Context {U : UCD}.

Lemma lstrip_incl s c : In c (lstrip s) -> In c s.
Proof.
  induction s as [|d s IH]; cbn; [tauto|].
  destruct (isspace d); cbn; intuition.
Qed.

Lemma strip_incl s c : In c (strip s) -> In c s.
Proof.
  unfold strip, rstrip. intros H.
  apply in_rev, lstrip_incl, in_rev in H. now apply lstrip_incl.
Qed.

Lemma lstrip_spaces s : Forall (fun c => isspace c = true) s -> lstrip s = [].
Proof. induction 1 as [|c s Hc _ IH]; cbn; [|rewrite Hc]; auto. Qed.

Lemma strip_spaces s : Forall (fun c => isspace c = true) s -> strip s = [].
Proof. intros H. unfold strip, rstrip. now rewrite (lstrip_spaces H). Qed.

Lemma lstrip_nonspace c s : isspace c = false -> lstrip (c :: s) = c :: s.
Proof. cbn. now intros ->. Qed.

Lemma lstrip_app_nonspace s c : isspace c = false -> lstrip (s ++ [c]) <> [].
Proof.
  intros Hc. induction s as [|d s IH]; cbn.
  - now rewrite Hc.
  - destruct (isspace d); [exact IH | discriminate].
Qed.

End StripFacts.

(* ================================================================= *)
(** ** [normalize_text] *)

Section NormalizeText.
Context {U : UCD}.

Lemma re_sub_delete_all cls s :
  Forall (fun c => cls c = true) s -> re_sub_delete cls s = [].
Proof.
  induction 1 as [|c s Hc _ IH]; cbn; [reflexivity|]. now rewrite Hc.
Qed.

Lemma strip_junk text :
  Forall (fun c => text_junk c = true) text ->
  Forall (fun c => text_junk c = true) (strip text).
Proof.
  rewrite !Forall_forall. intros H c Hc. apply H. now apply strip_incl.
Qed.

Lemma normalize_text_present c text :
  normalize_text (Some (c :: text))
  = Some (re_sub_delete text_junk (strip (c :: text))).
Proof. reflexivity. Qed.

(** C10.  A non-empty text of which cleaning leaves nothing, because it is
    all whitespace, or all characters outside the allowed set, or because
    what is left after stripping is outside the allowed set, is normalised
    to the empty string, which is present; [normalize_text] is absent only
    for the absent and for the empty input. *)
Theorem normalize_text_cleaned_out_is_empty :
  (forall text : pystr,
      text <> [] ->
      Forall (fun c => isspace c = true) text
      \/ Forall (fun c => text_junk c = true) text
      \/ Forall (fun c => text_junk c = true) (strip text) ->
      normalize_text (Some text) = Some [])
  /\ (forall text : option pystr,
         normalize_text text = None <-> text = None \/ text = Some []).
Proof.
  split.
  - intros [|c text] Hne H; [congruence|].
    rewrite normalize_text_present. f_equal.
    destruct H as [H|[H|H]].
    + now rewrite (strip_spaces H).
    + now apply re_sub_delete_all, strip_junk.
    + now apply re_sub_delete_all.
  - intros [[|c text]|]; cbn; split; auto; try discriminate.
    intros [H|H]; discriminate.
Qed.

End NormalizeText.

Lemma normalize_text_cleaned_out_is_empty_witness :
  normalize_text (Some (u " ")) = Some []
  /\ normalize_text (Some (u "?!")) = Some [].
Proof.
  split; apply (proj1 (normalize_text_cleaned_out_is_empty (U := Latin.ucd))).
  - vm_compute. discriminate.
  - left. vm_compute. repeat constructor.
  - vm_compute. discriminate.
  - right. left. vm_compute. repeat constructor.
Defined.

(* ================================================================= *)
(** ** The alias table *)

Definition in_lookup_tables (city : pystr) : Prop :=
  (exists pair, In pair (dict_keys SCHEDULES)
                /\ (fst pair = city \/ snd pair = city))
  \/ In city (dict_keys DELAYS_CITY).

Definition in_lookup_tablesb (city : pystr) : bool :=
  existsb (fun pair => str_eqb (fst pair) city || str_eqb (snd pair) city)
          (dict_keys SCHEDULES)
  || existsb (str_eqb city) (dict_keys DELAYS_CITY).

Lemma in_lookup_tablesb_true city :
  in_lookup_tablesb city = true -> in_lookup_tables city.
Proof.
  unfold in_lookup_tablesb, in_lookup_tables.
  rewrite orb_true_iff, !existsb_exists.
  intros [(pair & Hin & H)|(c & Hin & H)].
  - left. exists pair. split; [exact Hin|].
    apply orb_true_iff in H. now rewrite !str_eqb_eq in H.
  - right. apply str_eqb_eq in H. now subst.
Qed.

(** C9.  Every canonical name that is a value of [CITY_ALIASES] is a member
    of a key pair of [SCHEDULES] or a key of [DELAYS_CITY]. *)
Theorem alias_values_in_lookup_tables :
  Forall (fun alias => in_lookup_tables (snd alias)) CITY_ALIASES.
Proof.
  apply Forall_forall. intros alias Hin.
  apply in_lookup_tablesb_true.
  assert (forallb (fun alias => in_lookup_tablesb (snd alias)) CITY_ALIASES
          = true) as Hall by (vm_compute; reflexivity).
  rewrite forallb_forall in Hall. now apply Hall.
Qed.

Lemma KNOWN_CITIES_eq :
  KNOWN_CITIES = [u "Kraków"; u "Poznań"; u "Warszawa"; u "Łódź"].
Proof. vm_compute. reflexivity. Qed.

(* ================================================================= *)
(** ** The order on strings and on scored candidates *)

Lemma str_ltb_irrefl s : str_ltb s s = false.
Proof.
  induction s as [|c s IH]; cbn; [reflexivity|].
  now rewrite N.ltb_irrefl, N.eqb_refl, IH.
Qed.

Lemma str_ltb_trans s t w :
  str_ltb s t = true -> str_ltb t w = true -> str_ltb s w = true.
Proof.
  revert t w. induction s as [|c s IH]; intros [|d t] [|e w]; cbn;
    try discriminate; auto.
  rewrite !orb_true_iff, !andb_true_iff, !N.ltb_lt, !N.eqb_eq.
  intros [H1|[H1 H2]] [H3|[H3 H4]]; subst; auto.
  - left. lia.
  - right. split; [reflexivity|]. now apply (IH t w).
Qed.

Lemma str_ltb_total s t :
  str_ltb s t = false -> str_ltb t s = false -> s = t.
Proof.
  revert t. induction s as [|c s IH]; intros [|d t]; cbn;
    try discriminate; auto.
  rewrite !orb_false_iff, !andb_false_iff, !N.ltb_ge, !N.eqb_neq.
  intros [H1 H2] [H3 H4].
  assert (c = d) as -> by lia. f_equal. apply IH.
  - destruct H2; [congruence|assumption].
  - destruct H4; [congruence|assumption].
Qed.

Lemma str_ltb_asym s t : str_ltb s t = true -> str_ltb t s = false.
Proof.
  intros H. destruct (str_ltb t s) eqn:E; [|reflexivity].
  pose proof (str_ltb_trans _ _ _ H E) as Hss.
  now rewrite str_ltb_irrefl in Hss.
Qed.

Lemma str_leb_trans s t w :
  str_ltb t s = false -> str_ltb w t = false -> str_ltb w s = false.
Proof.
  intros H1 H2. destruct (str_ltb w s) eqn:E; [|reflexivity].
  destruct (str_ltb s t) eqn:E1.
  - pose proof (str_ltb_trans _ _ _ E E1). congruence.
  - assert (s = t) by now apply str_ltb_total. subst. congruence.
Qed.

Module DifflibFacts.
Import Difflib.

(** [p <= q] on scored candidates: [p > q] does not hold. *)
Definition scored_le (p q : Q * pystr) : Prop := scored_gtb p q = false.

Lemma scored_le_iff p q :
  scored_le p q <->
  (fst p < fst q)%Q \/ ((fst p == fst q)%Q /\ str_ltb (snd q) (snd p) = false).
Proof.
  unfold scored_le, scored_gtb.
  rewrite orb_false_iff, negb_false_iff, andb_false_iff, Qle_bool_iff.
  destruct (Qeq_bool (fst p) (fst q)) eqn:E.
  - apply Qeq_bool_iff in E. split.
    + intros [_ [H|H]]; [discriminate|]. right. split; assumption.
    + intros [H|[_ H]]; [rewrite E in H; exfalso; eapply Qlt_irrefl; eassumption|].
      split; [rewrite E; apply Qle_refl | now right].
  - apply Qeq_bool_neq in E. split.
    + intros [H _]. left. apply Qle_lteq in H. tauto.
    + intros [H|[H _]]; [|contradiction].
      split; [now apply Qlt_le_weak | now left].
Qed.

Lemma scored_le_refl p : scored_le p p.
Proof.
  apply scored_le_iff. right. split; [reflexivity | apply str_ltb_irrefl].
Qed.

Lemma scored_le_trans p q r : scored_le p q -> scored_le q r -> scored_le p r.
Proof.
  rewrite !scored_le_iff. intros [H1|[H1 H2]] [H3|[H3 H4]].
  - left. eapply Qlt_trans; eassumption.
  - left. now rewrite <- H3.
  - left. now rewrite H1.
  - right. split; [now rewrite H1|]. eapply str_leb_trans; eassumption.
Qed.

Lemma scored_gtb_le p q : scored_gtb p q = true -> scored_le q p.
Proof.
  intros H. apply scored_le_iff. unfold scored_gtb in H.
  apply orb_true_iff in H. destruct H as [H|H].
  - left. apply negb_true_iff in H. apply Qnot_le_lt. intros Hle.
    apply Qle_bool_iff in Hle. congruence.
  - apply andb_true_iff in H. destruct H as [H1 H2]. apply Qeq_bool_iff in H1.
    right. split; [now symmetry | now apply str_ltb_asym].
Qed.

Lemma scored_le_antisym p q :
  scored_le p q -> scored_le q p -> snd p = snd q.
Proof.
  rewrite !scored_le_iff. intros [H1|[H1 H2]] [H3|[H3 H4]].
  - exfalso. apply (Qlt_irrefl (fst p)). eapply Qlt_trans; eassumption.
  - exfalso. rewrite H3 in H1. now apply (Qlt_irrefl (fst p)).
  - exfalso. rewrite H1 in H3. now apply (Qlt_irrefl (fst q)).
  - now apply str_ltb_total.
Qed.

Lemma max_from_in best l : In (max_from best l) (best :: l).
Proof.
  revert best. induction l as [|item l IH]; intros best; cbn; [auto|].
  destruct (IH (if scored_gtb item best then item else best)) as [H|H]; auto.
  rewrite <- H. destruct (scored_gtb item best); auto.
Qed.

Lemma max_from_greatest best l x :
  In x (best :: l) -> scored_le x (max_from best l).
Proof.
  revert best x. induction l as [|item l IH]; intros best x.
  - intros [->|[]]. apply scored_le_refl.
  - cbn [max_from]. set (best' := if scored_gtb item best then item else best).
    assert (scored_le best best' /\ scored_le item best') as [Hb Hi].
    { subst best'. destruct (scored_gtb item best) eqn:E.
      - split; [now apply scored_gtb_le | apply scored_le_refl].
      - split; [apply scored_le_refl | exact E]. }
    intros [->|[->|Hin]].
    + eapply scored_le_trans; [exact Hb|]. apply IH. now left.
    + eapply scored_le_trans; [exact Hi|]. apply IH. now left.
    + apply IH. now right.
Qed.

(** What [get_close_matches] returns: at most one candidate, which passes
    the cutoff and is the greatest of the passing candidates in the order
    on [(ratio, candidate)]. *)
Lemma get_close_matches_cons word ps cutoff c rest :
  get_close_matches word ps cutoff = c :: rest ->
  rest = []
  /\ In c ps
  /\ passes cutoff word c = true
  /\ forall x, In x ps -> passes cutoff word x = true ->
               scored_le (ratio x word, x) (ratio c word, c).
Proof.
  unfold get_close_matches.
  set (result := flat_map _ ps).
  assert (Hres : forall p, In p result <->
                 exists x, In x ps /\ passes cutoff word x = true
                           /\ p = (ratio x word, x)).
  { intros p. subst result. rewrite in_flat_map. split.
    - intros (x & Hx & Hp). exists x. destruct (passes cutoff word x).
      + destruct Hp as [<-|[]]. auto.
      + destruct Hp.
    - intros (x & Hx & Hpass & ->). exists x. rewrite Hpass. cbn. auto. }
  destruct result as [|p0 l] eqn:E; cbn; [discriminate|].
  intros [= <- <-]. split; [reflexivity|].
  destruct (proj1 (Hres (max_from p0 l)) (max_from_in p0 l))
    as (y & Hy & Hpass & Hmax).
  rewrite Hmax. cbn. repeat split; auto.
  intros x Hx Hxp. rewrite <- Hmax. apply max_from_greatest.
  apply Hres. eauto.
Qed.

Lemma get_close_matches_nil word ps cutoff :
  get_close_matches word ps cutoff = [] ->
  forall x, In x ps -> passes cutoff word x = false.
Proof.
  unfold get_close_matches. intros H x Hx.
  destruct (passes cutoff word x) eqn:E; [|reflexivity].
  exfalso.
  assert (In (ratio x word, x)
             (flat_map (fun x => if passes cutoff word x
                                 then [(ratio x word, x)] else []) ps)) as Hin.
  { apply in_flat_map. exists x. rewrite E. cbn. auto. }
  destruct (flat_map _ ps); [destruct Hin | discriminate].
Qed.

End DifflibFacts.

(* ================================================================= *)
(** ** [normalize_city] *)

(** The first element of a list with a property, as a [for] loop that
    returns on its first hit finds it. *)
Inductive first_such {A : Type} (P : A -> Prop) : list A -> A -> Prop :=
| first_here x l : P x -> first_such P (x :: l) x
| first_later x y l : ~ P x -> first_such P l y -> first_such P (x :: l) y.

Lemma find_first_such {A} (f : A -> bool) (P : A -> Prop) l x :
  (forall a, f a = true <-> P a) -> find f l = Some x -> first_such P l x.
Proof.
  intros HfP. induction l as [|a l IH]; cbn; [discriminate|].
  destruct (f a) eqn:E.
  - intros [= ->]. constructor. now apply HfP.
  - intros H. constructor 2; [|now apply IH].
    rewrite <- HfP. congruence.
Qed.

Lemma find_none_such {A} (f : A -> bool) (P : A -> Prop) l :
  (forall a, f a = true <-> P a) -> find f l = None ->
  forall a, In a l -> ~ P a.
Proof.
  intros HfP H a Hin HP. apply HfP in HP.
  pose proof (find_none f l H a Hin). congruence.
Qed.

Lemma first_such_in {A} (P : A -> Prop) l x :
  first_such P l x -> In x l /\ P x.
Proof. induction 1; cbn; tauto. Qed.

Lemma first_such_functional {A} (P : A -> Prop) l x y :
  first_such P l x -> first_such P l y -> x = y.
Proof.
  induction 1 as [x l Hx|x z l Hx Hz IH]; inversion 1; subst;
    auto; contradiction.
Qed.

Lemma alias_keys_unique k v :
  In (k, v) CITY_ALIASES -> dict_get str_eqb CITY_ALIASES k = Some v.
Proof.
  intros H. vm_compute in H.
  repeat (destruct H as [H|H]; [injection H as <- <-; vm_compute; reflexivity|]).
  destruct H.
Qed.

Section NormalizeCity.
Context {U : UCD}.

(** Equal without regard to case; equal after [lower] and the replacement
    of U+0142 by [l]. *)
Definition caseless_eq (k r : pystr) : Prop := str_lower k = str_lower r.

Definition fold_l (s : pystr) : pystr := replace_char 322 108 (str_lower s).

(** A known city is close to [r] when it passes the cutoff 0.6 of
    [get_close_matches]; the best one is the greatest by ratio, then by
    name. *)
Definition close_match (r x : pystr) : Prop :=
  Difflib.passes (6 # 10) r x = true.

Definition best_fuzzy (r c : pystr) : Prop :=
  In c KNOWN_CITIES
  /\ close_match r c
  /\ forall x, In x KNOWN_CITIES -> close_match r x ->
               DifflibFacts.scored_le (Difflib.ratio x r, x) (Difflib.ratio c r, c).

Definition no_exact (r : pystr) : Prop := forall v, ~ In (r, v) CITY_ALIASES.

Definition no_caseless (r : pystr) : Prop :=
  forall alias, In alias CITY_ALIASES -> ~ caseless_eq (fst alias) r.

Definition no_fuzzy (r : pystr) : Prop :=
  forall x, In x KNOWN_CITIES -> ~ close_match r x.

Definition no_folded (r : pystr) : Prop :=
  forall k, In k KNOWN_CITIES -> fold_l k <> fold_l r.

(** The resolution chain: the result of the first step that applies. *)
Inductive city_chain (r : pystr) : pystr -> Prop :=
| chain_exact v :
    In (r, v) CITY_ALIASES -> city_chain r v
| chain_caseless alias :
    no_exact r ->
    first_such (fun alias => caseless_eq (fst alias) r) CITY_ALIASES alias ->
    city_chain r (snd alias)
| chain_fuzzy c :
    no_exact r -> no_caseless r ->
    best_fuzzy r c -> city_chain r c
| chain_folded k :
    no_exact r -> no_caseless r -> no_fuzzy r ->
    first_such (fun k => fold_l k = fold_l r) KNOWN_CITIES k ->
    city_chain r k
| chain_title :
    no_exact r -> no_caseless r -> no_fuzzy r -> no_folded r ->
    city_chain r (str_title r).

Lemma best_fuzzy_unique r c c' : best_fuzzy r c -> best_fuzzy r c' -> c = c'.
Proof.
  intros (Hin & Hc & Hbest) (Hin' & Hc' & Hbest').
  apply (@DifflibFacts.scored_le_antisym (Difflib.ratio c r, c)
                                         (Difflib.ratio c' r, c')); auto.
Qed.

Lemma city_chain_functional r v v' : city_chain r v -> city_chain r v' -> v = v'.
Proof.
  intros H H'.
  destruct H as [v Hv|alias Hne Hal|c Hne Hnc Hc|k Hne Hnc Hnf Hk|Hne Hnc Hnf Hnk];
  destruct H' as [w Hw|alias' Hne' Hal'|c' Hne' Hnc' Hc'|k' Hne' Hnc' Hnf' Hk'
                  |Hne' Hnc' Hnf' Hnk'];
  try reflexivity;
  try (exfalso; eapply Hne; eassumption);
  try (exfalso; eapply Hne'; eassumption).
  - apply alias_keys_unique in Hv, Hw. congruence.
  - f_equal. eapply first_such_functional; eassumption.
  - exfalso. apply first_such_in in Hal. destruct Hal. eapply Hnc'; eassumption.
  - exfalso. apply first_such_in in Hal. destruct Hal. eapply Hnc'; eassumption.
  - exfalso. apply first_such_in in Hal. destruct Hal. eapply Hnc'; eassumption.
  - exfalso. apply first_such_in in Hal'. destruct Hal'. eapply Hnc; eassumption.
  - eapply best_fuzzy_unique; eassumption.
  - exfalso. destruct Hc as (Hin & Hcl & _). eapply Hnf'; eassumption.
  - exfalso. destruct Hc as (Hin & Hcl & _). eapply Hnf'; eassumption.
  - exfalso. apply first_such_in in Hal'. destruct Hal'. eapply Hnc; eassumption.
  - exfalso. destruct Hc' as (Hin & Hcl & _). eapply Hnf; eassumption.
  - eapply first_such_functional; eassumption.
  - exfalso. apply first_such_in in Hk. destruct Hk. eapply Hnk'; eassumption.
  - exfalso. apply first_such_in in Hal'. destruct Hal'. eapply Hnc; eassumption.
  - exfalso. destruct Hc' as (Hin & Hcl & _). eapply Hnf; eassumption.
  - exfalso. apply first_such_in in Hk'. destruct Hk'. eapply Hnk; eassumption.
Qed.

(** The body of [normalize_city] on the stripped input follows the
    chain. *)
Lemma normalize_city_follows_chain c raw :
  exists v, normalize_city (Some (c :: raw)) = Some v
            /\ city_chain (strip (c :: raw)) v.
Proof.
  unfold normalize_city. set (r := strip (c :: raw)).
  destruct (dict_get str_eqb CITY_ALIASES r) as [v|] eqn:Hexact.
  { exists v. split; [reflexivity|]. constructor.
    eapply dict_get_in; [apply str_eqb_eq | eassumption]. }
  assert (Hne : no_exact r).
  { intros v. eapply dict_get_none; [apply str_eqb_eq | eassumption]. }
  assert (Hci : forall alias : pystr * pystr,
             str_eqb (str_lower (fst alias)) (str_lower r) = true
             <-> caseless_eq (fst alias) r)
    by (intros alias; apply str_eqb_eq).
  destruct (find _ CITY_ALIASES) as [[k v]|] eqn:Hcaseless.
  { exists v. split; [reflexivity|].
    apply (chain_caseless (alias := (k, v))); [exact Hne|].
    exact (find_first_such _ (fun alias => caseless_eq (fst alias) r) _
                           Hci Hcaseless). }
  assert (Hnc : no_caseless r)
    by exact (find_none_such _ (fun alias => caseless_eq (fst alias) r) _
                             Hci Hcaseless).
  destruct (Difflib.get_close_matches r KNOWN_CITIES (6 # 10)) as [|best rest]
    eqn:Hfuzzy.
  2:{ exists best. split; [reflexivity|].
      apply DifflibFacts.get_close_matches_cons in Hfuzzy.
      destruct Hfuzzy as (_ & Hin & Hpass & Hbest).
      apply chain_fuzzy; [exact Hne | exact Hnc |]. repeat split; auto. }
  assert (Hnf : no_fuzzy r).
  { intros x Hx Hclose. unfold close_match in Hclose.
    rewrite (DifflibFacts.get_close_matches_nil _ _ _ Hfuzzy x Hx) in Hclose.
    discriminate. }
  assert (Hfo : forall k : pystr,
             str_eqb (replace_char 322 108 (str_lower k))
                     (replace_char 322 108 (str_lower r)) = true
             <-> fold_l k = fold_l r)
    by (intros k; apply str_eqb_eq).
  destruct (find _ KNOWN_CITIES) as [k|] eqn:Hfolded.
  { exists k. split; [reflexivity|].
    apply chain_folded; auto.
    exact (find_first_such _ (fun k => fold_l k = fold_l r) _ Hfo Hfolded). }
  exists (str_title r). split; [reflexivity|].
  apply chain_title; auto.
  exact (find_none_such _ (fun k => fold_l k = fold_l r) _ Hfo Hfolded).
Qed.

End NormalizeCity.

Lemma city_chain_title_intro {U : UCD} (r : pystr) :
  dict_get str_eqb CITY_ALIASES r = None ->
  find (fun kv => str_eqb (str_lower (fst kv)) (str_lower r)) CITY_ALIASES = None ->
  Difflib.get_close_matches r KNOWN_CITIES (6 # 10) = [] ->
  find (fun k => str_eqb (fold_l k) (fold_l r)) KNOWN_CITIES = None ->
  city_chain r (str_title r).
Proof.
  intros Hexact Hcaseless Hfuzzy Hfolded. apply chain_title.
  - intros v. eapply dict_get_none; [apply str_eqb_eq | eassumption].
  - refine (find_none_such _ (fun alias => caseless_eq (fst alias) r) _ _ Hcaseless).
    intros alias. apply str_eqb_eq.
  - intros x Hx Hclose. unfold close_match in Hclose.
    rewrite (DifflibFacts.get_close_matches_nil _ _ _ Hfuzzy x Hx) in Hclose.
    discriminate.
  - refine (find_none_such _ (fun k => fold_l k = fold_l r) _ _ Hfolded).
    intros k. apply str_eqb_eq.
Qed.

(** C1, as amended.  For a non-empty input, [normalize_city] strips the
    input and returns the one result of the chain on the stripped input:
    the alias of the exact key; else the alias of the first key equal
    without regard to case; else the best close match among the known
    cities; else the first known city equal after folding; else the
    title-cased stripped input.  "Krakow", "krakowie" and "Lodz" resolve
    to "Kraków", "Kraków" and "Łódź". *)
Theorem normalize_city_resolution_chain :
  (forall (U : UCD) (raw : pystr),
      raw <> [] ->
      exists v, normalize_city (Some raw) = Some v
                /\ city_chain (strip raw) v
                /\ forall v', city_chain (strip raw) v' -> v' = v)
  /\ normalize_city (U := Latin.ucd) (Some (u "Krakow")) = Some (u "Kraków")
  /\ normalize_city (U := Latin.ucd) (Some (u "krakowie")) = Some (u "Kraków")
  /\ normalize_city (U := Latin.ucd) (Some (u "Lodz")) = Some (u "Łódź").
Proof.
  split; [|repeat split; vm_compute; reflexivity].
  intros U [|c raw] Hne; [congruence|].
  destruct (normalize_city_follows_chain c raw) as (v & Hv & Hchain).
  exists v. repeat split; auto.
  intros v' Hv'. eapply city_chain_functional; eassumption.
Qed.

Lemma normalize_city_resolution_chain_witness :
  exists v, normalize_city (U := Latin.ucd) (Some (u " Lodz ")) = Some v
            /\ city_chain (strip (u " Lodz ")) v
            /\ forall v', city_chain (strip (u " Lodz ")) v' -> v' = v.
Proof.
  apply (proj1 normalize_city_resolution_chain Latin.ucd (u " Lodz ")).
  vm_compute. discriminate.
Defined.

(** The chain on the input as given, without stripping, is not what
    [normalize_city] returns: on " Lodz" no step before the last applies
    to the unstripped text, which title-cases to itself, while the function
    returns the alias of "Lodz". *)
Lemma normalize_city_unstripped_counterexample :
  normalize_city (U := Latin.ucd) (Some (u " Lodz")) = Some (u "Łódź")
  /\ city_chain (U := Latin.ucd) (u " Lodz") (u " Lodz")
  /\ ~ city_chain (U := Latin.ucd) (u " Lodz") (u "Łódź").
Proof.
  assert (Hchain : city_chain (U := Latin.ucd) (u " Lodz") (u " Lodz")).
  { change (u " Lodz") with (str_title (UCD := Latin.ucd) (u " Lodz")) at 2.
    apply city_chain_title_intro; vm_compute; reflexivity. }
  split; [vm_compute; reflexivity|]. split; [exact Hchain|].
  intros H. pose proof (city_chain_functional H Hchain) as E.
  vm_compute in E. discriminate.
Qed.

(** C8, as amended.  [normalize_city] returns a string for every non-empty
    input and is absent for the absent and for the empty input. *)
Theorem normalize_city_returns_string (U : UCD) :
  (forall raw : pystr,
      raw <> [] -> exists s : pystr, normalize_city (Some raw) = Some s)
  /\ normalize_city None = None
  /\ normalize_city (Some []) = None.
Proof.
  split; [|split; reflexivity].
  intros [|c raw] Hne; [congruence|].
  destruct (normalize_city_follows_chain c raw) as (v & Hv & _). eauto.
Qed.

Lemma normalize_city_returns_string_witness :
  exists s : pystr, normalize_city (U := Latin.ucd) (Some (u "Gdansk")) = Some s.
Proof.
  apply (proj1 (normalize_city_returns_string Latin.ucd) (u "Gdansk")).
  vm_compute. discriminate.
Defined.

(** For the absent input no string is returned. *)
Lemma normalize_city_absent_counterexample :
  normalize_city (U := Latin.ucd) None = None
  /\ normalize_city (U := Latin.ucd) (Some (u "")) = None
  /\ ~ (forall raw : option pystr,
           exists s : pystr, normalize_city (U := Latin.ucd) raw = Some s).
Proof.
  split; [reflexivity|]. split; [reflexivity|].
  intros H. destruct (H None) as [s Hs]. discriminate.
Qed.

(* ================================================================= *)
(** ** [sorted] *)

Section SortedFacts.
Variables (A : Type) (ltb : A -> A -> bool).

Lemma insert_sorted_perm x l : Permutation (insert_sorted ltb x l) (x :: l).
Proof.
  induction l as [|y l IH]; cbn; [reflexivity|].
  destruct (ltb y x); [|reflexivity].
  rewrite IH. apply perm_swap.
Qed.

Lemma sorted_perm l : Permutation (sorted ltb l) l.
Proof.
  induction l as [|x l IH]; cbn; [reflexivity|].
  rewrite insert_sorted_perm. now constructor.
Qed.

Lemma sorted_in l x : In x (sorted ltb l) <-> In x l.
Proof.
  split; apply Permutation_in; [|symmetry]; apply sorted_perm.
Qed.

End SortedFacts.

Lemma insert_sorted_Z x l :
  StronglySorted Z.le l -> StronglySorted Z.le (insert_sorted Z.ltb x l).
Proof.
  induction 1 as [|y l Hs IH Hall]; cbn.
  - repeat constructor.
  - destruct (Z.ltb_spec y x).
    + constructor; [exact IH|].
      apply Forall_forall. intros z Hz.
      apply (Permutation_in _ (insert_sorted_perm Z.ltb x l)) in Hz.
      destruct Hz as [<-|Hz]; [lia|].
      rewrite Forall_forall in Hall. now apply Hall.
    + constructor; [now constructor|].
      constructor; [assumption|].
      rewrite Forall_forall in *. intros z Hz. specialize (Hall z Hz). lia.
Qed.

Lemma sorted_Z l : StronglySorted Z.le (sorted Z.ltb l).
Proof.
  induction l as [|x l IH]; cbn; [constructor | now apply insert_sorted_Z].
Qed.

Lemma find_first_at_least cur l m :
  StronglySorted Z.le l ->
  find (fun x => (cur <=? x)%Z) l = Some m ->
  (cur <= m)%Z /\ In m l /\ forall x, In x l -> (cur <= x)%Z -> (m <= x)%Z.
Proof.
  induction 1 as [|y l Hs IH Hall]; cbn; [discriminate|].
  rewrite Forall_forall in Hall.
  destruct (Z.leb_spec cur y).
  - intros [= <-]. repeat split; auto.
    intros x [<-|Hx] _; [lia | now apply Hall].
  - intros Hf. destruct (IH Hf) as (H1 & H2 & H3). repeat split; auto.
    intros x [<-|Hx] Hc; [lia | now apply H3].
Qed.

Lemma find_none_at_least cur l :
  find (fun x => (cur <=? x)%Z) l = None -> forall x, In x l -> (x < cur)%Z.
Proof.
  intros H x Hx. pose proof (find_none _ _ H x Hx) as E. cbn in E.
  now apply Z.leb_gt.
Qed.

Lemma sorted_head_least m0 l :
  StronglySorted Z.le (m0 :: l) -> forall x, In x (m0 :: l) -> (m0 <= x)%Z.
Proof.
  intros H x [<-|Hx]; [lia|].
  apply StronglySorted_inv in H. destruct H as [_ Hall].
  rewrite Forall_forall in Hall. now apply Hall.
Qed.

(* ================================================================= *)
(** ** Times of day *)

Definition is_ascii_digit (c : N) : bool := ((48 <=? c) && (c <=? 57))%N.

Definition digit_value (c : N) : Z := (Z.of_N c - 48)%Z.

(** [HH:MM] on the 24-hour clock: two digits, a colon, two digits, the
    hour below 24 and the minute below 60. *)
Definition valid_hhmm (t : pystr) : bool :=
  match t with
  | [h1; h2; colon; m1; m2] =>
    is_ascii_digit h1 && is_ascii_digit h2 && (colon =? 58)%N
    && is_ascii_digit m1 && is_ascii_digit m2
    && (digit_value h1 * 10 + digit_value h2 <? 24)%Z
    && (digit_value m1 * 10 + digit_value m2 <? 60)%Z
  | _ => false
  end.

Definition minute_of_day (t : pystr) : Z :=
  match t with
  | [h1; h2; _; m1; m2] =>
    ((digit_value h1 * 10 + digit_value h2) * 60
     + (digit_value m1 * 10 + digit_value m2))%Z
  | _ => 0%Z
  end.

Lemma valid_hhmm_inv t :
  valid_hhmm t = true ->
  exists h1 h2 m1 m2,
    t = [h1; h2; 58%N; m1; m2]
    /\ (48 <= h1 <= 57)%N /\ (48 <= h2 <= 57)%N
    /\ (48 <= m1 <= 57)%N /\ (48 <= m2 <= 57)%N
    /\ (digit_value h1 * 10 + digit_value h2 < 24)%Z
    /\ (digit_value m1 * 10 + digit_value m2 < 60)%Z.
Proof.
  destruct t as [|h1 [|h2 [|colon [|m1 [|m2 [|x t]]]]]]; try discriminate.
  unfold valid_hhmm, is_ascii_digit.
  rewrite !andb_true_iff, !N.leb_le, N.eqb_eq, !Z.ltb_lt.
  intros H.
  repeat match goal with
         | H : _ /\ _ |- _ => destruct H
         end.
  subst colon. exists h1, h2, m1, m2. repeat split; assumption.
Qed.

Lemma split_char_no_sep sep s :
  (forall c, In c s -> c <> sep) -> split_char sep s = [s].
Proof.
  induction s as [|c s IH]; intros H; cbn [split_char]; [reflexivity|].
  assert ((c =? sep)%N = false) as -> by (apply N.eqb_neq, H; now left).
  rewrite IH; [reflexivity|]. intros d Hd. apply H. now right.
Qed.

Lemma split_char_sep sep s1 s2 :
  (forall c, In c s1 -> c <> sep) ->
  split_char sep (s1 ++ sep :: s2) = s1 :: split_char sep s2.
Proof.
  induction s1 as [|c s IH]; intros H; cbn [split_char app].
  - now rewrite N.eqb_refl.
  - assert ((c =? sep)%N = false) as -> by (apply N.eqb_neq, H; now left).
    rewrite IH; [reflexivity|]. intros d Hd. apply H. now right.
Qed.

Definition ten_digits : list N := [0; 1; 2; 3; 4; 5; 6; 7; 8; 9]%N.

Lemma format_02d_two_digits a b :
  (a < 10)%N -> (b < 10)%N ->
  format_02d (Z.of_N (a * 10 + b)) = [48 + a; 48 + b]%N.
Proof.
  intros Ha Hb.
  assert (forallb (fun a => forallb (fun b =>
            str_eqb (format_02d (Z.of_N (a * 10 + b))) [48 + a; 48 + b]%N)
            ten_digits) ten_digits = true) as Hall by (vm_compute; reflexivity).
  rewrite forallb_forall in Hall.
  assert (In a ten_digits) as Hina by (unfold ten_digits; cbn; lia).
  assert (In b ten_digits) as Hinb by (unfold ten_digits; cbn; lia).
  specialize (Hall a Hina). rewrite forallb_forall in Hall.
  now apply str_eqb_eq, Hall.
Qed.

Lemma minutes_to_time_str_hhmm t :
  valid_hhmm t = true -> minutes_to_time_str (minute_of_day t) = t.
Proof.
  intros H. apply valid_hhmm_inv in H.
  destruct H as (h1 & h2 & m1 & m2 & -> & Hh1 & Hh2 & Hm1 & Hm2 & Hh & Hm).
  unfold minutes_to_time_str, minute_of_day, digit_value in *.
  set (hh := ((Z.of_N h1 - 48) * 10 + (Z.of_N h2 - 48))%Z) in *.
  set (mm := ((Z.of_N m1 - 48) * 10 + (Z.of_N m2 - 48))%Z) in *.
  assert (0 <= hh)%Z by (subst hh; lia).
  assert (0 <= mm)%Z by (subst mm; lia).
  assert (((hh * 60 + mm) / 60) = hh)%Z as ->
    by (symmetry; apply Z.div_unique with mm; lia).
  assert ((hh mod 24) = hh)%Z as -> by (apply Z.mod_small; lia).
  assert (((hh * 60 + mm) mod 60) = mm)%Z as ->
    by (symmetry; apply Z.mod_unique with hh; lia).
  assert (hh = Z.of_N ((h1 - 48) * 10 + (h2 - 48)))%Z as -> by (subst hh; lia).
  assert (mm = Z.of_N ((m1 - 48) * 10 + (m2 - 48)))%Z as -> by (subst mm; lia).
  rewrite !format_02d_two_digits by lia.
  replace (48 + (h1 - 48))%N with h1 by lia.
  replace (48 + (h2 - 48))%N with h2 by lia.
  replace (48 + (m1 - 48))%N with m1 by lia.
  replace (48 + (m2 - 48))%N with m2 by lia.
  reflexivity.
Qed.

Section Times.
Context {U : UCD}.

Lemma Py_ISSPACE_digit c : (48 <= c <= 57)%N -> Py_ISSPACE c = false.
Proof.
  intros H. unfold Py_ISSPACE.
  destruct (N.eqb_spec c 32); [lia|]. destruct (N.leb_spec 9 c); [|lia].
  destruct (N.leb_spec c 13); [lia|]. reflexivity.
Qed.

Lemma ascii_digit_digit c :
  (48 <= c <= 57)%N -> ascii_digit c = Some (digit_value c).
Proof.
  intros H. unfold ascii_digit.
  destruct (N.leb_spec 48 c); [|lia]. destruct (N.leb_spec c 57); [|lia].
  reflexivity.
Qed.

Lemma int_of_str_two_digits a b :
  (48 <= a <= 57)%N -> (48 <= b <= 57)%N ->
  int_of_str [a; b] = Ret (digit_value a * 10 + digit_value b)%Z.
Proof.
  intros Ha Hb. unfold int_of_str. cbn [transform_decimal_and_space].
  assert ((a <? 127)%N = true) as -> by (apply N.ltb_lt; lia).
  assert ((b <? 127)%N = true) as -> by (apply N.ltb_lt; lia).
  unfold PyLong_FromString. cbn [skip_spaces].
  rewrite (Py_ISSPACE_digit Ha).
  assert ((a =? 43)%N = false) as -> by (apply N.eqb_neq; lia).
  assert ((a =? 45)%N = false) as -> by (apply N.eqb_neq; lia).
  assert (Ha' : (a =? 95)%N = false) by (apply N.eqb_neq; lia).
  assert (Hb' : (b =? 95)%N = false) by (apply N.eqb_neq; lia).
  rewrite Ha'. cbn [scan_digits].
  rewrite Ha', (ascii_digit_digit Ha), Hb', (ascii_digit_digit Hb).
  change (N.succ (N.succ 0)) with 2%N.
  change (2 =? 0)%N with false. change (int_max_str_digits <? 2)%N with false.
  cbv iota. cbn [skip_spaces]. f_equal. lia.
Qed.

Lemma time_str_to_minutes_hhmm t :
  valid_hhmm t = true -> time_str_to_minutes t = Ret (minute_of_day t).
Proof.
  intros H. apply valid_hhmm_inv in H.
  destruct H as (h1 & h2 & m1 & m2 & -> & Hh1 & Hh2 & Hm1 & Hm2 & _ & _).
  unfold time_str_to_minutes.
  change [h1; h2; 58%N; m1; m2] with ([h1; h2] ++ 58%N :: [m1; m2]).
  rewrite split_char_sep, split_char_no_sep.
  - rewrite !int_of_str_two_digits by assumption. reflexivity.
  - intros c [<-|[<-|[]]]; lia.
  - intros c [<-|[<-|[]]]; lia.
Qed.

Lemma py_map_hhmm trains :
  Forall (fun t => valid_hhmm t = true) trains ->
  py_map time_str_to_minutes trains = Ret (map minute_of_day trains).
Proof.
  induction 1 as [|t trains Ht _ IH]; cbn [py_map map]; [reflexivity|].
  now rewrite (time_str_to_minutes_hhmm _ Ht), IH.
Qed.

(** On well-formed times [find_next_train] does not depend on the
    character database. *)
Definition next_of_minutes (now : datetime) (mins : list Z) : py (option pystr) :=
  let current_min := (hour now * 60 + minute now)%Z in
  let mins := sorted Z.ltb mins in
  match find (fun m => (current_min <=? m)%Z) mins with
  | Some m => Ret (Some (minutes_to_time_str m))
  | None =>
    match mins with
    | m0 :: _ => Ret (Some (minutes_to_time_str m0))
    | [] => Raise IndexError
    end
  end.

Lemma find_next_train_hhmm clock now trains :
  now_warsaw clock = Ret now ->
  trains <> [] ->
  Forall (fun t => valid_hhmm t = true) trains ->
  find_next_train clock (Some trains)
  = next_of_minutes now (map minute_of_day trains).
Proof.
  intros Hnow Hne Hall. destruct trains as [|t trains]; [congruence|].
  unfold find_next_train. rewrite Hnow. cbn [py_bind].
  rewrite (py_map_hhmm Hall). reflexivity.
Qed.

(** The clock is read before the entries are: when it cannot be read,
    that is the outcome. *)
Lemma find_next_train_no_clock clock e t trains :
  now_warsaw clock = Raise e ->
  find_next_train clock (Some (t :: trains)) = Raise e.
Proof.
  intros Hnow. unfold find_next_train. now rewrite Hnow.
Qed.

Lemma find_next_train_listed clock now trains :
  now_warsaw clock = Ret now ->
  trains <> [] ->
  Forall (fun t => valid_hhmm t = true) trains ->
  exists t,
    find_next_train clock (Some trains) = Ret (Some t)
    /\ In t trains
    /\ let cur := (hour now * 60 + minute now)%Z in
       ((cur <= minute_of_day t)%Z
        /\ forall t', In t' trains -> (cur <= minute_of_day t')%Z ->
                      (minute_of_day t <= minute_of_day t')%Z)
       \/ ((forall t', In t' trains -> (minute_of_day t' < cur)%Z)
           /\ forall t', In t' trains ->
                         (minute_of_day t <= minute_of_day t')%Z).
Proof.
  intros Hnow Hne Hall. rewrite (@find_next_train_hhmm _ _ _ Hnow Hne Hall).
  unfold next_of_minutes.
  set (cur := (hour now * 60 + minute now)%Z).
  set (mins := sorted Z.ltb (map minute_of_day trains)).
  assert (Hsorted : StronglySorted Z.le mins) by apply sorted_Z.
  assert (Hmem : forall m, In m mins <-> exists t, In t trains /\ minute_of_day t = m).
  { intros m. subst mins. rewrite sorted_in, in_map_iff.
    split; intros (t & H1 & H2); exists t; tauto. }
  rewrite Forall_forall in Hall.
  destruct (find _ mins) as [m|] eqn:Hfind.
  - destruct (find_first_at_least _ Hsorted Hfind) as (Hcur & Hin & Hleast).
    apply Hmem in Hin. destruct Hin as (t & Ht & <-).
    exists t. rewrite minutes_to_time_str_hhmm by now apply Hall.
    repeat split; auto. left. split; [exact Hcur|].
    intros t' Ht' Hc. apply Hleast; [|exact Hc]. apply Hmem. eauto.
  - destruct mins as [|m0 rest] eqn:Hmins.
    + exfalso. destruct trains as [|t trains]; [congruence|].
      apply (proj2 (Hmem (minute_of_day t))). exists t. split; [now left | reflexivity].
    + assert (Hin : In m0 (m0 :: rest)) by now left.
      apply Hmem in Hin. destruct Hin as (t & Ht & Hm0).
      exists t. rewrite <- Hm0, minutes_to_time_str_hhmm by now apply Hall.
      repeat split; auto. right. split.
      * intros t' Ht'. apply (find_none_at_least _ _ Hfind). apply Hmem. eauto.
      * intros t' Ht'. rewrite Hm0. apply (sorted_head_least Hsorted).
        apply Hmem. eauto.
Qed.

End Times.

Lemma Forall_valid_hhmm trains :
  forallb valid_hhmm trains = true ->
  Forall (fun t => valid_hhmm t = true) trains.
Proof.
  intros H. apply Forall_forall. now apply forallb_forall.
Qed.

(** A clock of a host that has the zone data and reads [now]. *)
Definition clock_reading (now : datetime) : Clock :=
  {| ZoneInfo := true; warsaw := Ret now; localtime := now |}.

(** C3.  For a non-empty list of [HH:MM] times and any reading [now] of
    the clock, [find_next_train] returns a listed time: the earliest of
    those not before the current minute of the day, or, when every listed
    time is before it, the earliest of all.  The absent and the empty list
    give the absent result, whatever the clock.  On 05:10, 09:00, 13:45,
    18:20 the result is 13:45 at 10:00 and 05:10 at 23:00. *)
Theorem find_next_train_earliest_or_wraps :
  (forall (U : UCD) (clock : Clock) (now : datetime) (trains : list pystr),
      now_warsaw clock = Ret now ->
      trains <> [] ->
      Forall (fun t => valid_hhmm t = true) trains ->
      exists t,
        find_next_train clock (Some trains) = Ret (Some t)
        /\ In t trains
        /\ let cur := (hour now * 60 + minute now)%Z in
           ((cur <= minute_of_day t)%Z
            /\ forall t', In t' trains -> (cur <= minute_of_day t')%Z ->
                          (minute_of_day t <= minute_of_day t')%Z)
           \/ ((forall t', In t' trains -> (minute_of_day t' < cur)%Z)
               /\ forall t', In t' trains ->
                             (minute_of_day t <= minute_of_day t')%Z))
  /\ (forall (U : UCD) (clock : Clock),
         find_next_train clock None = Ret None
         /\ find_next_train clock (Some []) = Ret None)
  /\ (forall (U : UCD) (clock : Clock),
         now_warsaw clock = Ret (Datetime 10 0) ->
         find_next_train clock
           (Some (map u ["05:10"; "09:00"; "13:45"; "18:20"]%string))
         = Ret (Some (u "13:45")))
  /\ (forall (U : UCD) (clock : Clock),
         now_warsaw clock = Ret (Datetime 23 0) ->
         find_next_train clock
           (Some (map u ["05:10"; "09:00"; "13:45"; "18:20"]%string))
         = Ret (Some (u "05:10"))).
Proof.
  split; [intros U clock now trains; apply find_next_train_listed|].
  split; [intros U clock; split; reflexivity|].
  split; intros U clock Hnow; rewrite (@find_next_train_hhmm _ _ _ _ Hnow);
    try (vm_compute; reflexivity);
    try (vm_compute; discriminate);
    apply Forall_valid_hhmm; vm_compute; reflexivity.
Qed.

Lemma find_next_train_earliest_or_wraps_witness :
  exists t,
    find_next_train (U := Latin.ucd) (clock_reading (Datetime 10 0))
      (Some (map u ["18:20"; "05:10"; "13:45"; "09:00"]%string)) = Ret (Some t)
    /\ In t (map u ["18:20"; "05:10"; "13:45"; "09:00"]%string)
    /\ (((10 * 60 + 0 <= minute_of_day t)%Z
         /\ forall t', In t' (map u ["18:20"; "05:10"; "13:45"; "09:00"]%string) ->
                       (10 * 60 + 0 <= minute_of_day t')%Z ->
                       (minute_of_day t <= minute_of_day t')%Z)
        \/ ((forall t', In t' (map u ["18:20"; "05:10"; "13:45"; "09:00"]%string) ->
                        (minute_of_day t' < 10 * 60 + 0)%Z)
            /\ forall t', In t' (map u ["18:20"; "05:10"; "13:45"; "09:00"]%string) ->
                          (minute_of_day t <= minute_of_day t')%Z)).
Proof.
  apply (proj1 find_next_train_earliest_or_wraps Latin.ucd
               (clock_reading (Datetime 10 0)) (Datetime 10 0)
               (map u ["18:20"; "05:10"; "13:45"; "09:00"]%string)).
  - reflexivity.
  - vm_compute. discriminate.
  - apply Forall_valid_hhmm. vm_compute. reflexivity.
Defined.

(** Every schedule of the table is a non-empty list of [HH:MM] times. *)
Lemma SCHEDULES_hhmm key trains :
  dict_get pair_eqb SCHEDULES key = Some trains ->
  trains <> [] /\ Forall (fun t => valid_hhmm t = true) trains.
Proof.
  intros H. apply dict_get_in in H; [|apply pair_eqb_eq].
  assert (forallb (fun row => negb (Nat.eqb (List.length (snd row)) 0)
                              && forallb valid_hhmm (snd row)) SCHEDULES = true)
    as Hall by (vm_compute; reflexivity).
  rewrite forallb_forall in Hall. specialize (Hall _ H). cbn [snd] in Hall.
  apply andb_true_iff in Hall. destruct Hall as [Hlen Hvalid].
  split; [|now apply Forall_valid_hhmm].
  intros ->. discriminate.
Qed.

(* ================================================================= *)
(** ** The actions: messages and events *)

Section RunFacts.
Local Open Scope run_scope.

Lemma bind_utter {A} (text : pystr) (k : Run A) out :
  (utter_message text ;; k) out = k (out ++ [text]).
Proof. reflexivity. Qed.

Lemma bind_lift_ret {A B} (a : A) (k : A -> Run B) out :
  (x <- lift (Ret a) ;; k x) out = k a out.
Proof. reflexivity. Qed.

(** An action that ends normally with no event after [n] messages. *)
Definition emits (r : Run (list Event)) (n : nat) : Prop :=
  forall out, exists msgs,
    r out = (Ret [], out ++ msgs) /\ List.length msgs = n.

Lemma emits_one text : emits (utter_message text ;; ret []) 1.
Proof. intros out. exists [text]. split; reflexivity. Qed.

Lemma emits_one_of (b : bool) text1 text2 :
  emits ((if b then utter_message text1 else utter_message text2) ;; ret []) 1.
Proof. destruct b; apply emits_one. Qed.

Lemma emits_two text1 text2 :
  emits (utter_message text1 ;; utter_message text2 ;; ret []) 2.
Proof.
  intros out. exists [text1; text2]. split; [|reflexivity].
  rewrite !bind_utter. unfold ret. now rewrite <- app_assoc.
Qed.

Lemma emits_after_lift {A} (a : A) (m : py A) (k : A -> Run (list Event)) n :
  m = Ret a -> emits (k a) n -> emits (x <- lift m ;; k x) n.
Proof. intros -> H out. rewrite bind_lift_ret. apply H. Qed.

Lemma emits_call (r : Run (list Event)) n :
  emits r n -> exists msgs, r [] = (Ret [], msgs) /\ List.length msgs = n.
Proof. intros H. destruct (H []) as (msgs & E & L). eauto. Qed.

End RunFacts.

Section ActionFacts.
Context {U : UCD}.
Local Open Scope run_scope.

Lemma schedule_next_train clock now key trains :
  now_warsaw clock = Ret now ->
  dict_get pair_eqb SCHEDULES key = Some trains ->
  exists t, find_next_train clock (Some trains) = Ret (Some t).
Proof.
  intros Hnow H. destruct (SCHEDULES_hhmm _ H) as [Hne Hvalid].
  destruct (@find_next_train_listed _ _ _ _ Hnow Hne Hvalid) as (t & Ht & _).
  eauto.
Qed.

(** Whether the call reaches [find_next_train] (lines 180 and 185), which
    reads the clock as no list of [SCHEDULES] is empty: only the schedule
    action does, on a stored route, unless the intent asks for all
    departures. *)
Definition reads_clock (a : ActionName) (tr : Tracker) : bool :=
  match a with
  | action_show_schedule =>
    match schedule_cities tr with
    | (Some ((_ :: _) as departure), Some ((_ :: _) as arrival)) =>
      let intent := intent_name tr in
      dict_in pair_eqb SCHEDULES (departure, arrival)
      && (intent_in intent [u "ask_schedule_next"; u "ask_schedule"]
          || negb (intent_in intent [u "ask_schedule_all"]
                   || intent_in intent [u "ask_schedule_connection"]))
    | _ => false
    end
  | _ => false
  end.

(** The clock can be read wherever the call reads it. *)
Definition clock_readable (clock : Clock) (a : ActionName) (tr : Tracker)
  : Prop :=
  reads_clock a tr = true -> exists now, now_warsaw clock = Ret now.

Lemma ActionShowSchedule_emits clock tr :
  clock_readable clock action_show_schedule tr ->
  emits (ActionShowSchedule_run clock tr) 1.
Proof.
  unfold clock_readable, reads_clock, ActionShowSchedule_run. cbv zeta.
  destruct (schedule_cities tr) as [[[|d departure]|] [[|a arrival]|]];
    intros Hclock; try apply emits_one.
  unfold dict_in in Hclock.
  destruct (dict_get pair_eqb SCHEDULES _) as [trains|] eqn:Hkey.
  - cbn [andb] in Hclock.
    destruct (intent_in _ [u "ask_schedule_next"; u "ask_schedule"]).
    + destruct (Hclock eq_refl) as (now & Hnow).
      destruct (@schedule_next_train _ _ _ _ Hnow Hkey) as (t & Ht).
      eapply emits_after_lift; [exact Ht | apply emits_one].
    + cbn [orb] in Hclock.
      destruct (intent_in _ [u "ask_schedule_all"] || _).
      * apply emits_one.
      * destruct (Hclock eq_refl) as (now & Hnow).
        destruct (@schedule_next_train _ _ _ _ Hnow Hkey) as (t & Ht).
        eapply emits_after_lift; [exact Ht | apply emits_one].
  - destruct (dict_in _ _ _); [apply emits_one|].
    destruct (filter _ (dict_keys SCHEDULES)) as [|sample rest] eqn:Halt;
      [apply emits_one|].
    assert (In sample (dict_keys SCHEDULES)) as Hin.
    { eapply (proj1 (filter_In _ _ _)). rewrite Halt. now left. }
    destruct (dict_get_key pair_eqb pair_eqb_eq SCHEDULES _ Hin) as (times & Ht).
    rewrite Ht. eapply emits_after_lift; [reflexivity | apply emits_one].
Qed.


Lemma ActionShowDelay_emits clock tr : emits (ActionShowDelay_run clock tr) 1.
Proof.
  unfold ActionShowDelay_run. cbv zeta.
  destruct (delay_inputs tr) as [delay_city train_number].
  repeat match goal with
         | |- emits (if ?b then _ else _) _ => destruct b
         end;
    first [apply emits_one | apply emits_one_of].
Qed.

Lemma ActionCheckSchedule_emits clock tr :
  emits (ActionCheckSchedule_run clock tr)
        (if truthy (py_or (first_entity_value tr (u "from_city"))
                          (get_slot tr (u "departure_city")))
            && truthy (py_or (first_entity_value tr (u "to_city"))
                             (get_slot tr (u "arrival_city")))
         then 2 else 1).
Proof.
  unfold ActionCheckSchedule_run. cbv zeta.
  destruct (truthy (py_or (first_entity_value tr (u "from_city")) _));
    destruct (truthy (py_or (first_entity_value tr (u "to_city")) _)); cbn [negb orb andb];
    first [apply emits_one | apply emits_two].
Qed.

Lemma ActionShowTicketPrice_emits clock tr :
  emits (ActionShowTicketPrice_run clock tr) 1.
Proof.
  unfold ActionShowTicketPrice_run. cbv zeta.
  destruct (route_cities tr) as [[[|d departure]|] [[|a arrival]|]];
    first [apply emits_one | apply emits_one_of].
Qed.

Lemma ActionShowPlatform_emits clock tr : emits (ActionShowPlatform_run clock tr) 1.
Proof.
  unfold ActionShowPlatform_run. cbv zeta.
  destruct (negb (truthy (train_input tr)));
    first [apply emits_one | apply emits_one_of].
Qed.

Lemma ActionShowTrainType_emits clock tr :
  emits (ActionShowTrainType_run clock tr) 1.
Proof.
  unfold ActionShowTrainType_run. cbv zeta.
  destruct (route_cities tr) as [[[|d departure]|] [[|a arrival]|]];
    first [apply emits_one | apply emits_one_of].
Qed.

Lemma ActionShowServices_emits clock tr : emits (ActionShowServices_run clock tr) 1.
Proof.
  unfold ActionShowServices_run. cbv zeta.
  destruct (negb (truthy (train_input tr))); [apply emits_one|].
  destruct (dict_get str_eqb TRAIN_SERVICES _) as [[|s services]|];
    apply emits_one.
Qed.

(** Whether the diagnostic action has both of its cities. *)
Definition check_schedule_has_cities (tr : Tracker) : bool :=
  truthy (py_or (first_entity_value tr (u "from_city"))
                (get_slot tr (u "departure_city")))
  && truthy (py_or (first_entity_value tr (u "to_city"))
                   (get_slot tr (u "arrival_city"))).

Definition replies (a : ActionName) (tr : Tracker) : nat :=
  match a with
  | action_check_schedule => if check_schedule_has_cities tr then 2 else 1
  | _ => 1
  end.

Lemma run_emits a clock tr :
  clock_readable clock a tr -> emits (run a clock tr) (replies a tr).
Proof.
  destruct a; cbn [run replies]; intros Hclock.
  - now apply ActionShowSchedule_emits.
  - apply ActionShowDelay_emits.
  - apply ActionCheckSchedule_emits.
  - apply ActionShowTicketPrice_emits.
  - apply ActionShowPlatform_emits.
  - apply ActionShowTrainType_emits.
  - apply ActionShowServices_emits.
Qed.


Lemma ActionCheckSchedule_prompt clock tr :
  check_schedule_has_cities tr = false ->
  call action_check_schedule clock tr
  = (Ret [], [u "Podaj proszę miasto początkowe i docelowe."]).
Proof.
  unfold check_schedule_has_cities, call, run, ActionCheckSchedule_run.
  cbv zeta. intros H.
  destruct (truthy (py_or (first_entity_value tr (u "from_city")) _));
    destruct (truthy (py_or (first_entity_value tr (u "to_city")) _));
    try discriminate H; reflexivity.
Qed.

End ActionFacts.

(** A clock of a host where the [zoneinfo] module is there and the data of
    the zone is not. *)
Definition clock_without_zone (now : datetime) : Clock :=
  {| ZoneInfo := true; warsaw := Raise ZoneInfoNotFoundError;
     localtime := now |}.

Definition empty_tracker : Tracker :=
  {| slots := []; intent_name := None; entities := [] |}.

(** The tracker whose slots hold a departure and an arrival city. *)
Definition route_tracker (departure arrival : pystr) : Tracker :=
  {| slots := [ (u "departure_city", Some departure);
                (u "arrival_city", Some arrival) ];
     intent_name := Some (u "ask_schedule");
     entities := [] |}.

(** C4, as amended.  Every call of every action during which the clock
    can be read where the call reads it ends normally after exactly one
    message, except that the diagnostic action [action_check_schedule]
    sends two messages when it has both cities; when a city is missing it
    sends one message, the prompt for the cities.  Only the schedule action
    reads the clock, on a stored route and for an intent that asks for the
    next departure. *)
Theorem every_action_replies :
  forall (U : UCD) (a : ActionName) (clock : Clock) (tr : Tracker),
    (reads_clock a tr = true -> exists now, now_warsaw clock = Ret now) ->
    exists events msgs,
      call a clock tr = (Ret events, msgs)
      /\ List.length msgs
         = match a with
           | action_check_schedule =>
             if check_schedule_has_cities tr then 2 else 1
           | _ => 1
           end
      /\ (a = action_check_schedule ->
          check_schedule_has_cities tr = false ->
          msgs = [u "Podaj proszę miasto początkowe i docelowe."]).
Proof.
  intros U a clock tr Hclock.
  destruct (emits_call (@run_emits _ a clock tr Hclock)) as (msgs & E & L).
  exists [], msgs. split; [exact E|].
  split; [rewrite L; destruct a; reflexivity|].
  intros -> Hcities. unfold call in *.
  pose proof (@ActionCheckSchedule_prompt _ clock tr Hcities) as P.
  unfold call in P. congruence.
Qed.

(** Without cities the diagnostic action sends one message, not two; and
    on a host without the data of the zone the schedule action sends none
    for a stored route. *)
Lemma check_schedule_prompt_counterexample :
  (call (U := Latin.ucd) action_check_schedule
        (clock_reading (Datetime 12 0)) empty_tracker
   = (Ret [], [u "Podaj proszę miasto początkowe i docelowe."])
   /\ List.length
        (snd (call (U := Latin.ucd) action_check_schedule
                   (clock_reading (Datetime 12 0)) empty_tracker)) <> 2)
  /\ (call (U := Latin.ucd) action_show_schedule
           (clock_without_zone (Datetime 12 0))
           (route_tracker (u "Łódź") (u "Kraków"))
      = (Raise ZoneInfoNotFoundError, [])
      /\ List.length
           (snd (call (U := Latin.ucd) action_show_schedule
                      (clock_without_zone (Datetime 12 0))
                      (route_tracker (u "Łódź") (u "Kraków")))) <> 1).
Proof.
  split; (split; [vm_compute; reflexivity | vm_compute; discriminate]).
Qed.

Lemma every_action_replies_witness :
  exists events msgs,
    call (U := Latin.ucd) action_show_schedule (clock_reading (Datetime 12 0))
         (route_tracker (u "Łódź") (u "Kraków"))
    = (Ret events, msgs)
    /\ List.length msgs = 1
    /\ (action_show_schedule = action_check_schedule ->
        check_schedule_has_cities (route_tracker (u "Łódź") (u "Kraków")) = false ->
        msgs = [u "Podaj proszę miasto początkowe i docelowe."]).
Proof.
  apply (every_action_replies Latin.ucd action_show_schedule
                              (clock_reading (Datetime 12 0))
                              (route_tracker (u "Łódź") (u "Kraków"))).
  intros _. exists (Datetime 12 0). reflexivity.
Defined.




(** The two replies of the price action. *)
Notation price_reply departure arrival price :=
  (u "Cena biletu z " ++ departure ++ u " do " ++ arrival ++ u ": " ++ price
     ++ u ".").

Notation no_price_reply departure arrival :=
  (u "Brak danych o cenie biletu dla trasy " ++ departure ++ u " → " ++ arrival
     ++ u ". Możesz spróbować innych wariantów (np. różni przewoźnicy).").

Section RoutePairs.
Context {U : UCD}.

(** C5.  When the normalised (departure, arrival) pair is not a key of
    [SCHEDULES] and the reversed pair is, the schedule action sends the
    direction prompt and nothing else. *)
Theorem schedule_reverse_direction_prompt :
  forall (clock : Clock) (tr : Tracker) (departure arrival : pystr),
    schedule_cities tr = (Some departure, Some arrival) ->
    departure <> [] -> arrival <> [] ->
    dict_in pair_eqb SCHEDULES (departure, arrival) = false ->
    dict_in pair_eqb SCHEDULES (arrival, departure) = true ->
    call action_show_schedule clock tr
    = (Ret [],
       [u "Rozkład jest dostępny w odwrotną stronę (" ++ arrival ++ u " → "
          ++ departure ++ u "). Czy o to chodziło?"]).
Proof.
  intros clock tr departure arrival Hcities Hd Ha Hkey Hrev.
  unfold call, run, ActionShowSchedule_run. rewrite Hcities.
  destruct departure as [|d departure]; [congruence|].
  destruct arrival as [|a arrival]; [congruence|].
  cbv zeta. unfold dict_in in Hkey.
  destruct (dict_get pair_eqb SCHEDULES _) eqn:E; [discriminate|].
  rewrite Hrev. reflexivity.
Qed.

Lemma TICKET_PRICES_truthy key price :
  dict_get pair_eqb TICKET_PRICES key = Some price ->
  truthy (Some price) = true.
Proof.
  intros H. apply dict_get_in in H; [|apply pair_eqb_eq].
  assert (forallb (fun row => truthy (Some (snd row))) TICKET_PRICES = true)
    as Hall by (vm_compute; reflexivity).
  rewrite forallb_forall in Hall. exact (Hall _ H).
Qed.

Lemma price_reply_not_no_price (d a p d' a' : pystr) :
  (@Ret (list Event) [], [price_reply d a p])
  <> (Ret [], [no_price_reply d' a']).
Proof.
  intros E. apply (f_equal (fun r => hd 0%N (hd [] (snd r)))) in E.
  vm_compute in E. discriminate.
Qed.

(** C6.  For a normalised pair the price action looks the pair up, then
    the reversed pair: the price under the forward key wins; with no
    forward key the price under the reversed key is sent; the no-data
    reply is sent exactly when neither key is present. *)
Theorem ticket_price_reverse_lookup :
  forall (clock : Clock) (tr : Tracker) (departure arrival : pystr),
    route_cities tr = (Some departure, Some arrival) ->
    departure <> [] -> arrival <> [] ->
    (forall price,
        dict_get pair_eqb TICKET_PRICES (departure, arrival) = None ->
        dict_get pair_eqb TICKET_PRICES (arrival, departure) = Some price ->
        call action_show_ticket_price clock tr
        = (Ret [], [price_reply departure arrival price]))
    /\ (forall price,
           dict_get pair_eqb TICKET_PRICES (departure, arrival) = Some price ->
           call action_show_ticket_price clock tr
           = (Ret [], [price_reply departure arrival price]))
    /\ (call action_show_ticket_price clock tr
        = (Ret [], [no_price_reply departure arrival])
        <-> dict_get pair_eqb TICKET_PRICES (departure, arrival) = None
            /\ dict_get pair_eqb TICKET_PRICES (arrival, departure) = None).
Proof.
  intros clock tr departure arrival Hcities Hd Ha.
  assert (Hcall : call action_show_ticket_price clock tr
                  = (Ret [],
                     [match py_or (dict_get pair_eqb TICKET_PRICES (departure, arrival))
                                  (dict_get pair_eqb TICKET_PRICES (arrival, departure))
                      with
                      | Some (c :: price) => price_reply departure arrival (c :: price)
                      | _ => no_price_reply departure arrival
                      end])).
  { unfold call, run, ActionShowTicketPrice_run. rewrite Hcities.
    destruct departure as [|d departure]; [congruence|].
    destruct arrival as [|a arrival]; [congruence|].
    cbv zeta.
    destruct (py_or _ _) as [[|c price]|]; reflexivity. }
  rewrite Hcall. clear Hcall.
  destruct (dict_get pair_eqb TICKET_PRICES (departure, arrival))
    as [fwd|] eqn:Hfwd.
  - pose proof (TICKET_PRICES_truthy _ Hfwd) as Htruthy.
    destruct fwd as [|c fwd]; [discriminate Htruthy|].
    cbn [py_or truthy].
    split; [discriminate|]. split; [now intros price [= <-]|].
    split; [|intros [? _]; discriminate].
    intros E. now apply price_reply_not_no_price in E.
  - destruct (dict_get pair_eqb TICKET_PRICES (arrival, departure))
      as [rev|] eqn:Hrev.
    + pose proof (TICKET_PRICES_truthy _ Hrev) as Htruthy.
      destruct rev as [|c rev]; [discriminate Htruthy|].
      cbn [py_or truthy].
      split; [now intros price _ [= <-]|]. split; [discriminate|].
      split; [|intros [_ ?]; discriminate].
      intros E. now apply price_reply_not_no_price in E.
    + cbn [py_or truthy]. split; [discriminate|]. split; [discriminate|].
      split; auto.
Qed.

End RoutePairs.

Lemma schedule_reverse_direction_prompt_witness :
  call (U := Latin.ucd) action_show_schedule (clock_reading (Datetime 12 0))
       (route_tracker (u "Krakowa") (u "Warszawy"))
  = (Ret [],
     [u "Rozkład jest dostępny w odwrotną stronę (" ++ u "Warszawa" ++ u " → "
        ++ u "Kraków" ++ u "). Czy o to chodziło?"]).
Proof.
  apply (schedule_reverse_direction_prompt (U := Latin.ucd)).
  - vm_compute. reflexivity.
  - vm_compute. discriminate.
  - vm_compute. discriminate.
  - vm_compute. reflexivity.
  - vm_compute. reflexivity.
Defined.

Lemma ticket_price_reverse_lookup_witness :
  call (U := Latin.ucd) action_show_ticket_price (clock_reading (Datetime 12 0))
       (route_tracker (u "Krakowa") (u "Łodzi"))
  = (Ret [], [price_reply (u "Kraków") (u "Łódź") (u "50 zł (standardowy)")]).
Proof.
  apply (proj1 (ticket_price_reverse_lookup (U := Latin.ucd) (clock_reading (Datetime 12 0))
                  (route_tracker (u "Krakowa") (u "Łodzi"))
                  (departure := u "Kraków") (arrival := u "Łódź")
                  ltac:(vm_compute; reflexivity)
                  ltac:(vm_compute; discriminate)
                  ltac:(vm_compute; discriminate))).
  - vm_compute. reflexivity.
  - vm_compute. reflexivity.
Defined.

(* ================================================================= *)
(** ** The regular-expression matcher *)

Definition all_in (cls : N -> bool) (s : pystr) : Prop :=
  Forall (fun c => cls c = true) s.

(** The text after a repetition does not start with a character of the
    class. *)
Definition starts_outside (cls : N -> bool) (t : pystr) : Prop :=
  match t with
  | [] => True
  | c :: _ => cls c = false
  end.

Definition within (hi : option nat) (n : nat) : Prop :=
  match hi with
  | Some h => n <= h
  | None => True
  end.

Lemma run_length_exact cls hi s t :
  all_in cls s -> within hi (List.length s) ->
  hi = Some (List.length s) \/ starts_outside cls t ->
  run_length cls hi (s ++ t) = List.length s.
Proof.
  intros Hs. revert hi. induction Hs as [|c s Hc Hs IH]; intros hi Hin Hstop.
  - cbn [app List.length] in *.
    destruct Hstop as [->|Hstop]; [destruct t; reflexivity|].
    destruct hi as [[|h]|], t as [|d t]; cbn in *; try reflexivity;
      now rewrite Hstop.
  - cbn [app List.length] in *.
    destruct hi as [[|h]|]; cbn [within] in Hin; [lia| |].
    + cbn [run_length]. rewrite Hc. f_equal. apply IH; cbn; [lia|].
      destruct Hstop as [[= Hstop]|Hstop]; [left; now subst|now right].
    + cbn [run_length]. rewrite Hc. f_equal. apply IH; cbn; [exact I|].
      destruct Hstop as [Hstop|Hstop]; [discriminate|now right].
Qed.

Lemma run_length_within cls hi s : within hi (run_length cls hi s).
Proof.
  revert hi. induction s as [|c s IH]; intros [[|h]|]; cbn; try lia; auto.
  destruct (cls c); [|lia]. specialize (IH (Some h)). cbn in IH. lia.
Qed.

Lemma run_length_prefix cls hi s j :
  j <= run_length cls hi s ->
  all_in cls (firstn j s) /\ List.length (firstn j s) = j.
Proof.
  revert hi j. induction s as [|c s IH]; intros hi j Hj.
  - assert (j = 0) as -> by (destruct hi as [[|h]|]; cbn in Hj; lia).
    split; [constructor | reflexivity].
  - destruct j as [|j]; [split; [constructor | reflexivity]|].
    assert (cls c = true /\ j <= run_length cls (option_map pred hi) s)
      as [Hc Hrest].
    { destruct hi as [[|h]|]; cbn in Hj; try lia;
        destruct (cls c); try lia; split; auto; cbn; lia. }
    destruct (IH _ _ Hrest) as [Hall Hlen]. cbn [firstn List.length].
    split; [now constructor | now rewrite Hlen].
Qed.

Lemma backoff_top {A} (try : nat -> option A) lo k r :
  lo <= k -> try k = Some r -> backoff try lo k = Some r.
Proof.
  intros Hlo Htry. destruct k; cbn [backoff].
  - assert ((0 <? lo) = false) as -> by (apply Nat.ltb_ge; lia).
    now rewrite Htry.
  - assert ((S k <? lo) = false) as -> by (apply Nat.ltb_ge; lia).
    now rewrite Htry.
Qed.

Lemma backoff_some {A} (try : nat -> option A) lo k r :
  backoff try lo k = Some r -> exists j, lo <= j <= k /\ try j = Some r.
Proof.
  induction k as [|k IH]; cbn [backoff].
  - destruct (Nat.ltb_spec 0 lo); [discriminate|].
    destruct (try 0) eqn:E; [|discriminate]. intros [= <-].
    exists 0. split; [lia | exact E].
  - destruct (Nat.ltb_spec (S k) lo); [discriminate|].
    destruct (try (S k)) eqn:E.
    + intros [= <-]. exists (S k). split; [lia | exact E].
    + intros Hb. destruct (IH Hb) as (j & Hj & Hr). exists j. split; [lia | exact Hr].
Qed.

(** One item of the pattern matched greedily, with no need to back off. *)
Lemma re_match_step r p s t m :
  all_in (rep_cls r) s ->
  rep_lo r <= List.length s -> within (rep_hi r) (List.length s) ->
  rep_hi r = Some (List.length s) \/ starts_outside (rep_cls r) t ->
  re_match p t = Some m ->
  re_match (r :: p) (s ++ t) = Some (s :: m).
Proof.
  intros Hs Hlo Hhi Hstop Hm. cbn [re_match].
  rewrite run_length_exact by assumption.
  apply backoff_top; [exact Hlo|].
  rewrite firstn_app, Nat.sub_diag, firstn_all, firstn_O, app_nil_r.
  rewrite skipn_app, Nat.sub_diag, skipn_all, skipn_O. cbn [app].
  now rewrite Hm.
Qed.

(** What a successful match returns: one group per item, each within its
    class and bounds, the groups in sequence a prefix of the text. *)
Lemma re_match_sound p : forall s m,
  re_match p s = Some m ->
  Forall2 (fun r g => all_in (rep_cls r) g
                      /\ rep_lo r <= List.length g
                      /\ within (rep_hi r) (List.length g)) p m
  /\ exists rest, s = List.concat m ++ rest.
Proof.
  induction p as [|r p IH]; intros s m; cbn [re_match].
  - intros [= <-]. split; [constructor | now exists s].
  - intros Hb. apply backoff_some in Hb. destruct Hb as (j & [Hlo Hj] & Htry).
    destruct (re_match p (skipn j s)) as [m'|] eqn:Hm'; [|discriminate].
    cbn in Htry. injection Htry as <-.
    destruct (IH _ _ Hm') as (Hall & rest & Hrest).
    destruct (@run_length_prefix _ _ _ _ Hj) as [Hcls Hlen].
    split.
    + constructor; [|exact Hall]. rewrite Hlen. repeat split; auto.
      pose proof (run_length_within (rep_cls r) (rep_hi r) s) as Hw.
      destruct (rep_hi r); cbn in *; [lia | exact I].
    + exists rest. cbn [List.concat]. rewrite <- app_assoc, <- Hrest.
      now rewrite firstn_skipn.
Qed.

(* ================================================================= *)
(** ** [normalize_train_number] *)

Lemma train_letters_eq :
  u "ĄĆĘŁŃÓŚŻŹ" = [260; 262; 280; 321; 323; 211; 346; 379; 377]%N.
Proof. vm_compute. reflexivity. Qed.

Lemma train_letter_latin c :
  train_letter c = true ->
  (c < 384)%N /\ latin_isspace c = false /\ latin_todecimal c = None
  /\ c <> 45%N.
Proof.
  unfold train_letter. rewrite train_letters_eq.
  rewrite orb_true_iff, andb_true_iff, !N.leb_le. intros [[H1 H2]|H].
  - repeat split; try lia.
    + unfold latin_isspace.
      repeat match goal with
             | |- context [(?a =? ?b)%N] => destruct (N.eqb_spec a b); [lia|]
             | |- context [(?a <=? ?b)%N] => destruct (N.leb_spec a b); try lia
             end; reflexivity.
    + unfold latin_todecimal. destruct (N.leb_spec c 57); [lia|].
      now rewrite andb_false_r.
  - cbn [existsb] in H.
    repeat (apply orb_true_iff in H; destruct H as [H|H]);
      try discriminate;
      apply N.eqb_eq in H; subst c; vm_compute; repeat split; discriminate.
Qed.

Lemma starts_outside_app cls a b :
  Forall (fun c => cls c = false) a -> starts_outside cls b ->
  starts_outside cls (a ++ b).
Proof. intros Ha Hb. destruct Ha; cbn; auto. Qed.

Lemma starts_outside_nonempty cls a b :
  Forall (fun c => cls c = false) a -> 1 <= List.length a ->
  starts_outside cls (a ++ b).
Proof. intros Ha Hlen. destruct Ha; cbn in *; [lia | auto]. Qed.

Lemma all_in_outside (cls cls' : N -> bool) s :
  (forall c, cls c = true -> cls' c = false) ->
  all_in cls s -> Forall (fun c => cls' c = false) s.
Proof. intros H. apply Forall_impl. exact H. Qed.

Section TrainNumber.
Context {U : UCD}.

Lemma isdecimal_true c : isdecimal c = true <-> todecimal c <> None.
Proof. unfold isdecimal. destruct (todecimal c); split; congruence. Qed.

Lemma letter_not_space c : train_letter c = true -> isspace c = false.
Proof.
  intros H. destruct (train_letter_latin _ H) as (Hc & Hs & _).
  now rewrite isspace_latin.
Qed.

Lemma letter_not_decimal c : train_letter c = true -> isdecimal c = false.
Proof.
  intros H. destruct (train_letter_latin _ H) as (Hc & _ & Hd & _).
  unfold isdecimal. now rewrite todecimal_latin, Hd.
Qed.

Lemma space_not_letter c : isspace c = true -> train_letter c = false.
Proof.
  intros H. destruct (train_letter c) eqn:E; [|reflexivity].
  apply letter_not_space in E. congruence.
Qed.

Lemma space_not_decimal c : isspace c = true -> isdecimal c = false.
Proof.
  intros H. unfold isdecimal. now rewrite (isspace_not_decimal _ H).
Qed.

Lemma decimal_not_space c : isdecimal c = true -> isspace c = false.
Proof.
  intros H. destruct (isspace c) eqn:E; [|reflexivity].
  apply space_not_decimal in E. congruence.
Qed.

Lemma decimal_not_letter c : isdecimal c = true -> train_letter c = false.
Proof.
  intros H. destruct (train_letter c) eqn:E; [|reflexivity].
  apply letter_not_decimal in E. congruence.
Qed.

Lemma hyphen_not_space : isspace 45 = false.
Proof. now rewrite isspace_latin. Qed.

Lemma hyphen_not_decimal : isdecimal 45 = false.
Proof. unfold isdecimal. now rewrite todecimal_latin. Qed.

Lemma space_not_hyphen c : isspace c = true -> is_hyphen c = false.
Proof.
  intros H. unfold is_hyphen. destruct (N.eqb_spec c 45); [|reflexivity].
  subst. rewrite hyphen_not_space in H. discriminate.
Qed.

Lemma decimal_not_hyphen c : isdecimal c = true -> is_hyphen c = false.
Proof.
  intros H. unfold is_hyphen. destruct (N.eqb_spec c 45); [|reflexivity].
  subst. rewrite hyphen_not_decimal in H. discriminate.
Qed.

(** The text starts with a train number: one to four letters, optional
    whitespace, an optional hyphen, optional whitespace, one to five
    digits; [rest] is what follows. *)
Definition train_number_prefix (s letters digits rest : pystr) : Prop :=
  exists gap1 hyphen gap2,
    s = letters ++ gap1 ++ hyphen ++ gap2 ++ digits ++ rest
    /\ 1 <= List.length letters <= 4 /\ all_in train_letter letters
    /\ all_in isspace gap1
    /\ (hyphen = [] \/ hyphen = [45%N])
    /\ all_in isspace gap2
    /\ 1 <= List.length digits <= 5 /\ all_in isdecimal digits.

(** The digits are taken greedily: five of them, or up to a character
    that is not a digit. *)
Definition digits_greedy (digits rest : pystr) : Prop :=
  List.length digits = 5 \/ starts_outside isdecimal rest.

Lemma re_match_digits digits rest :
  1 <= List.length digits <= 5 -> all_in isdecimal digits ->
  digits_greedy digits rest ->
  re_match [Rep isdecimal 1 (Some 5)] (digits ++ rest) = Some [digits].
Proof.
  intros Hlen Hall Hgreedy. apply re_match_step; cbn; auto; try lia.
  destruct Hgreedy as [->|H]; auto.
Qed.

Lemma re_match_train_number s letters digits rest :
  train_number_prefix s letters digits rest ->
  digits_greedy digits rest ->
  exists g1 g2 g3,
    re_match TRAIN_NUMBER_RE s = Some [letters; g1; g2; g3; digits].
Proof.
  intros (gap1 & hyphen & gap2 & -> & Hl & Hletters & Hgap1 & Hhyphen & Hgap2
          & Hd & Hdigits) Hgreedy.
  pose proof (re_match_digits Hd Hdigits Hgreedy) as Hlast.
  assert (Hds : forall cls, (forall c, isdecimal c = true -> cls c = false) ->
                            starts_outside cls (digits ++ rest)).
  { intros cls Hcls. apply starts_outside_nonempty; [|lia].
    now apply (all_in_outside (cls := isdecimal)). }
  unfold TRAIN_NUMBER_RE.
  destruct Hhyphen as [->| ->].
  - exists (gap1 ++ gap2), [], []. cbn [app].
    apply re_match_step; cbn [rep_cls rep_lo rep_hi within]; auto; try lia.
    { right. apply starts_outside_app.
      - now apply (all_in_outside (cls := isspace)), Hgap1; apply space_not_letter.
      - apply starts_outside_app.
        + now apply (all_in_outside (cls := isspace)), Hgap2; apply space_not_letter.
        + apply Hds, decimal_not_letter. }
    rewrite app_assoc.
    apply re_match_step; cbn [rep_cls rep_lo rep_hi within]; auto; try lia.
    { apply Forall_app. split; assumption. }
    { right. apply Hds, decimal_not_space. }
    change (digits ++ rest) with ([] ++ (digits ++ rest)).
    apply re_match_step; cbn [rep_cls rep_lo rep_hi within List.length];
      auto; try lia; try apply Forall_nil.
    { right. apply Hds, decimal_not_hyphen. }
    change (digits ++ rest) with ([] ++ (digits ++ rest)).
    apply re_match_step; cbn [rep_cls rep_lo rep_hi within List.length];
      auto; try lia; try apply Forall_nil.
    right. apply Hds, decimal_not_space.
  - exists gap1, [45%N], gap2.
    apply re_match_step; cbn [rep_cls rep_lo rep_hi within]; auto; try lia.
    { right. apply starts_outside_app.
      - now apply (all_in_outside (cls := isspace)), Hgap1; apply space_not_letter.
      - cbn. destruct (train_letter 45) eqn:E; [|reflexivity].
        now destruct (train_letter_latin _ E) as (_ & _ & _ & ?). }
    apply re_match_step; cbn [rep_cls rep_lo rep_hi within]; auto; try lia.
    { right. cbn. apply hyphen_not_space. }
    apply re_match_step; cbn [rep_cls rep_lo rep_hi within List.length];
      auto; try lia.
    { now repeat constructor. }
    apply re_match_step; cbn [rep_cls rep_lo rep_hi within]; auto; try lia.
    right. apply Hds, decimal_not_space.
Qed.

Lemma re_match_train_number_sound s m :
  re_match TRAIN_NUMBER_RE s = Some m ->
  exists letters g1 g2 g3 digits rest,
    m = [letters; g1; g2; g3; digits]
    /\ train_number_prefix s letters digits rest.
Proof.
  intros H. apply re_match_sound in H. destruct H as (Hall & rest & ->).
  unfold TRAIN_NUMBER_RE in Hall.
  inversion Hall as [|? letters ? m1 (Hl1 & Hl2 & Hl3) Hall1]; subst; clear Hall.
  inversion Hall1 as [|? gap1 ? m2 (Ha1 & Ha2 & Ha3) Hall2]; subst; clear Hall1.
  inversion Hall2 as [|? hyphen ? m3 (Hh1 & Hh2 & Hh3) Hall3]; subst; clear Hall2.
  inversion Hall3 as [|? gap2 ? m4 (Hb1 & Hb2 & Hb3) Hall4]; subst; clear Hall3.
  inversion Hall4 as [|? digits ? m5 (Hd1 & Hd2 & Hd3) Hall5]; subst; clear Hall4.
  inversion Hall5; subst; clear Hall5.
  cbn [rep_cls rep_lo rep_hi within] in *.
  exists letters, gap1, hyphen, gap2, digits, rest. split; [reflexivity|].
  exists gap1, hyphen, gap2. cbn [List.concat]. rewrite app_nil_r, <- !app_assoc.
  repeat split; auto.
  destruct hyphen as [|c [|d hyphen]]; cbn in Hh3; [now left | right | lia].
  inversion Hh1 as [|? ? Hc _]; subst. apply N.eqb_eq in Hc. now subst.
Qed.

End TrainNumber.

(** C2, as amended.  For a non-empty input, [normalize_train_number]
    strips and upper-cases it and matches the pattern at the start of the
    text: one to four letters, optional whitespace, an optional hyphen,
    optional whitespace, one to five digits taken greedily.  On a match the
    result is the letters, one space and the digits; with no match it is
    the upper-cased stripped text.  The absent and the empty input give
    the absent result.  "ic1234", "tlk-4567" and "xyz" give "IC 1234",
    "TLK 4567" and "XYZ". *)
Theorem normalize_train_number_pattern :
  (forall (U : UCD) (raw : pystr),
      raw <> [] ->
      (forall letters digits rest,
          train_number_prefix (str_upper (strip raw)) letters digits rest ->
          digits_greedy digits rest ->
          normalize_train_number (Some raw) = Some (letters ++ u " " ++ digits))
      /\ ((forall letters digits rest,
              ~ train_number_prefix (str_upper (strip raw)) letters digits rest) ->
          normalize_train_number (Some raw) = Some (str_upper (strip raw))))
  /\ (forall U : UCD,
         normalize_train_number None = None
         /\ normalize_train_number (Some []) = None)
  /\ normalize_train_number (U := Latin.ucd) (Some (u "ic1234"))
     = Some (u "IC 1234")
  /\ normalize_train_number (U := Latin.ucd) (Some (u "tlk-4567"))
     = Some (u "TLK 4567")
  /\ normalize_train_number (U := Latin.ucd) (Some (u "xyz")) = Some (u "XYZ").
Proof.
  split; [|split; [intros U; split; reflexivity|
                   repeat split; vm_compute; reflexivity]].
  intros U [|c raw] Hne; [congruence|]. split.
  - intros letters digits rest Hprefix Hgreedy.
    destruct (re_match_train_number Hprefix Hgreedy) as (g1 & g2 & g3 & Hm).
    unfold normalize_train_number. now rewrite Hm.
  - intros Hnone. unfold normalize_train_number.
    destruct (re_match TRAIN_NUMBER_RE _) as [m|] eqn:Hm; [|reflexivity].
    exfalso. apply re_match_train_number_sound in Hm.
    destruct Hm as (letters & _ & _ & _ & digits & rest & _ & Hprefix).
    exact (Hnone _ _ _ Hprefix).
Qed.

Lemma normalize_train_number_pattern_witness :
  normalize_train_number (U := Latin.ucd) (Some (u " ic - 1234567"))
  = Some (u "IC" ++ u " " ++ u "12345").
Proof.
  apply (proj1 (proj1 normalize_train_number_pattern Latin.ucd
                      (u " ic - 1234567") ltac:(vm_compute; discriminate))
               (u "IC") (u "12345") (u "67")).
  - exists (u " "), (u "-"), (u " ").
    split; [vm_compute; reflexivity|].
    split; [vm_compute; lia|].
    split; [vm_compute; repeat constructor|].
    split; [vm_compute; repeat constructor|].
    split; [right; vm_compute; reflexivity|].
    split; [vm_compute; repeat constructor|].
    split; [vm_compute; lia | vm_compute; repeat constructor].
  - left. vm_compute. reflexivity.
Defined.

(** For the empty input the result is absent, not the empty text; what
    follows the digits is dropped, and the separator may be longer than
    one character. *)
Lemma normalize_train_number_empty_counterexample :
  normalize_train_number (U := Latin.ucd) (Some (u "")) = None
  /\ normalize_train_number (U := Latin.ucd) (Some (u ""))
     <> Some (@str_upper Latin.ucd (strip (U := Latin.ucd) (u "")))
  /\ normalize_train_number (U := Latin.ucd) (Some (u "ic1234567"))
     = Some (u "IC 12345")
  /\ normalize_train_number (U := Latin.ucd) (Some (u "ic  -  12"))
     = Some (u "IC 12").
Proof.
  split; [reflexivity|]. split; [vm_compute; discriminate|].
  split; vm_compute; reflexivity.
Qed.

(* ================================================================= *)
(** * Further properties of the module *)

(** ** [time_str_to_minutes] and [minutes_to_time_str] *)

Lemma colon_eq : u ":" = [58%N].
Proof. vm_compute. reflexivity. Qed.

Lemma format_02d_below_100 n :
  (0 <= n < 100)%Z ->
  format_02d n = [48 + Z.to_N (n / 10); 48 + Z.to_N (n mod 10)]%N.
Proof.
  intros Hn.
  assert (0 <= n / 10 < 10)%Z
    by (split; [apply Z.div_pos; lia | apply Z.div_lt_upper_bound; lia]).
  assert (0 <= n mod 10 < 10)%Z by (apply Z.mod_pos_bound; lia).
  rewrite <- format_02d_two_digits by lia. f_equal.
  rewrite N2Z.inj_add, N2Z.inj_mul, !Z2N.id by lia.
  pose proof (Z.div_mod n 10 ltac:(lia)). lia.
Qed.

Lemma hhmm_of_digits a b c d :
  (a < 10)%N -> (b < 10)%N -> (c < 10)%N -> (d < 10)%N ->
  (Z.of_N (a * 10 + b) < 24)%Z -> (Z.of_N (c * 10 + d) < 60)%Z ->
  valid_hhmm [48 + a; 48 + b; 58; 48 + c; 48 + d]%N = true
  /\ minute_of_day [48 + a; 48 + b; 58; 48 + c; 48 + d]%N
     = (Z.of_N (a * 10 + b) * 60 + Z.of_N (c * 10 + d))%Z.
Proof.
  intros Ha Hb Hc Hd Hh Hm. unfold valid_hhmm, minute_of_day, is_ascii_digit, digit_value.
  split.
  - repeat (apply andb_true_iff; split);
      first [apply N.leb_le; lia | apply N.eqb_eq; reflexivity
            | apply Z.ltb_lt; lia].
  - lia.
Qed.

Lemma minutes_to_time_str_spec (U : UCD) (m : Z) :
  valid_hhmm (minutes_to_time_str m) = true
  /\ time_str_to_minutes (minutes_to_time_str m) = Ret (m mod 1440)%Z
  /\ ((0 <= m < 1440)%Z ->
      time_str_to_minutes (minutes_to_time_str m) = Ret m).
Proof.
  assert (Hh : (0 <= (m / 60) mod 24 < 24)%Z) by (apply Z.mod_pos_bound; lia).
  assert (Hm : (0 <= m mod 60 < 60)%Z) by (apply Z.mod_pos_bound; lia).
  set (h := ((m / 60) mod 24)%Z) in *. set (mm := (m mod 60)%Z) in *.
  assert (Hhd : (0 <= h / 10 < 10)%Z)
    by (split; [apply Z.div_pos; lia | apply Z.div_lt_upper_bound; lia]).
  assert (Hhm : (0 <= h mod 10 < 10)%Z) by (apply Z.mod_pos_bound; lia).
  assert (Hmd : (0 <= mm / 10 < 10)%Z)
    by (split; [apply Z.div_pos; lia | apply Z.div_lt_upper_bound; lia]).
  assert (Hmm : (0 <= mm mod 10 < 10)%Z) by (apply Z.mod_pos_bound; lia).
  assert (Hstr : minutes_to_time_str m
                 = [48 + Z.to_N (h / 10); 48 + Z.to_N (h mod 10); 58;
                    48 + Z.to_N (mm / 10); 48 + Z.to_N (mm mod 10)]%N).
  { unfold minutes_to_time_str. fold h mm.
    rewrite colon_eq, !format_02d_below_100 by lia. reflexivity. }
  assert (Eh : Z.of_N (Z.to_N (h / 10) * 10 + Z.to_N (h mod 10)) = h).
  { rewrite N2Z.inj_add, N2Z.inj_mul, !Z2N.id by lia.
    pose proof (Z.div_mod h 10 ltac:(lia)). lia. }
  assert (Em : Z.of_N (Z.to_N (mm / 10) * 10 + Z.to_N (mm mod 10)) = mm).
  { rewrite N2Z.inj_add, N2Z.inj_mul, !Z2N.id by lia.
    pose proof (Z.div_mod mm 10 ltac:(lia)). lia. }
  destruct (@hhmm_of_digits (Z.to_N (h / 10)) (Z.to_N (h mod 10))
                            (Z.to_N (mm / 10)) (Z.to_N (mm mod 10)))
    as [Hvalid Hminute]; try lia.
  rewrite Eh, Em in Hminute.
  assert (Hday : (m mod 1440 = h * 60 + mm)%Z).
  { subst h mm. change 1440%Z with (60 * 24)%Z. rewrite Z.rem_mul_r by lia. lia. }
  rewrite Hstr, Hday.
  assert (Hback : time_str_to_minutes
                    [48 + Z.to_N (h / 10); 48 + Z.to_N (h mod 10); 58;
                     48 + Z.to_N (mm / 10); 48 + Z.to_N (mm mod 10)]%N
                  = Ret (h * 60 + mm)%Z)
    by (rewrite (time_str_to_minutes_hhmm _ Hvalid); now rewrite Hminute).
  repeat split; auto.
  intros Hrange. rewrite Hback. f_equal. rewrite <- Hday. now apply Z.mod_small.
Qed.

(** X1.  For every integer [m], [minutes_to_time_str m] is a well-formed
    [HH:MM] string and [time_str_to_minutes] reads it back as [m] modulo
    the 1440 minutes of a day; for a minute of the day the round trip is
    the identity. *)
Theorem minutes_to_time_str_round_trip :
  forall (U : UCD) (m : Z),
    valid_hhmm (minutes_to_time_str m) = true
    /\ time_str_to_minutes (minutes_to_time_str m) = Ret (m mod 1440)%Z
    /\ ((0 <= m < 1440)%Z ->
        time_str_to_minutes (minutes_to_time_str m) = Ret m).
Proof. exact minutes_to_time_str_spec. Qed.

Lemma minutes_to_time_str_round_trip_witness :
  time_str_to_minutes (U := Latin.ucd) (minutes_to_time_str 825) = Ret 825%Z.
Proof.
  apply (proj2 (proj2 (minutes_to_time_str_round_trip Latin.ucd 825))). lia.
Defined.

(** X2.  A well-formed [HH:MM] string denotes a minute of the day below
    1440, [time_str_to_minutes] returns it, and [minutes_to_time_str] gives
    the string back. *)
Theorem hhmm_round_trip :
  forall (U : UCD) (t : pystr),
    valid_hhmm t = true ->
    time_str_to_minutes t = Ret (minute_of_day t)
    /\ (0 <= minute_of_day t < 1440)%Z
    /\ minutes_to_time_str (minute_of_day t) = t.
Proof.
  intros U t Ht. split; [now apply time_str_to_minutes_hhmm|].
  split; [|now apply minutes_to_time_str_hhmm].
  apply valid_hhmm_inv in Ht.
  destruct Ht as (h1 & h2 & m1 & m2 & -> & ? & ? & ? & ? & ? & ?).
  unfold minute_of_day, digit_value in *. lia.
Qed.

Lemma hhmm_round_trip_witness :
  time_str_to_minutes (U := Latin.ucd) (u "18:20") = Ret (minute_of_day (u "18:20"))
  /\ (0 <= minute_of_day (u "18:20") < 1440)%Z
  /\ minutes_to_time_str (minute_of_day (u "18:20")) = u "18:20".
Proof.
  apply (hhmm_round_trip Latin.ucd (u "18:20")). vm_compute. reflexivity.
Defined.

(** ** Errors of [time_str_to_minutes] and [find_next_train] *)

Definition count_char (sep : N) (s : pystr) : nat :=
  List.length (filter (N.eqb sep) s).

Lemma split_char_length sep s :
  List.length (split_char sep s) = S (count_char sep s).
Proof.
  unfold count_char. induction s as [|c s IH]; [reflexivity|].
  cbn [split_char filter]. rewrite (N.eqb_sym sep c).
  destruct (c =? sep)%N.
  - cbn [List.length]. now rewrite IH.
  - destruct (split_char sep s) as [|p ps]; cbn [List.length] in *; [discriminate|].
    exact IH.
Qed.

Section TimeErrors.
Context {U : UCD}.

Lemma PyLong_FromString_raises s e :
  PyLong_FromString s = Raise e -> e = ValueError.
Proof.
  unfold PyLong_FromString.
  match goal with
  | |- context [let '(_, _) := ?x in _] => destruct x as [sign s']
  end.
  destruct s' as [|c r]; [now intros [= <-]|].
  destruct (c =? 95)%N; [now intros [= <-]|].
  destruct (scan_digits 0 0 false (c :: r)) as [[[n digits] rest]|];
    [|now intros [= <-]].
  destruct (digits =? 0)%N; [now intros [= <-]|].
  destruct (int_max_str_digits <? digits)%N; [now intros [= <-]|].
  destruct (skip_spaces rest); [discriminate | now intros [= <-]].
Qed.

Lemma int_of_str_raises s e : int_of_str s = Raise e -> e = ValueError.
Proof. apply PyLong_FromString_raises. Qed.

(** [int] does not skip the separators U+001C..U+001F, which [str.strip]
    removes. *)
Lemma int_of_str_separator c r :
  (28 <= c <= 31)%N -> int_of_str (c :: r) = Raise ValueError.
Proof.
  intros Hc. unfold int_of_str. cbn [transform_decimal_and_space].
  assert ((c <? 127)%N = true) as -> by (apply N.ltb_lt; lia).
  unfold PyLong_FromString. cbn [skip_spaces].
  assert (Py_ISSPACE c = false) as ->.
  { unfold Py_ISSPACE. destruct (N.eqb_spec c 32); [lia|].
    destruct (N.leb_spec 9 c); [|lia]. destruct (N.leb_spec c 13); [lia|].
    reflexivity. }
  assert ((c =? 43)%N = false) as -> by (apply N.eqb_neq; lia).
  assert ((c =? 45)%N = false) as -> by (apply N.eqb_neq; lia).
  assert (H95 : (c =? 95)%N = false) by (apply N.eqb_neq; lia).
  rewrite H95. cbn [scan_digits]. rewrite H95.
  assert (ascii_digit c = None) as ->.
  { unfold ascii_digit. destruct (N.leb_spec 48 c); [lia|]. reflexivity. }
  reflexivity.
Qed.

Lemma time_str_to_minutes_raises t e :
  time_str_to_minutes t = Raise e -> e = ValueError.
Proof.
  unfold time_str_to_minutes.
  destruct (split_char 58 t) as [|hs [|ms [|x parts]]]; try now intros [= <-].
  destruct (int_of_str hs) eqn:Eh; cbn.
  - destruct (int_of_str ms) eqn:Em; cbn; [discriminate|].
    intros [= <-]. now apply int_of_str_raises in Em.
  - intros [= <-]. now apply int_of_str_raises in Eh.
Qed.

(** X3.  [time_str_to_minutes] raises [ValueError] on every text that
    does not hold exactly one colon, and on every text that starts with one
    of the separators U+001C..U+001F, which [int] does not skip;
    [ValueError] is the only exception it raises. *)
Theorem time_str_to_minutes_errors :
  forall t : pystr,
    (count_char 58 t <> 1 -> time_str_to_minutes t = Raise ValueError)
    /\ (forall c, (28 <= c <= 31)%N ->
                  time_str_to_minutes (c :: t) = Raise ValueError)
    /\ (forall e, time_str_to_minutes t = Raise e -> e = ValueError).
Proof.
  intros t. split; [|split; [|intros e; apply time_str_to_minutes_raises]].
  - intros Hcount. unfold time_str_to_minutes.
    pose proof (split_char_length 58 t) as Hlen.
    destruct (split_char 58 t) as [|hs [|ms [|x parts]]]; try reflexivity.
    cbn in Hlen. lia.
  - intros c Hc. unfold time_str_to_minutes. cbn [split_char].
    assert ((c =? 58)%N = false) as -> by (apply N.eqb_neq; lia).
    destruct (split_char 58 t) as [|p [|ms [|x parts]]]; try reflexivity.
    now rewrite (int_of_str_separator _ Hc).
Qed.

Lemma py_map_raises {A B} (f : A -> py B) l x e :
  (forall y e', f y = Raise e' -> e' = ValueError) ->
  In x l -> f x = Raise e -> py_map f l = Raise ValueError.
Proof.
  intros Honly. induction l as [|y l IH]; cbn [In py_map]; [tauto|].
  intros [->|Hin] Hx.
  - rewrite Hx. cbn. f_equal. now apply (Honly x).
  - destruct (f y) eqn:Ey; cbn.
    + now rewrite (IH Hin Hx).
    + f_equal. now apply (Honly y).
Qed.

(** X4.  [find_next_train] reads the clock before it reads the list.  On
    a non-empty list, when the clock cannot be read its exception is the
    outcome, whatever the entries; when it can be read and an entry is not
    readable as a time, [find_next_train] raises [ValueError]: no entry is
    skipped and no partial answer is given. *)
Theorem find_next_train_malformed_entry :
  forall (clock : Clock) (trains : list pystr),
    trains <> [] ->
    (forall e, now_warsaw clock = Raise e ->
               find_next_train clock (Some trains) = Raise e)
    /\ (forall now t e,
           now_warsaw clock = Ret now ->
           In t trains ->
           time_str_to_minutes t = Raise e ->
           find_next_train clock (Some trains) = Raise ValueError).
Proof.
  intros clock [|t0 trains] Hne; [congruence|]. split.
  - intros e Hnow. now apply find_next_train_no_clock.
  - intros now t e Hnow Hin Ht. unfold find_next_train.
    rewrite Hnow. cbn [py_bind].
    rewrite (py_map_raises time_str_to_minutes (t0 :: trains) t
               time_str_to_minutes_raises Hin Ht).
    reflexivity.
Qed.

End TimeErrors.

Lemma time_str_to_minutes_errors_witness :
  time_str_to_minutes (U := Latin.ucd) (u "1830") = Raise ValueError.
Proof.
  apply (proj1 (time_str_to_minutes_errors (U := Latin.ucd) (u "1830"))).
  vm_compute. discriminate.
Defined.

Lemma find_next_train_malformed_entry_witness :
  find_next_train (U := Latin.ucd) (clock_reading (Datetime 10 0))
                  (Some [u "05:10"; 28%N :: u "09:00"; u "13:45"])
  = Raise ValueError.
Proof.
  apply (proj2 (find_next_train_malformed_entry
                  (U := Latin.ucd) (clock_reading (Datetime 10 0))
                  (trains := [u "05:10"; 28%N :: u "09:00"; u "13:45"])
                  ltac:(discriminate))
               (Datetime 10 0) (28%N :: u "09:00") ValueError).
  - reflexivity.
  - vm_compute. auto.
  - vm_compute. reflexivity.
Defined.

(** ** [find_next_train]: order of the list, form of the result *)

Lemma sorted_Z_unique l1 : forall l2,
  StronglySorted Z.le l1 -> StronglySorted Z.le l2 -> Permutation l1 l2 ->
  l1 = l2.
Proof.
  induction l1 as [|a l1 IH]; intros l2 H1 H2 Hp.
  - apply Permutation_nil in Hp. now subst.
  - destruct l2 as [|b l2]; [apply Permutation_sym, Permutation_nil in Hp; discriminate|].
    assert (a = b).
    { pose proof (sorted_head_least H1) as Ha.
      pose proof (sorted_head_least H2) as Hb.
      assert (In a (b :: l2)) by (eapply Permutation_in; [exact Hp | now left]).
      assert (In b (a :: l1))
        by (eapply Permutation_in; [apply Permutation_sym; exact Hp | now left]).
      specialize (Ha b ltac:(assumption)). specialize (Hb a ltac:(assumption)). lia. }
    subst b. f_equal. apply IH.
    + now apply StronglySorted_inv in H1.
    + now apply StronglySorted_inv in H2.
    + now apply Permutation_cons_inv in Hp.
Qed.

Lemma sorted_Z_perm l l' :
  Permutation l l' -> sorted Z.ltb l = sorted Z.ltb l'.
Proof.
  intros Hp. apply sorted_Z_unique; try apply sorted_Z.
  rewrite (sorted_perm Z.ltb l), (sorted_perm Z.ltb l'). exact Hp.
Qed.

Lemma py_map_outcome {A B} (f : A -> py B) (l : list A) :
  (forall y e, f y = Raise e -> e = ValueError) ->
  (exists ys, py_map f l = Ret ys /\ Forall2 (fun x y => f x = Ret y) l ys)
  \/ (py_map f l = Raise ValueError /\ exists x e, In x l /\ f x = Raise e).
Proof.
  intros Honly. induction l as [|x l IH]; cbn [py_map].
  - left. exists []. split; [reflexivity | constructor].
  - destruct (f x) as [y|e] eqn:Ex; cbn.
    + destruct IH as [(ys & -> & Hys)|(-> & x' & e & Hin & Hx')]; cbn.
      * left. exists (y :: ys). split; [reflexivity | now constructor].
      * right. split; [reflexivity|]. exists x', e. split; [now right | exact Hx'].
    + right. rewrite (Honly _ _ Ex). split; [reflexivity|].
      exists x, e. split; [now left | exact Ex].
Qed.

Lemma Forall2_ret_map {A B} (f : A -> py B) (d : B) l ys :
  Forall2 (fun x y => f x = Ret y) l ys ->
  ys = map (fun x => match f x with Ret y => y | Raise _ => d end) l.
Proof.
  induction 1 as [|x y l ys Hx _ IH]; cbn; [reflexivity|].
  now rewrite Hx, IH.
Qed.

Section NextTrainFacts.
Context {U : UCD}.

Lemma py_map_times_perm trains trains' :
  Permutation trains trains' ->
  (py_map time_str_to_minutes trains = Raise ValueError
   /\ py_map time_str_to_minutes trains' = Raise ValueError)
  \/ exists mins mins',
       py_map time_str_to_minutes trains = Ret mins
       /\ py_map time_str_to_minutes trains' = Ret mins'
       /\ Permutation mins mins'.
Proof.
  intros Hp.
  destruct (py_map_outcome time_str_to_minutes trains time_str_to_minutes_raises)
    as [(mins & E & H)|(E & x & e & Hin & Hx)];
  destruct (py_map_outcome time_str_to_minutes trains' time_str_to_minutes_raises)
    as [(mins' & E' & H')|(E' & x' & e' & Hin' & Hx')].
  - right. exists mins, mins'. repeat split; auto.
    rewrite (@Forall2_ret_map _ _ _ 0%Z _ _ H), (@Forall2_ret_map _ _ _ 0%Z _ _ H').
    now apply Permutation_map.
  - exfalso. apply (Permutation_in _ (Permutation_sym Hp)) in Hin'.
    rewrite (py_map_raises _ _ _ time_str_to_minutes_raises Hin' Hx') in E.
    discriminate.
  - exfalso. apply (Permutation_in _ Hp) in Hin.
    rewrite (py_map_raises _ _ _ time_str_to_minutes_raises Hin Hx) in E'.
    discriminate.
  - now left.
Qed.

(** X5.  The order of the list does not matter: on two lists with the
    same entries in any order [find_next_train] gives the same outcome,
    be it a time or the exception. *)
Theorem find_next_train_order_irrelevant :
  forall (clock : Clock) (trains trains' : list pystr),
    Permutation trains trains' ->
    find_next_train clock (Some trains) = find_next_train clock (Some trains').
Proof.
  intros clock trains trains' Hp.
  destruct trains as [|t trains].
  { apply Permutation_nil in Hp. now subst. }
  destruct trains' as [|t' trains'].
  { apply Permutation_sym, Permutation_nil in Hp. discriminate. }
  unfold find_next_train.
  destruct (now_warsaw clock) as [now|e]; cbn [py_bind]; [|reflexivity].
  destruct (py_map_times_perm Hp) as [[-> ->]|(mins & mins' & -> & -> & Hm)];
    [reflexivity|].
  cbn [py_bind]. now rewrite (sorted_Z_perm Hm).
Qed.

(** X6.  A time returned by [find_next_train] is always a well-formed
    [HH:MM] string, whatever the form of the entries read; the result is
    absent only for the absent and for the empty list. *)
Theorem find_next_train_result_form :
  forall (clock : Clock) (trains : option (list pystr)),
    (forall t, find_next_train clock trains = Ret (Some t) -> valid_hhmm t = true)
    /\ (find_next_train clock trains = Ret None
        <-> trains = None \/ trains = Some []).
Proof.
  intros clock [[|t0 trains]|]; try (split; [discriminate | split; auto]).
  unfold find_next_train.
  destruct (now_warsaw clock) as [now|e0]; cbn [py_bind];
    [|split; [discriminate|];
      split; [discriminate | intros [H|H]; discriminate]].
  destruct (py_map time_str_to_minutes (t0 :: trains)) as [mins|e]; cbn [py_bind].
  - destruct (find _ (sorted Z.ltb mins)) as [m|].
    + split.
      * intros t [= <-]. apply (minutes_to_time_str_spec U).
      * split; [discriminate | intros [H|H]; discriminate].
    + destruct (sorted Z.ltb mins) as [|m0 rest].
      * split; [discriminate|]. split; [discriminate | intros [H|H]; discriminate].
      * split.
        -- intros t [= <-]. apply (minutes_to_time_str_spec U).
        -- split; [discriminate | intros [H|H]; discriminate].
  - split; [discriminate|]. split; [discriminate | intros [H|H]; discriminate].
Qed.

End NextTrainFacts.

Lemma find_next_train_order_irrelevant_witness :
  find_next_train (U := Latin.ucd) (clock_reading (Datetime 10 0))
                  (Some [u "18:20"; u "05:10"; u "13:45"])
  = find_next_train (U := Latin.ucd) (clock_reading (Datetime 10 0))
                    (Some [u "05:10"; u "18:20"; u "13:45"]).
Proof.
  apply (find_next_train_order_irrelevant (U := Latin.ucd)). apply perm_swap.
Defined.

(** ** Texts without surrounding whitespace *)

Section StripFixed.
Context {U : UCD}.

Lemma lstrip_fixed s : isspace (hd 0%N s) = false -> lstrip s = s.
Proof. destruct s as [|c s]; cbn; [reflexivity|]. now intros ->. Qed.

Lemma rev_last (s : pystr) :
  s <> [] -> rev s = last s 0%N :: rev (removelast s).
Proof.
  intros H. rewrite (app_removelast_last 0%N H) at 1.
  now rewrite rev_app_distr.
Qed.

Lemma strip_fixed s :
  isspace (hd 0%N s) = false -> isspace (last s 0%N) = false -> strip s = s.
Proof.
  intros Hhd Hlast. unfold strip, rstrip. rewrite (lstrip_fixed _ Hhd).
  destruct (list_eq_dec N.eq_dec s []) as [->|Hne]; [reflexivity|].
  rewrite (rev_last Hne). cbn [lstrip]. rewrite Hlast.
  rewrite <- (rev_last Hne). apply rev_involutive.
Qed.

End StripFixed.

(** ** [normalize_text]: what the result holds *)

Section NormalizeTextFacts.
Context {U : UCD}.

(** X7.  The text returned by [normalize_text] holds no character outside
    the allowed set and no character that is not in the input; an input
    of allowed characters that neither starts nor ends with whitespace is
    returned as it is. *)
Theorem normalize_text_result :
  (forall (text : option pystr) (r : pystr),
      normalize_text text = Some r ->
      Forall (fun c => text_junk c = false) r
      /\ exists t, text = Some t /\ t <> [] /\ forall c, In c r -> In c t)
  /\ (forall t : pystr,
         t <> [] ->
         Forall (fun c => text_junk c = false) t ->
         isspace (hd 0%N t) = false -> isspace (last t 0%N) = false ->
         normalize_text (Some t) = Some t).
Proof.
  split.
  - intros [[|c t]|] r; try discriminate.
    rewrite normalize_text_present. intros [= <-]. split.
    + apply Forall_forall. intros x Hx. unfold re_sub_delete in Hx.
      apply filter_In in Hx. now apply negb_true_iff.
    + exists (c :: t). split; [reflexivity|]. split; [discriminate|].
      intros x Hx. unfold re_sub_delete in Hx. apply filter_In in Hx.
      now apply strip_incl.
  - intros [|c t] Hne Hall Hhd Hlast; [congruence|].
    rewrite normalize_text_present, (strip_fixed _ Hhd Hlast). f_equal.
    unfold re_sub_delete. apply forallb_filter_id. apply forallb_forall.
    rewrite Forall_forall in Hall. intros x Hx. now rewrite (Hall x Hx).
Qed.

End NormalizeTextFacts.

Lemma normalize_text_result_witness :
  Forall (fun c => text_junk (U := Latin.ucd) c = false) (u "z Łodzi")
  /\ exists t, Some (u " z Łodzi?! ") = Some t /\ t <> []
               /\ forall c, In c (u "z Łodzi") -> In c t.
Proof.
  apply (proj1 (normalize_text_result (U := Latin.ucd))
               (Some (u " z Łodzi?! ")) (u "z Łodzi")).
  vm_compute. reflexivity.
Defined.

(** ** [normalize_city]: known cities and alias keys *)

Lemma known_city_true v :
  existsb (str_eqb v) KNOWN_CITIES = true -> In v KNOWN_CITIES.
Proof.
  intros H. apply existsb_exists in H. destruct H as (x & Hx & E).
  apply str_eqb_eq in E. now subst.
Qed.

Lemma alias_value_known alias :
  In alias CITY_ALIASES -> In (snd alias) KNOWN_CITIES.
Proof.
  intros H. apply known_city_true.
  assert (forallb (fun alias => existsb (str_eqb (snd alias)) KNOWN_CITIES)
                  CITY_ALIASES = true) as Hall by (vm_compute; reflexivity).
  rewrite forallb_forall in Hall. now apply Hall.
Qed.

(** Every known city is a key of the alias table for itself and starts
    and ends with a character of U+0000..U+017F that is not whitespace. *)
Lemma known_city_shape v :
  In v KNOWN_CITIES ->
  v <> []
  /\ dict_get str_eqb CITY_ALIASES v = Some v
  /\ (hd 0 v < 384)%N /\ latin_isspace (hd 0%N v) = false
  /\ (last v 0 < 384)%N /\ latin_isspace (last v 0%N) = false.
Proof.
  rewrite KNOWN_CITIES_eq. intros H. vm_compute in H.
  repeat (destruct H as [H|H];
          [subst v; vm_compute; repeat split; discriminate|]).
  destruct H.
Qed.

Section NormalizeCityFacts.
Context {U : UCD}.

Lemma normalize_city_exact raw v :
  raw <> [] -> strip raw = raw ->
  dict_get str_eqb CITY_ALIASES raw = Some v ->
  normalize_city (Some raw) = Some v.
Proof.
  intros Hne Hstrip Hget. destruct raw as [|c raw]; [congruence|].
  unfold normalize_city. now rewrite Hstrip, Hget.
Qed.

(** X8.  For a non-empty input the result of [normalize_city] is a known
    city, or else it is the title-cased stripped input. *)
Theorem normalize_city_known_or_title :
  forall (raw v : pystr),
    raw <> [] ->
    normalize_city (Some raw) = Some v ->
    In v KNOWN_CITIES \/ v = str_title (strip raw).
Proof.
  intros [|c raw] v Hne Hv; [congruence|].
  destruct (normalize_city_follows_chain c raw) as (v' & Hv' & Hchain).
  pose proof (eq_trans (eq_sym Hv') Hv) as E. injection E as ->.
  destruct Hchain as [w Hw|alias _ Hal|w _ _ Hw|k _ _ _ Hk|].
  - left. apply (@alias_value_known (_, _) Hw).
  - left. apply first_such_in in Hal. now apply alias_value_known.
  - left. now destruct Hw.
  - left. apply first_such_in in Hk. tauto.
  - now right.
Qed.

(** X9.  Every known city is a fixed point of [normalize_city]: the
    function is idempotent whenever it resolves to a known city. *)
Theorem normalize_city_fixes_known_cities :
  forall v : pystr, In v KNOWN_CITIES -> normalize_city (Some v) = Some v.
Proof.
  intros v Hv.
  destruct (known_city_shape Hv) as (Hne & Hget & Hh & Hhs & Hl & Hls).
  apply normalize_city_exact; auto.
  apply strip_fixed; rewrite isspace_latin; assumption.
Qed.

(** X10.  When matching without regard to case is unambiguous on the
    alias table, an input that equals an alias key up to letter case and
    surrounding whitespace resolves to the canonical name of that key. *)
Theorem normalize_city_alias_any_case :
  forall (raw k v : pystr),
    raw <> [] ->
    In (k, v) CITY_ALIASES ->
    str_lower (strip raw) = str_lower k ->
    (forall a b, In a CITY_ALIASES -> In b CITY_ALIASES ->
                 str_lower (fst a) = str_lower (fst b) -> snd a = snd b) ->
    normalize_city (Some raw) = Some v.
Proof.
  intros [|c raw] k v Hne Hk Hlow Hunamb; [congruence|].
  destruct (normalize_city_follows_chain c raw) as (v' & Hv' & Hchain).
  transitivity (Some v'); [exact Hv'|]. f_equal.
  assert (Hcase : caseless_eq k (strip (c :: raw))) by (symmetry; exact Hlow).
  destruct Hchain as [w Hw|alias _ Hal|w _ Hnc _|w _ Hnc _ _|_ Hnc _ _].
  - apply (Hunamb (strip (c :: raw), w) (k, v)); auto.
  - apply first_such_in in Hal. destruct Hal as [Hin Hal].
    apply (Hunamb alias (k, v)); auto. cbn [fst]. unfold caseless_eq in Hal.
    congruence.
  - exfalso. exact (Hnc (k, v) Hk Hcase).
  - exfalso. exact (Hnc (k, v) Hk Hcase).
  - exfalso. exact (Hnc (k, v) Hk Hcase).
Qed.

End NormalizeCityFacts.

(** With the tables of CPython, no two alias keys with different values
    are equal without regard to case. *)
Lemma alias_caseless_unambiguous :
  forall a b, In a CITY_ALIASES -> In b CITY_ALIASES ->
              str_lower (UCD := Latin.ucd) (fst a)
              = str_lower (UCD := Latin.ucd) (fst b) ->
              snd a = snd b.
Proof.
  intros a b Ha Hb E.
  assert (forallb (fun a => forallb (fun b =>
            negb (str_eqb (Latin.lower (fst a)) (Latin.lower (fst b)))
            || str_eqb (snd a) (snd b)) CITY_ALIASES) CITY_ALIASES = true)
    as Hall by (vm_compute; reflexivity).
  rewrite forallb_forall in Hall. specialize (Hall a Ha).
  rewrite forallb_forall in Hall. specialize (Hall b Hb).
  apply orb_true_iff in Hall. destruct Hall as [H|H].
  - apply negb_true_iff in H. change (Latin.lower (fst a)) with
      (str_lower (UCD := Latin.ucd) (fst a)) in H.
    rewrite E in H. now rewrite str_eqb_refl in H.
  - now apply str_eqb_eq.
Qed.

Lemma normalize_city_known_or_title_witness :
  In (u "Gdansk") KNOWN_CITIES
  \/ u "Gdansk" = str_title (UCD := Latin.ucd) (strip (U := Latin.ucd) (u " gdansk ")).
Proof.
  apply (normalize_city_known_or_title (U := Latin.ucd) (raw := u " gdansk ")).
  - vm_compute. discriminate.
  - vm_compute. reflexivity.
Defined.

Lemma normalize_city_fixes_known_cities_witness :
  normalize_city (U := Latin.ucd) (Some (u "Poznań")) = Some (u "Poznań").
Proof.
  apply (normalize_city_fixes_known_cities (U := Latin.ucd)).
  vm_compute. auto.
Defined.

Lemma normalize_city_alias_any_case_witness :
  normalize_city (U := Latin.ucd) (Some (u "  KRAKOWIE ")) = Some (u "Kraków").
Proof.
  apply (normalize_city_alias_any_case (U := Latin.ucd) (raw := u "  KRAKOWIE ")
                                       (k := u "Krakowie")).
  - vm_compute. discriminate.
  - vm_compute. auto.
  - vm_compute. reflexivity.
  - exact alias_caseless_unambiguous.
Defined.

(** ** [normalize_train_number]: the canonical form *)

Lemma space_eq : u " " = [32%N].
Proof. vm_compute. reflexivity. Qed.

Lemma hd_app_nonempty (a b : pystr) :
  1 <= List.length a -> hd 0%N (a ++ b) = hd 0%N a.
Proof. destruct a; cbn; [lia | reflexivity]. Qed.

Lemma last_app_nonempty (a b : pystr) :
  1 <= List.length b -> last (a ++ b) 0%N = last b 0%N.
Proof.
  intros Hb. assert (Hne : b <> []) by (destruct b; cbn in Hb; [lia | discriminate]).
  rewrite (app_removelast_last 0%N Hne) at 1.
  rewrite app_assoc. apply last_last.
Qed.

Lemma all_in_hd cls (s : pystr) :
  all_in cls s -> 1 <= List.length s -> cls (hd 0%N s) = true.
Proof. intros H Hlen. destruct H; cbn in *; [lia | assumption]. Qed.

Lemma all_in_last cls (s : pystr) :
  all_in cls s -> 1 <= List.length s -> cls (last s 0%N) = true.
Proof.
  intros H Hlen. unfold all_in in H. rewrite Forall_forall in H. apply H.
  assert (Hne : s <> []) by (destruct s; cbn in Hlen; [lia | discriminate]).
  rewrite (app_removelast_last 0%N Hne) at 2. apply in_or_app. right. now left.
Qed.

Section TrainNumberFacts.
Context {U : UCD}.

Lemma normalize_train_number_nonempty raw :
  raw <> [] ->
  normalize_train_number (Some raw)
  = match re_match TRAIN_NUMBER_RE (str_upper (strip raw)) with
    | Some m => Some (nth 0 m [] ++ u " " ++ nth 4 m [])
    | None => Some (str_upper (strip raw))
    end.
Proof. destruct raw; [congruence | reflexivity]. Qed.

(** X11.  A canonical identifier, one to four letters, one space, one to
    five digits, that upper-casing leaves unchanged is a fixed point of
    [normalize_train_number]. *)
Theorem normalize_train_number_fixes_canonical :
  forall (letters digits : pystr),
    1 <= List.length letters <= 4 -> all_in train_letter letters ->
    1 <= List.length digits <= 5 -> all_in isdecimal digits ->
    str_upper (letters ++ u " " ++ digits) = letters ++ u " " ++ digits ->
    normalize_train_number (Some (letters ++ u " " ++ digits))
    = Some (letters ++ u " " ++ digits).
Proof.
  intros letters digits Hl Hletters Hd Hdigits Hupper.
  set (s := letters ++ u " " ++ digits) in *.
  assert (Hne : s <> []).
  { subst s. destruct letters; cbn in *; [lia | discriminate]. }
  assert (Hstrip : strip s = s).
  { apply strip_fixed; subst s.
    - rewrite hd_app_nonempty by lia.
      apply letter_not_space, all_in_hd; [assumption | lia].
    - rewrite app_assoc, last_app_nonempty by lia.
      apply decimal_not_space, all_in_last; [assumption | lia]. }
  rewrite (normalize_train_number_nonempty Hne), Hstrip, Hupper.
  assert (Hprefix : train_number_prefix s letters digits []).
  { exists (u " "), [], []. subst s. rewrite app_nil_r. cbn [app].
    repeat split; auto; try lia; try apply Forall_nil.
    rewrite space_eq. constructor; [|constructor].
    now rewrite isspace_latin. }
  destruct (re_match_train_number Hprefix) as (g1 & g2 & g3 & ->).
  - right. exact I.
  - reflexivity.
Qed.

End TrainNumberFacts.

Lemma normalize_train_number_fixes_canonical_witness :
  normalize_train_number (U := Latin.ucd) (Some (u "TLK" ++ u " " ++ u "4567"))
  = Some (u "TLK" ++ u " " ++ u "4567").
Proof.
  apply (normalize_train_number_fixes_canonical (U := Latin.ucd)).
  - vm_compute. lia.
  - vm_compute. repeat constructor.
  - vm_compute. lia.
  - vm_compute. repeat constructor.
  - vm_compute. reflexivity.
Defined.

(** ** The tables are reachable *)

Definition route_cities_of {V} (table : list ((pystr * pystr) * V)) : list pystr :=
  flat_map (fun row => [fst (fst row); snd (fst row)]) table.

(** X12.  With the tables of CPython, every city of a key of [SCHEDULES],
    [TICKET_PRICES] and [TRAIN_TYPES], every key of [DELAYS_CITY] and every
    known city is left unchanged by [normalize_text] followed by
    [normalize_city], and every key of [DELAYS_TRAIN], [PLATFORMS] and
    [TRAIN_SERVICES] is left unchanged by [normalize_train_number]: no row
    of a table is out of reach of the normalised input of an action. *)
Theorem table_keys_are_normal_forms :
  Forall (fun city => city_of (U := Latin.ucd) (Some city) = Some city)
         (route_cities_of SCHEDULES ++ route_cities_of TICKET_PRICES
          ++ route_cities_of TRAIN_TYPES ++ dict_keys DELAYS_CITY
          ++ KNOWN_CITIES)
  /\ Forall (fun train => train_of (U := Latin.ucd) (Some train) = Some train)
            (dict_keys DELAYS_TRAIN ++ dict_keys PLATFORMS
             ++ dict_keys TRAIN_SERVICES).
Proof.
  split; apply Forall_forall; intros x Hx.
  - assert (forallb (fun city =>
              match city_of (U := Latin.ucd) (Some city) with
              | Some r => str_eqb r city
              | None => false
              end)
              (route_cities_of SCHEDULES ++ route_cities_of TICKET_PRICES
               ++ route_cities_of TRAIN_TYPES ++ dict_keys DELAYS_CITY
               ++ KNOWN_CITIES) = true) as Hall by (vm_compute; reflexivity).
    rewrite forallb_forall in Hall. specialize (Hall x Hx).
    destruct (city_of (Some x)) as [r|]; [|discriminate].
    apply str_eqb_eq in Hall. now subst.
  - assert (forallb (fun train =>
              match train_of (U := Latin.ucd) (Some train) with
              | Some r => str_eqb r train
              | None => false
              end)
              (dict_keys DELAYS_TRAIN ++ dict_keys PLATFORMS
               ++ dict_keys TRAIN_SERVICES) = true) as Hall
        by (vm_compute; reflexivity).
    rewrite forallb_forall in Hall. specialize (Hall x Hx).
    destruct (train_of (Some x)) as [r|]; [|discriminate].
    apply str_eqb_eq in Hall. now subst.
Qed.

(** ** How the actions read their inputs *)

(** The value of the first entity of one of the given types whose value
    is truthy. *)
Definition first_truthy_value (names : list pystr) (ents : list Entity)
  : option pystr :=
  match find (fun ent => existsb (fun name => is_entity name ent) names
                         && truthy (ent_value ent)) ents with
  | Some ent => ent_value ent
  | None => None
  end.

Lemma py_or_truthy a b : truthy a = true -> py_or a b = a.
Proof. unfold py_or. now intros ->. Qed.

Lemma py_or_falsy a b : truthy a = false -> py_or a b = b.
Proof. unfold py_or. now intros ->. Qed.

(** A loop over the entities that keeps a truthy value and otherwise takes
    the value of an entity of one of the types. *)
Definition fills (names : list pystr)
  (step : option pystr -> Entity -> option pystr) : Prop :=
  forall cur ent,
    step cur ent
    = if negb (truthy cur) && existsb (fun name => is_entity name ent) names
      then ent_value ent else cur.

Lemma fills_fold names step ents : forall start,
  fills names step ->
  truthy (fold_left step ents start)
  = truthy (py_or start (first_truthy_value names ents))
  /\ (truthy (fold_left step ents start) = true ->
      fold_left step ents start
      = py_or start (first_truthy_value names ents)).
Proof.
  induction ents as [|ent ents IH]; intros start Hstep; cbn [fold_left].
  - unfold first_truthy_value. cbn [find].
    case_eq (truthy start); intros E.
    + rewrite (@py_or_truthy _ _ E). auto.
    + rewrite (@py_or_falsy _ _ E). split; [reflexivity | discriminate].
  - rewrite Hstep.
    assert (Hfind : first_truthy_value names (ent :: ents)
                    = if existsb (fun name => is_entity name ent) names
                         && truthy (ent_value ent)
                      then ent_value ent
                      else first_truthy_value names ents).
    { unfold first_truthy_value. cbn [find].
      now destruct (existsb _ names && truthy (ent_value ent)). }
    rewrite Hfind. clear Hfind.
    case_eq (truthy start); intros Estart; cbn [negb andb].
    + destruct (IH start Hstep) as [H1 H2].
      rewrite py_or_truthy in H1, H2 by exact Estart; rewrite ?py_or_truthy by exact Estart. auto.
    + rewrite (@py_or_falsy _ _ Estart).
      destruct (existsb (fun name => is_entity name ent) names); cbn [andb].
      * destruct (IH (ent_value ent) Hstep) as [H1 H2].
        case_eq (truthy (ent_value ent)); intros Eval.
        -- rewrite py_or_truthy in H1, H2 by exact Eval; rewrite ?py_or_truthy by exact Eval. auto.
        -- rewrite py_or_falsy in H1, H2 by exact Eval; rewrite ?py_or_falsy by exact Eval. auto.
      * destruct (IH start Hstep) as [H1 H2].
        rewrite py_or_falsy in H1, H2 by exact Estart; rewrite ?py_or_falsy by exact Estart. auto.
Qed.

Lemma fold_left_pair {A B E} (f : A -> E -> A) (g : B -> E -> B) ents :
  forall a b,
    fold_left (fun '(a, b) ent => (f a ent, g b ent)) ents (a, b)
    = (fold_left f ents a, fold_left g ents b).
Proof. induction ents as [|ent ents IH]; intros a b; cbn; auto. Qed.

Lemma fill_fills name : fills [name] (fun cur ent => fill name ent cur).
Proof.
  intros cur ent. unfold fill. cbn [existsb]. rewrite orb_false_r.
  now rewrite andb_comm.
Qed.

Lemma fill_fills_two name1 name2 :
  str_eqb name1 name2 = false ->
  fills [name1; name2] (fun cur ent => fill name2 ent (fill name1 ent cur)).
Proof.
  intros Hdiff cur ent. unfold fill. cbn [existsb]. rewrite orb_false_r.
  destruct (truthy cur) eqn:Ecur; cbn [negb andb].
  - rewrite !andb_false_r. now rewrite Ecur, !andb_false_r.
  - rewrite !andb_true_r.
    destruct (is_entity name1 ent) eqn:E1; cbn [orb].
    + assert (is_entity name2 ent = false) as ->; [|reflexivity].
      unfold is_entity in *. destruct (ent_entity ent) as [e|]; [|reflexivity].
      apply str_eqb_eq in E1. subst e.
      destruct (str_eqb name1 name2); [discriminate | reflexivity].
    + rewrite Ecur, andb_true_r. reflexivity.
Qed.

Section Inputs.
Context {U : UCD}.

Lemma city_of_resolved names step ents start :
  fills names step ->
  city_of (fold_left step ents start)
  = city_of (py_or start (first_truthy_value names ents)).
Proof.
  intros Hstep. destruct (fills_fold ents start Hstep) as [H1 H2].
  unfold city_of. rewrite H1.
  destruct (truthy (py_or start _)) eqn:E; [|reflexivity].
  rewrite H2; [reflexivity | congruence].
Qed.

Lemma train_of_resolved names step ents start :
  fills names step ->
  train_of (fold_left step ents start)
  = train_of (py_or start (first_truthy_value names ents)).
Proof.
  intros Hstep. destruct (fills_fold ents start Hstep) as [H1 H2].
  unfold train_of. rewrite H1.
  destruct (truthy (py_or start _)) eqn:E; [|reflexivity].
  rewrite H2; [reflexivity | congruence].
Qed.

End Inputs.

Section InputsOfActions.
Context {U : UCD}.

Lemma inputs_resolved :
  forall tr : Tracker,
    schedule_cities tr
    = (city_of (py_or (get_slot tr (u "departure_city"))
                      (first_truthy_value [u "departure_city"; u "from_city"]
                                          (entities tr))),
       city_of (py_or (get_slot tr (u "arrival_city"))
                      (first_truthy_value [u "arrival_city"; u "to_city"]
                                          (entities tr))))
    /\ route_cities tr
       = (city_of (py_or (get_slot tr (u "departure_city"))
                         (first_truthy_value [u "departure_city"] (entities tr))),
          city_of (py_or (get_slot tr (u "arrival_city"))
                         (first_truthy_value [u "arrival_city"] (entities tr))))
    /\ delay_inputs tr
       = (city_of (py_or (get_slot tr (u "delay_city"))
                         (first_truthy_value [u "delay_city"] (entities tr))),
          train_of (py_or (get_slot tr (u "train_number"))
                          (first_truthy_value [u "train_number"] (entities tr))))
    /\ train_input tr
       = train_of (py_or (get_slot tr (u "train_number"))
                         (first_truthy_value [u "train_number"] (entities tr))).
Proof.
  intros tr. repeat split.
  - unfold schedule_cities. cbv zeta.
    rewrite (fold_left_pair
               (fun d ent => fill (u "from_city") ent (fill (u "departure_city") ent d))
               (fun a ent => fill (u "to_city") ent (fill (u "arrival_city") ent a))).
    f_equal; apply city_of_resolved; apply fill_fills_two; vm_compute; reflexivity.
  - unfold route_cities. cbv zeta.
    rewrite (fold_left_pair
               (fun d ent => fill (u "departure_city") ent d)
               (fun a ent => fill (u "arrival_city") ent a)).
    f_equal; apply city_of_resolved; apply fill_fills.
  - unfold delay_inputs. cbv zeta.
    rewrite (fold_left_pair
               (fun d ent => fill (u "delay_city") ent d)
               (fun t ent => fill (u "train_number") ent t)).
    f_equal; [apply city_of_resolved | apply train_of_resolved]; apply fill_fills.
  - unfold train_input. cbv zeta. apply train_of_resolved, fill_fills.
Qed.

(** X13.  Every action reads an input from its slot when the slot holds a
    truthy value and otherwise from the first entity of the latest
    message, of a matching type, whose value is truthy; the value found is
    then normalised.  A value in a slot is never replaced by an entity. *)
Theorem actions_read_slot_then_entity :
  forall tr : Tracker,
    schedule_cities tr
    = (city_of (py_or (get_slot tr (u "departure_city"))
                      (first_truthy_value [u "departure_city"; u "from_city"]
                                          (entities tr))),
       city_of (py_or (get_slot tr (u "arrival_city"))
                      (first_truthy_value [u "arrival_city"; u "to_city"]
                                          (entities tr))))
    /\ route_cities tr
       = (city_of (py_or (get_slot tr (u "departure_city"))
                         (first_truthy_value [u "departure_city"] (entities tr))),
          city_of (py_or (get_slot tr (u "arrival_city"))
                         (first_truthy_value [u "arrival_city"] (entities tr))))
    /\ delay_inputs tr
       = (city_of (py_or (get_slot tr (u "delay_city"))
                         (first_truthy_value [u "delay_city"] (entities tr))),
          train_of (py_or (get_slot tr (u "train_number"))
                          (first_truthy_value [u "train_number"] (entities tr))))
    /\ train_input tr
       = train_of (py_or (get_slot tr (u "train_number"))
                         (first_truthy_value [u "train_number"] (entities tr))).
Proof. exact inputs_resolved. Qed.

End InputsOfActions.

(** ** Replies of the schedule action on a stored route *)

Section ScheduleReplies.
Context {U : UCD}.

(** X15.  On a route that is a key of [SCHEDULES] the schedule action
    answers by intent.  When the clock can be read: for [ask_schedule_next]
    and [ask_schedule] the next departure, which is one of the listed
    times; for [ask_schedule_all] and [ask_schedule_connection] all listed
    times joined by commas; for any other intent both.  When the clock
    cannot be read, the exception of [now_warsaw] leaves the action before
    any message is sent, except for [ask_schedule_all] and
    [ask_schedule_connection], which do not read the clock and are answered
    as before. *)
Theorem schedule_reply_on_stored_route :
  forall (clock : Clock) (tr : Tracker) (departure arrival : pystr)
         (trains : list pystr),
    schedule_cities tr = (Some departure, Some arrival) ->
    departure <> [] -> arrival <> [] ->
    dict_get pair_eqb SCHEDULES (departure, arrival) = Some trains ->
    (forall now,
        now_warsaw clock = Ret now ->
        exists t,
          find_next_train clock (Some trains) = Ret (Some t) /\ In t trains
          /\ call action_show_schedule clock tr
             = (Ret [],
                [if intent_in (intent_name tr)
                              [u "ask_schedule_next"; u "ask_schedule"]
                 then u "Najbliższy pociąg z " ++ departure ++ u " do " ++ arrival
                        ++ u " odjeżdża o " ++ t ++ u "."
                 else if intent_in (intent_name tr) [u "ask_schedule_all"]
                         || intent_in (intent_name tr) [u "ask_schedule_connection"]
                 then u "Wszystkie dostępne odjazdy z " ++ departure ++ u " do "
                        ++ arrival ++ u ": " ++ join (u ", ") trains ++ u "."
                 else u "Połączenia z " ++ departure ++ u " do " ++ arrival
                        ++ u ": " ++ join (u ", ") trains ++ u ". Najbliższy: "
                        ++ t ++ u "."]))
    /\ (forall e,
           now_warsaw clock = Raise e ->
           call action_show_schedule clock tr
           = if intent_in (intent_name tr)
                          [u "ask_schedule_next"; u "ask_schedule"]
             then (Raise e, [])
             else if intent_in (intent_name tr) [u "ask_schedule_all"]
                     || intent_in (intent_name tr) [u "ask_schedule_connection"]
             then (Ret [],
                   [u "Wszystkie dostępne odjazdy z " ++ departure ++ u " do "
                      ++ arrival ++ u ": " ++ join (u ", ") trains ++ u "."])
             else (Raise e, [])).
Proof.
  intros clock tr departure arrival trains Hcities Hd Ha Hkey.
  destruct (SCHEDULES_hhmm _ Hkey) as [Hne Hvalid].
  split.
  - intros now Hnow.
    destruct (@find_next_train_listed _ _ _ _ Hnow Hne Hvalid)
      as (t & Ht & Hin & _).
    exists t. split; [exact Ht|]. split; [exact Hin|].
    unfold call, run, ActionShowSchedule_run. rewrite Hcities.
    destruct departure as [|d departure]; [congruence|].
    destruct arrival as [|a arrival]; [congruence|].
    cbv zeta. rewrite Hkey, Ht.
    destruct (intent_in (intent_name tr) [u "ask_schedule_next"; u "ask_schedule"]);
      [reflexivity|].
    destruct (intent_in (intent_name tr) [u "ask_schedule_all"]
              || intent_in (intent_name tr) [u "ask_schedule_connection"]);
      reflexivity.
  - intros e Hnow.
    unfold call, run, ActionShowSchedule_run. rewrite Hcities.
    destruct departure as [|d departure]; [congruence|].
    destruct arrival as [|a arrival]; [congruence|].
    destruct trains as [|t0 trains]; [congruence|].
    cbv zeta. rewrite Hkey.
    destruct (intent_in (intent_name tr) [u "ask_schedule_next"; u "ask_schedule"]).
    + unfold bind, lift.
      now rewrite (@find_next_train_no_clock _ _ _ _ _ Hnow).
    + destruct (intent_in (intent_name tr) [u "ask_schedule_all"]
                || intent_in (intent_name tr) [u "ask_schedule_connection"]);
        [reflexivity|].
      unfold bind, lift.
      now rewrite (@find_next_train_no_clock _ _ _ _ _ Hnow).
Qed.

End ScheduleReplies.

Lemma schedule_reply_on_stored_route_witness :
  exists t,
    find_next_train (U := Latin.ucd) (clock_reading (Datetime 10 0))
      (Some (map u ["05:10"; "09:00"; "13:45"; "18:20"]%string)) = Ret (Some t)
    /\ In t (map u ["05:10"; "09:00"; "13:45"; "18:20"]%string)
    /\ call (U := Latin.ucd) action_show_schedule (clock_reading (Datetime 10 0))
            (route_tracker (u "Łodzi") (u "Krakowa"))
       = (Ret [],
          [if intent_in (intent_name (route_tracker (u "Łodzi") (u "Krakowa")))
                        [u "ask_schedule_next"; u "ask_schedule"]
           then u "Najbliższy pociąg z " ++ u "Łódź" ++ u " do " ++ u "Kraków"
                  ++ u " odjeżdża o " ++ t ++ u "."
           else if intent_in (intent_name (route_tracker (u "Łodzi") (u "Krakowa")))
                             [u "ask_schedule_all"]
                   || intent_in (intent_name (route_tracker (u "Łodzi") (u "Krakowa")))
                                [u "ask_schedule_connection"]
           then u "Wszystkie dostępne odjazdy z " ++ u "Łódź" ++ u " do "
                  ++ u "Kraków" ++ u ": "
                  ++ join (u ", ") (map u ["05:10"; "09:00"; "13:45"; "18:20"]%string)
                  ++ u "."
           else u "Połączenia z " ++ u "Łódź" ++ u " do " ++ u "Kraków" ++ u ": "
                  ++ join (u ", ") (map u ["05:10"; "09:00"; "13:45"; "18:20"]%string)
                  ++ u ". Najbliższy: " ++ t ++ u "."]).
Proof.
  apply (proj1 (schedule_reply_on_stored_route
                  (U := Latin.ucd) (clock_reading (Datetime 10 0))
                  (route_tracker (u "Łodzi") (u "Krakowa"))
                  (departure := u "Łódź") (arrival := u "Kraków")
                  (trains := map u ["05:10"; "09:00"; "13:45"; "18:20"]%string)
                  ltac:(vm_compute; reflexivity)
                  ltac:(vm_compute; discriminate)
                  ltac:(vm_compute; discriminate)
                  ltac:(vm_compute; reflexivity))
               (Datetime 10 0)).
  reflexivity.
Defined.

(** ** The diagnostic action, the train type and the delays *)

Lemma table_values_truthy {K} (eqb : K -> K -> bool) (table : list (K * pystr)) :
  (forall a b, eqb a b = true <-> a = b) ->
  forallb (fun row => truthy (Some (snd row))) table = true ->
  forall key v, dict_get eqb table key = Some v -> truthy (Some v) = true.
Proof.
  intros Heqb Hall key v H. apply (dict_get_in eqb Heqb) in H.
  rewrite forallb_forall in Hall. exact (Hall _ H).
Qed.

Section OtherReplies.
Context {U : UCD}.

(** X14.  The diagnostic action reads, for each city, only the first
    entity of its type: it takes that value when it is truthy and the slot
    otherwise, also when a later entity of the type has a value.  With two
    truthy cities it echoes them as given, without normalising them, in two
    messages that end with the fixed time 12:45. *)
Theorem check_schedule_echoes_entities :
  forall (clock : Clock) (tr : Tracker) (from_city to_city : pystr),
    from_city <> [] -> to_city <> [] ->
    first_entity_value tr (u "from_city") = Some from_city
    \/ (truthy (first_entity_value tr (u "from_city")) = false
        /\ get_slot tr (u "departure_city") = Some from_city) ->
    first_entity_value tr (u "to_city") = Some to_city
    \/ (truthy (first_entity_value tr (u "to_city")) = false
        /\ get_slot tr (u "arrival_city") = Some to_city) ->
    call action_check_schedule clock tr
    = (Ret [],
       [u "Sprawdzam rozkład jazdy z " ++ from_city ++ u " do " ++ to_city
          ++ u "...";
        u "Najbliższy pociąg z " ++ from_city ++ u " do " ++ to_city
          ++ u " odjeżdża o 12:45 🚆"]).
Proof.
  intros clock tr from_city to_city Hfne Htne Hf Ht.
  assert (Hfrom : py_or (first_entity_value tr (u "from_city"))
                        (get_slot tr (u "departure_city")) = Some from_city).
  { destruct Hf as [Hf|[Hf Hs]].
    - rewrite Hf. apply py_or_truthy. now apply truthy_cons.
    - rewrite py_or_falsy by exact Hf. exact Hs. }
  assert (Hto : py_or (first_entity_value tr (u "to_city"))
                      (get_slot tr (u "arrival_city")) = Some to_city).
  { destruct Ht as [Ht|[Ht Hs]].
    - rewrite Ht. apply py_or_truthy. now apply truthy_cons.
    - rewrite py_or_falsy by exact Ht. exact Hs. }
  unfold call, run, ActionCheckSchedule_run. cbv zeta. rewrite Hfrom, Hto.
  destruct from_city as [|f from_city]; [congruence|].
  destruct to_city as [|t to_city]; [congruence|].
  reflexivity.
Qed.

(** X16.  The train-type action looks the pair up in one direction only:
    when the normalised pair is not a key of [TRAIN_TYPES] it reports no
    data, whether or not the reversed pair is a key; when it is a key it
    reports the stored type. *)
Theorem train_type_is_directional :
  forall (clock : Clock) (tr : Tracker) (departure arrival : pystr),
    route_cities tr = (Some departure, Some arrival) ->
    departure <> [] -> arrival <> [] ->
    (dict_get pair_eqb TRAIN_TYPES (departure, arrival) = None ->
     call action_show_train_type clock tr
     = (Ret [],
        [u "Brak danych o typie pociągu na trasie " ++ departure ++ u " → "
           ++ arrival ++ u "."]))
    /\ (forall train_type,
           dict_get pair_eqb TRAIN_TYPES (departure, arrival) = Some train_type ->
           call action_show_train_type clock tr
           = (Ret [],
              [u "Na trasie " ++ departure ++ u " → " ++ arrival
                 ++ u " kursuje pociąg typu: " ++ train_type ++ u "."])).
Proof.
  intros clock tr departure arrival Hcities Hd Ha.
  unfold call, run, ActionShowTrainType_run. rewrite Hcities.
  destruct departure as [|d departure]; [congruence|].
  destruct arrival as [|a arrival]; [congruence|].
  cbv zeta. split.
  - intros ->. reflexivity.
  - intros train_type Hget. rewrite Hget.
    assert (Htruthy : truthy (Some train_type) = true).
    { apply (table_values_truthy pair_eqb TRAIN_TYPES pair_eqb_eq
               ltac:(vm_compute; reflexivity) _ Hget). }
    rewrite Htruthy. reflexivity.
Qed.

End OtherReplies.

Lemma check_schedule_echoes_entities_witness :
  call (U := Latin.ucd) action_check_schedule (clock_reading (Datetime 12 0))
       {| slots := [(u "departure_city", Some (u "Warszawa"))];
          intent_name := None;
          entities := [ {| ent_entity := Some (u "from_city");
                           ent_value := Some [] |};
                        {| ent_entity := Some (u "from_city");
                           ent_value := Some (u "Lodz") |};
                        {| ent_entity := Some (u "to_city");
                           ent_value := Some (u "Krakow") |} ] |}
  = (Ret [],
     [u "Sprawdzam rozkład jazdy z " ++ u "Warszawa" ++ u " do " ++ u "Krakow"
        ++ u "...";
      u "Najbliższy pociąg z " ++ u "Warszawa" ++ u " do " ++ u "Krakow"
        ++ u " odjeżdża o 12:45 🚆"]).
Proof.
  apply (check_schedule_echoes_entities (U := Latin.ucd)).
  - vm_compute. discriminate.
  - vm_compute. discriminate.
  - right. split; vm_compute; reflexivity.
  - left. vm_compute. reflexivity.
Defined.

Lemma train_type_is_directional_witness :
  dict_get pair_eqb TRAIN_TYPES (u "Łódź", u "Kraków") = Some (u "IC")
  /\ call (U := Latin.ucd) action_show_train_type (clock_reading (Datetime 12 0))
          (route_tracker (u "Krakowa") (u "Łodzi"))
     = (Ret [],
        [u "Brak danych o typie pociągu na trasie " ++ u "Kraków" ++ u " → "
           ++ u "Łódź" ++ u "."]).
Proof.
  split; [vm_compute; reflexivity|].
  apply (proj1 (train_type_is_directional (U := Latin.ucd) (clock_reading (Datetime 12 0))
                  (route_tracker (u "Krakowa") (u "Łodzi"))
                  (departure := u "Kraków") (arrival := u "Łódź")
                  ltac:(vm_compute; reflexivity)
                  ltac:(vm_compute; discriminate)
                  ltac:(vm_compute; discriminate))).
  vm_compute. reflexivity.
Defined.

Section DelayFallback.
Context {U : UCD}.

(** No delay information for the city: no city, or a city that is not a
    key of [DELAYS_CITY]; likewise for the train. *)
Definition no_city_delay (city : option pystr) : Prop :=
  truthy city = false
  \/ exists c, city = Some c /\ dict_get str_eqb DELAYS_CITY c = None.

Definition no_train_delay (train : option pystr) : Prop :=
  truthy train = false
  \/ exists t, train = Some t /\ dict_get str_eqb DELAYS_TRAIN t = None.

(** X17.  For an intent other than [ask_delay_city], [ask_delay] and
    [ask_delay_train] the delay action tries the city first: a city with
    delay information is answered even when the train number has
    information too; the train is answered only when the city gives
    nothing; with neither it asks which one is meant. *)
Theorem delay_fallback_city_before_train :
  forall (clock : Clock) (tr : Tracker) (city train : option pystr),
    delay_inputs tr = (city, train) ->
    intent_in (intent_name tr) [u "ask_delay_city"; u "ask_delay"] = false ->
    intent_in (intent_name tr) [u "ask_delay_train"] = false ->
    (forall c info,
        city = Some c -> c <> [] ->
        dict_get str_eqb DELAYS_CITY c = Some info ->
        call action_show_delay clock tr
        = (Ret [], [u "Aktualnie dla " ++ c ++ u ": " ++ info ++ u "."]))
    /\ (forall t info,
           no_city_delay city ->
           train = Some t -> t <> [] ->
           dict_get str_eqb DELAYS_TRAIN t = Some info ->
           call action_show_delay clock tr
           = (Ret [], [u "Pociąg " ++ t ++ u ": " ++ info ++ u "."]))
    /\ (no_city_delay city -> no_train_delay train ->
        call action_show_delay clock tr
        = (Ret [],
           [u "Nie rozumiem — podaj proszę miasto lub numer pociągu, którego dotyczy zapytanie o opóźnienia."])).
Proof.
  intros clock tr city train Hinputs Hi1 Hi2.
  unfold call, run, ActionShowDelay_run. cbv zeta. rewrite Hinputs, Hi1, Hi2.
  assert (Hcity : forall key v, dict_get str_eqb DELAYS_CITY key = Some v ->
                                truthy (Some v) = true)
    by (apply (table_values_truthy str_eqb DELAYS_CITY str_eqb_eq);
        vm_compute; reflexivity).
  assert (Htrain : forall key v, dict_get str_eqb DELAYS_TRAIN key = Some v ->
                                 truthy (Some v) = true)
    by (apply (table_values_truthy str_eqb DELAYS_TRAIN str_eqb_eq);
        vm_compute; reflexivity).
  assert (Hnocity : no_city_delay city ->
                    truthy (if truthy city
                            then dict_get str_eqb DELAYS_CITY (fmt city)
                            else None) = false).
  { intros [H|(c & -> & H)]; [now rewrite H|].
    cbn [fmt]. rewrite H. now destruct (truthy (Some c)). }
  assert (Hnotrain : no_train_delay train ->
                     truthy (if truthy train
                             then dict_get str_eqb DELAYS_TRAIN (fmt train)
                             else None) = false).
  { intros [H|(t & -> & H)]; [now rewrite H|].
    cbn [fmt]. rewrite H. now destruct (truthy (Some t)). }
  split; [|split].
  - intros c info -> Hc Hget. rewrite (truthy_cons Hc). cbn [fmt].
    rewrite Hget, (Hcity _ _ Hget). reflexivity.
  - intros t info Hno -> Ht Hget. rewrite (Hnocity Hno).
    rewrite (truthy_cons Ht). cbn [fmt]. rewrite Hget, (Htrain _ _ Hget).
    reflexivity.
  - intros Hno Hno'. rewrite (Hnocity Hno), (Hnotrain Hno'). reflexivity.
Qed.

End DelayFallback.

Lemma delay_fallback_city_before_train_witness :
  call (U := Latin.ucd) action_show_delay (clock_reading (Datetime 12 0))
       {| slots := [ (u "delay_city", Some (u "Poznania"));
                     (u "train_number", Some (u "ic1234")) ];
          intent_name := Some (u "nlu_fallback");
          entities := [] |}
  = (Ret [],
     [u "Aktualnie dla " ++ u "Poznań" ++ u ": " ++ u "brak ogłoszonych utrudnień."
        ++ u "."]).
Proof.
  apply (proj1 (delay_fallback_city_before_train (U := Latin.ucd) (clock_reading (Datetime 12 0))
                  {| slots := [ (u "delay_city", Some (u "Poznania"));
                                (u "train_number", Some (u "ic1234")) ];
                     intent_name := Some (u "nlu_fallback");
                     entities := [] |}
                  (city := Some (u "Poznań")) (train := Some (u "IC 1234"))
                  ltac:(vm_compute; reflexivity)
                  ltac:(vm_compute; reflexivity)
                  ltac:(vm_compute; reflexivity))).
  - reflexivity.
  - vm_compute. discriminate.
  - vm_compute. reflexivity.
Defined.

(** ** Every stored row is answered *)

Lemma stored_city_normal city :
  In city (route_cities_of SCHEDULES ++ route_cities_of TICKET_PRICES) ->
  city <> [] /\ city_of (U := Latin.ucd) (Some city) = Some city.
Proof.
  intros Hin.
  assert (forallb (fun city =>
            match city_of (U := Latin.ucd) (Some city) with
            | Some r => str_eqb r city && negb (str_eqb city [])
            | None => false
            end)
            (route_cities_of SCHEDULES ++ route_cities_of TICKET_PRICES) = true)
    as Hall by (vm_compute; reflexivity).
  rewrite forallb_forall in Hall. specialize (Hall city Hin).
  destruct (city_of (Some city)) as [r|]; [|discriminate].
  apply andb_true_iff in Hall. destruct Hall as [H1 H2].
  apply str_eqb_eq in H1. subst r. split; [|reflexivity].
  intros ->. discriminate.
Qed.

Lemma route_cities_of_in {V} (table : list ((pystr * pystr) * V)) d a v :
  In ((d, a), v) table ->
  In d (route_cities_of table) /\ In a (route_cities_of table).
Proof.
  intros H. unfold route_cities_of. split; apply in_flat_map;
    exists ((d, a), v); (split; [exact H | cbn; auto]).
Qed.

Lemma SCHEDULES_row d a trains :
  In ((d, a), trains) SCHEDULES ->
  dict_get pair_eqb SCHEDULES (d, a) = Some trains.
Proof.
  intros H. vm_compute in H.
  repeat (destruct H as [H|H];
          [injection H as <- <- <-; vm_compute; reflexivity|]).
  destruct H.
Qed.

Lemma TICKET_PRICES_row d a price :
  In ((d, a), price) TICKET_PRICES ->
  dict_get pair_eqb TICKET_PRICES (d, a) = Some price
  /\ truthy (Some price) = true.
Proof.
  intros H. vm_compute in H.
  repeat (destruct H as [H|H];
          [injection H as <- <- <-; vm_compute; split; reflexivity|]).
  destruct H.
Qed.

(** X18.  With the tables of CPython every stored row is answered: when
    the slots hold the two cities of a row of [SCHEDULES] and the intent is
    [ask_schedule_all], the reply lists the times of that row; when they
    hold the cities of a row of [TICKET_PRICES] the price action replies
    with the price of that row.  The entities of the message play no part. *)
Theorem stored_rows_are_answered :
  forall (clock : Clock) (tr : Tracker) (d a : pystr),
    get_slot tr (u "departure_city") = Some d ->
    get_slot tr (u "arrival_city") = Some a ->
    (forall trains,
        In ((d, a), trains) SCHEDULES ->
        intent_name tr = Some (u "ask_schedule_all") ->
        call (U := Latin.ucd) action_show_schedule clock tr
        = (Ret [],
           [u "Wszystkie dostępne odjazdy z " ++ d ++ u " do " ++ a ++ u ": "
              ++ join (u ", ") trains ++ u "."]))
    /\ (forall price,
           In ((d, a), price) TICKET_PRICES ->
           call (U := Latin.ucd) action_show_ticket_price clock tr
           = (Ret [], [price_reply d a price])).
Proof.
  intros clock tr d a Hd Ha. split.
  - intros trains Hrow Hintent.
    destruct (@route_cities_of_in _ _ _ _ _ Hrow) as [Hind Hina].
    destruct (@stored_city_normal d) as [Hdne Hdn]; [apply in_or_app; now left|].
    destruct (@stored_city_normal a) as [Hane Han]; [apply in_or_app; now left|].
    assert (Hcities : schedule_cities (U := Latin.ucd) tr = (Some d, Some a)).
    { rewrite (proj1 (inputs_resolved (U := Latin.ucd) tr)), Hd, Ha.
      rewrite !py_or_truthy by now apply truthy_cons.
      now rewrite Hdn, Han. }
    unfold call, run, ActionShowSchedule_run. rewrite Hcities.
    destruct d as [|d0 d]; [congruence|]. destruct a as [|a0 a]; [congruence|].
    cbv zeta. rewrite (@SCHEDULES_row _ _ _ Hrow), Hintent.
    assert (intent_in (Some (u "ask_schedule_all"))
                      [u "ask_schedule_next"; u "ask_schedule"] = false) as ->
      by (vm_compute; reflexivity).
    assert (intent_in (Some (u "ask_schedule_all")) [u "ask_schedule_all"] = true)
      as -> by (vm_compute; reflexivity).
    reflexivity.
  - intros price Hrow.
    destruct (@route_cities_of_in _ _ _ _ _ Hrow) as [Hind Hina].
    destruct (@stored_city_normal d) as [Hdne Hdn]; [apply in_or_app; now right|].
    destruct (@stored_city_normal a) as [Hane Han]; [apply in_or_app; now right|].
    assert (Hcities : route_cities (U := Latin.ucd) tr = (Some d, Some a)).
    { rewrite (proj1 (proj2 (inputs_resolved (U := Latin.ucd) tr))), Hd, Ha.
      rewrite !py_or_truthy by now apply truthy_cons.
      now rewrite Hdn, Han. }
    destruct (@TICKET_PRICES_row _ _ _ Hrow) as [Hget Htruthy].
    unfold call, run, ActionShowTicketPrice_run. rewrite Hcities.
    destruct d as [|d0 d]; [congruence|]. destruct a as [|a0 a]; [congruence|].
    cbv zeta. rewrite Hget. rewrite ?py_or_truthy by exact Htruthy. rewrite ?Htruthy.
    reflexivity.
Qed.

Lemma stored_rows_are_answered_witness :
  call (U := Latin.ucd) action_show_schedule (clock_reading (Datetime 10 0))
       {| slots := [ (u "departure_city", Some (u "Poznań"));
                     (u "arrival_city", Some (u "Warszawa")) ];
          intent_name := Some (u "ask_schedule_all");
          entities := [ {| ent_entity := Some (u "departure_city");
                           ent_value := Some (u "Krakowa") |} ] |}
  = (Ret [],
     [u "Wszystkie dostępne odjazdy z " ++ u "Poznań" ++ u " do " ++ u "Warszawa"
        ++ u ": " ++ join (u ", ") (map u ["05:50"; "10:10"; "13:00"; "17:25"]%string)
        ++ u "."]).
Proof.
  apply (proj1 (stored_rows_are_answered (clock_reading (Datetime 10 0))
                  {| slots := [ (u "departure_city", Some (u "Poznań"));
                                (u "arrival_city", Some (u "Warszawa")) ];
                     intent_name := Some (u "ask_schedule_all");
                     entities := [ {| ent_entity := Some (u "departure_city");
                                      ent_value := Some (u "Krakowa") |} ] |}
                  (d := u "Poznań") (a := u "Warszawa")
                  ltac:(vm_compute; reflexivity)
                  ltac:(vm_compute; reflexivity))).
  - vm_compute. auto 10.
  - reflexivity.
Defined.

(** ** Platform and services under any spelling of the train number *)

Lemma PLATFORMS_row k p :
  In (k, p) PLATFORMS ->
  dict_get str_eqb PLATFORMS k = Some p
  /\ truthy (Some p) = true /\ truthy (Some k) = true.
Proof.
  intros H. vm_compute in H.
  repeat (destruct H as [H|H];
          [injection H as <- <-; vm_compute; repeat split; reflexivity|]).
  destruct H.
Qed.

Lemma TRAIN_SERVICES_row k s :
  In (k, s) TRAIN_SERVICES ->
  dict_get str_eqb TRAIN_SERVICES k = Some s
  /\ s <> [] /\ truthy (Some k) = true.
Proof.
  intros H. vm_compute in H.
  repeat (destruct H as [H|H];
          [injection H as <- <-; vm_compute;
           repeat split; try reflexivity; discriminate|]).
  destruct H.
Qed.

Section TrainReplies.
Context {U : UCD}.

(** X19.  The platform and the services actions answer from the row of
    the normalised train number: when the [train_number] slot holds a
    non-empty spelling that [normalize_train_number] maps to a key of
    [PLATFORMS], the platform action replies with that key and its platform;
    when it maps to a key of [TRAIN_SERVICES], the services action replies
    with that key and its services joined by [", "].  The reply shows the
    key, not the spelling that was given. *)
Theorem train_replies_on_any_spelling :
  forall (clock : Clock) (tr : Tracker) (raw k : pystr),
    get_slot tr (u "train_number") = Some raw ->
    raw <> [] ->
    normalize_train_number (Some raw) = Some k ->
    (forall p,
        In (k, p) PLATFORMS ->
        call action_show_platform clock tr
        = (Ret [], [u "Pociąg " ++ k ++ u " odjeżdża z " ++ p ++ u "."]))
    /\ (forall s,
           In (k, s) TRAIN_SERVICES ->
           call action_show_services clock tr
           = (Ret [],
              [u "Pociąg " ++ k ++ u " oferuje: " ++ join (u ", ") s ++ u "."])).
Proof.
  intros clock tr raw k Hslot Hraw Hnorm.
  assert (Hin : train_input tr = Some k).
  { rewrite (proj2 (proj2 (proj2 (inputs_resolved tr)))), Hslot.
    assert (Ht : truthy (Some raw) = true) by now apply truthy_cons.
    rewrite py_or_truthy by exact Ht.
    unfold train_of. now rewrite Ht. }
  split.
  - intros p Hrow. destruct (@PLATFORMS_row _ _ Hrow) as (Hget & Hp & Hk).
    unfold call, run, ActionShowPlatform_run. cbv zeta.
    rewrite Hin, Hk. cbn [negb fmt]. rewrite Hget, Hp. reflexivity.
  - intros s Hrow. destruct (@TRAIN_SERVICES_row _ _ Hrow) as (Hget & Hs & Hk).
    unfold call, run, ActionShowServices_run. cbv zeta.
    rewrite Hin, Hk. cbn [negb fmt]. rewrite Hget.
    destruct s as [|s0 s]; [congruence|]. reflexivity.
Qed.

End TrainReplies.

Lemma train_replies_on_any_spelling_witness :
  call (U := Latin.ucd) action_show_platform (clock_reading (Datetime 10 0))
       {| slots := [ (u "train_number", Some (u " ic-1234 ")) ];
          intent_name := Some (u "ask_platform");
          entities := [] |}
  = (Ret [], [u "Pociąg " ++ u "IC 1234" ++ u " odjeżdża z " ++ u "peron 5" ++ u "."]).
Proof.
  apply (proj1 (train_replies_on_any_spelling (U := Latin.ucd) (clock_reading (Datetime 10 0))
                  {| slots := [ (u "train_number", Some (u " ic-1234 ")) ];
                     intent_name := Some (u "ask_platform");
                     entities := [] |}
                  (raw := u " ic-1234 ") (k := u "IC 1234")
                  ltac:(vm_compute; reflexivity)
                  ltac:(vm_compute; discriminate)
                  ltac:(vm_compute; reflexivity))).
  vm_compute. auto.
Defined.
